(** * Extended attributes of scoutfs (src/xattr.c), embedded in Rocq.

    One logical xattr (name, value) is packed into one or more items of an
    ordered item store.  The functions of xattr.c are translated one by one
    as state-passing functions over a record holding the item store, the
    per-inode id counter and a log of the collaborator calls made so far.
    Loops that have no structural measure take a fuel argument and return
    [None] when it runs out; every theorem about a result proves [Some]. *)

From Stdlib Require Import ZArith Lia.
From Stdlib.Strings Require Import Byte.
From stdpp Require Import base option list gmap fin_maps.

Local Open Scope Z_scope.

(** ** Bytes and machine integers *)

Definition Z_of_byte (b : byte) : Z := Z.of_N (Byte.to_N b).

Definition byte_of_Z (z : Z) : byte :=
  match Byte.of_N (Z.to_N (z mod 256)) with
  | Some b => b
  | None => x00
  end.

#[global] Instance byte_eq_decision : EqDecision byte := Byte.byte_eq_dec.

Definition U8_MOD : Z := 256.
Definition U32_MAX : Z := 4294967295.
Definition U32_MOD : Z := 4294967296.
Definition U64_MAX : Z := 18446744073709551615.
Definition U64_MOD : Z := 18446744073709551616.

(** errno values of the kernel (include/uapi/asm-generic/errno*.h) *)
Definition ENOENT : Z := 2.
Definition EIO : Z := 5.
Definition E2BIG : Z := 7.
Definition ENOMEM : Z := 12.
Definition EEXIST : Z := 17.
Definition EINVAL : Z := 22.
Definition ERANGE : Z := 34.
Definition ENODATA : Z := 61.
Definition EOPNOTSUPP : Z := 95.

(** flags of setxattr(2) (include/uapi/linux/xattr.h) *)
Definition XATTR_CREATE : Z := 1.
Definition XATTR_REPLACE : Z := 2.

(** the largest value size the VFS passes down (include/uapi/linux/limits.h) *)
Definition XATTR_SIZE_MAX : Z := 65536.

(** Modelled from the spec: MAX_NAME_LEN and MAX_VAL_LEN of format.h, which
    is not part of the sources at hand.  The header of part 0 holds
    [name_len] in 8 bits and [val_len] in 16 bits; the limits are the
    largest lengths these fields can hold. *)
Definition SCOUTFS_XATTR_MAX_NAME_LEN : Z := 255.
Definition SCOUTFS_XATTR_MAX_VAL_LEN : Z := 65535.

(** Modelled from the spec: [struct scoutfs_xattr] of format.h, which is not
    part of the sources at hand.  The item payload starts with the packed
    header [{name_len:8, val_len:16}], so its size is three bytes and the
    name starts at offset three. *)
Definition sizeof_scoutfs_xattr : Z := 3.

(** ** Keys *)

Record scoutfs_key : Type := mk_key {
  sk_zone : Z;
  skx_ino : Z;
  sk_type : Z;
  skx_name_hash : Z;
  skx_id : Z;
  skx_part : Z
}.

#[global] Instance scoutfs_key_eq_dec : EqDecision scoutfs_key.
Proof. solve_decision. Defined.

Definition key_to_tuple (k : scoutfs_key) : Z * Z * Z * Z * Z * Z :=
  (sk_zone k, skx_ino k, sk_type k, skx_name_hash k, skx_id k, skx_part k).

Definition key_of_tuple (t : Z * Z * Z * Z * Z * Z) : scoutfs_key :=
  let '(z, i, t, h, d, p) := t in mk_key z i t h d p.

#[global] Instance scoutfs_key_countable : Countable scoutfs_key.
Proof.
  apply (inj_countable' key_to_tuple key_of_tuple).
  by intros [].
Defined.

Definition key_fields (k : scoutfs_key) : list Z :=
  [sk_zone k; skx_ino k; sk_type k; skx_name_hash k; skx_id k; skx_part k].

Fixpoint lex_ltb (a b : list Z) : bool :=
  match a, b with
  | x :: a', y :: b' => (x <? y) || ((x =? y) && lex_ltb a' b')
  | _, _ => false
  end.

(** Modelled from the spec: the key comparison of key.h, which is not part of
    the sources at hand.  Keys are ordering tuples
    [(zone, file_id, type, name_hash, instance_id, part_index)] compared
    lexicographically in that field order. *)
Definition key_ltb (a b : scoutfs_key) : bool :=
  lex_ltb (key_fields a) (key_fields b).

Definition key_leb (a b : scoutfs_key) : bool := negb (key_ltb b a).

Definition set_part (k : scoutfs_key) (p : Z) : scoutfs_key :=
  mk_key (sk_zone k) (skx_ino k) (sk_type k) (skx_name_hash k) (skx_id k) p.

Definition set_id (k : scoutfs_key) (id : Z) : scoutfs_key :=
  mk_key (sk_zone k) (skx_ino k) (sk_type k) (skx_name_hash k) id (skx_part k).

(** ** The file system state and the collaborators' environment *)

Inductive lock_mode : Type := DLM_LOCK_PR | DLM_LOCK_EX.

Inductive event : Type :=
  | EvKmalloc (bytes : Z)
  | EvLockInode (mode : lock_mode)
  | EvUnlock (mode : lock_mode)
  | EvDownRead
  | EvUpRead
  | EvDownWrite
  | EvUpWrite
  | EvItemNext (key : scoutfs_key)
  | EvItemCreate (key : scoutfs_key)
  | EvItemDelete (key : scoutfs_key)
  | EvItemDeleteSave (key : scoutfs_key)
  | EvItemDeleteDirty (key : scoutfs_key)
  | EvItemRestore
  | EvItemFreeBatch
  | EvIndexStart
  | EvIndexPrepare
  | EvIndexTryLockHold
  | EvDirtyInode
  | EvUpdateInode
  | EvHoldTrans (items : Z)
  | EvReleaseTrans
  | EvIndexUnlock.

(** [items] is the item store restricted to what xattr.c can see of it,
    [next_xattr_id] is [si->next_xattr_id] of the inode operated on, and
    [trace] logs every collaborator call, most recent first. *)
Record fs : Type := mk_fs {
  items : gmap scoutfs_key (list byte);
  next_xattr_id : Z;
  trace : list event
}.

(** What the collaborators decide on their own: [fault i] makes the [i]-th
    collaborator call fail with the given errno instead of doing its work,
    [busy_rounds] is how often the index lock answers "busy" before it
    gives a definite answer, [junk] is the content of fresh kmalloc memory. *)
Record env : Type := mk_env {
  fault : nat → option positive;
  busy_rounds : nat;
  junk : nat → byte
}.

Definition fault_free (E : env) : Prop := ∀ i, fault E i = None.

(** The item store of the environment never answers -ENOENT on its own
    account: "not found" is only said of a key range with no item. *)
Definition honest_not_found (E : env) : Prop :=
  ∀ i e, fault E i = Some e → Z.neg e ≠ - ENOENT.

Definition nr_items (st : fs) : nat := size (items st).

Definition log (ev : event) (st : fs) : fs :=
  mk_fs (items st) (next_xattr_id st) (ev :: trace st).

Definition with_items (m : gmap scoutfs_key (list byte)) (st : fs) : fs :=
  mk_fs m (next_xattr_id st) (trace st).

(** A collaborator call that only succeeds or fails: the injected errno,
    negated, or 0. *)
Definition call (E : env) (ev : event) (st : fs) : Z * fs :=
  (match fault E (length (trace st)) with
   | Some e => Z.neg e
   | None => 0
   end, log ev st).

(** Least item of the store with a key in [[key, last]]. *)
Definition next_in_range (key last : scoutfs_key)
    (m : gmap scoutfs_key (list byte)) : option (scoutfs_key * list byte) :=
  foldr (λ kv acc,
           if key_leb key kv.1 && key_leb kv.1 last then
             match acc with
             | Some kv' => if key_ltb kv.1 kv'.1 then Some kv else acc
             | None => Some kv
             end
           else acc) None (map_to_list m).

(** Modelled from the spec: [scoutfs_item_next] of item.c, which is not part
    of the sources at hand: [next(start_key, end_key, out_buffer) ->
    bytes_copied | NotFound], a forward range scan.  The found key is
    written back through the key pointer; with no buffer nothing is copied.
    Returns the code, the key, the bytes copied and the state. *)
Definition scoutfs_item_next (E : env) (key last : scoutfs_key)
    (val_len : option Z) (st : fs) : Z * scoutfs_key * list byte * fs :=
  let st' := log (EvItemNext key) st in
  match fault E (length (trace st)) with
  | Some e => (Z.neg e, key, [], st')
  | None =>
      match next_in_range key last (items st) with
      | None => (- ENOENT, key, [], st')
      | Some (k, v) =>
          let data := match val_len with
                      | Some n => take (Z.to_nat n) v
                      | None => []
                      end in
          (Z.of_nat (length data), k, data, st')
      end
  end.

(** Modelled from the spec: [scoutfs_item_create] of item.c:
    [create(key, bytes) -> Ok | AlreadyExists | Error]. *)
Definition scoutfs_item_create (E : env) (key : scoutfs_key)
    (val : list byte) (st : fs) : Z * fs :=
  let st' := log (EvItemCreate key) st in
  match fault E (length (trace st)) with
  | Some e => (Z.neg e, st')
  | None =>
      match items st !! key with
      | Some _ => (- EEXIST, st')
      | None => (0, with_items (<[key := val]> (items st)) st')
      end
  end.

(** Modelled from the spec: [scoutfs_item_delete] of item.c:
    [delete(key) -> Ok | NotFound]. *)
Definition scoutfs_item_delete (E : env) (key : scoutfs_key) (st : fs)
    : Z * fs :=
  let st' := log (EvItemDelete key) st in
  match fault E (length (trace st)) with
  | Some e => (Z.neg e, st')
  | None =>
      match items st !! key with
      | Some _ => (0, with_items (delete key (items st)) st')
      | None => (- ENOENT, st')
      end
  end.

(** Modelled from the spec: [scoutfs_item_delete_dirty] of item.c, the
    compensating deletion of a part that was just written.  It returns
    nothing. *)
Definition scoutfs_item_delete_dirty (key : scoutfs_key) (st : fs) : fs :=
  with_items (delete key (items st)) (log (EvItemDeleteDirty key) st).

(** Modelled from the spec: [scoutfs_item_delete_save] of item.c:
    [delete_staged(key, rollback_list) -> Ok], which removes the item but
    retains it on the list for possible restoration.  xattr.c checks its
    return value; as for [delete], a key that is not there is reported as
    NotFound and nothing is staged. *)
Definition scoutfs_item_delete_save (E : env) (key : scoutfs_key)
    (saved : list (scoutfs_key * list byte)) (st : fs)
    : Z * list (scoutfs_key * list byte) * fs :=
  let st' := log (EvItemDeleteSave key) st in
  match fault E (length (trace st)) with
  | Some e => (Z.neg e, saved, st')
  | None =>
      match items st !! key with
      | Some v => (0, (key, v) :: saved,
                   with_items (delete key (items st)) st')
      | None => (- ENOENT, saved, st')
      end
  end.

Definition restore_items (saved : list (scoutfs_key * list byte))
    (m : gmap scoutfs_key (list byte)) : gmap scoutfs_key (list byte) :=
  foldr (λ kv m, <[kv.1 := kv.2]> m) m saved.

(** Modelled from the spec: [scoutfs_item_restore] of item.c:
    [restore(rollback_list) -> Ok] reinstates the staged-deleted items. *)
Definition scoutfs_item_restore (saved : list (scoutfs_key * list byte))
    (st : fs) : fs :=
  with_items (restore_items saved (items st)) (log EvItemRestore st).

(** Modelled from the spec: [scoutfs_item_free_batch] of item.c:
    [finalize(rollback_list) -> Ok] discards the staged-deleted items. *)
Definition scoutfs_item_free_batch (saved : list (scoutfs_key * list byte))
    (st : fs) : fs :=
  log EvItemFreeBatch st.

(** kmalloc: fresh memory of the given size holding whatever was there. *)
Definition kmalloc (E : env) (bytes : Z) (st : fs) : option (list byte) * fs :=
  (match fault E (length (trace st)) with
   | Some _ => None
   | None => Some (map (junk E) (seq 0 (Z.to_nat bytes)))
   end, log (EvKmalloc bytes) st).

(** Copying [data] into a buffer at byte offset [off] (kvec_init on
    [xat + total], then the copy done by the item store). *)
Definition kvec_copy (buf : list byte) (off : Z) (data : list byte)
    : list byte :=
  take (Z.to_nat off) buf ++ data
    ++ drop (Z.to_nat off + length data) buf.

(** Fields of a [struct scoutfs_xattr] lying at the start of a buffer. *)
Definition xat_name_len (xat : list byte) : Z :=
  Z_of_byte (nth 0 xat x00).

Definition xat_val_len (xat : list byte) : Z :=
  Z_of_byte (nth 1 xat x00) + 256 * Z_of_byte (nth 2 xat x00).

Definition xat_name (xat : list byte) : list byte :=
  drop (Z.to_nat sizeof_scoutfs_xattr) xat.

(** Names of include/uapi/linux/xattr.h, as C strings without the NUL. *)
Definition XATTR_USER_PREFIX : list byte :=
  [x75; x73; x65; x72; x2e].
Definition XATTR_TRUSTED_PREFIX : list byte :=
  [x74; x72; x75; x73; x74; x65; x64; x2e].
Definition XATTR_SYSTEM_PREFIX : list byte :=
  [x73; x79; x73; x74; x65; x6d; x2e].
Definition XATTR_SECURITY_PREFIX : list byte :=
  [x73; x65; x63; x75; x72; x69; x74; x79; x2e].

(** [strncmp(name, prefix, strlen(prefix)) != 0] on NUL-free strings. *)
Definition strncmp_ne (name pfx : list byte) : bool :=
  negb (bool_decide (take (length pfx) name = pfx)).

Definition unknown_prefix (name : list byte) : bool :=
  strncmp_ne name XATTR_USER_PREFIX &&
  strncmp_ne name XATTR_TRUSTED_PREFIX &&
  strncmp_ne name XATTR_SYSTEM_PREFIX &&
  strncmp_ne name XATTR_SECURITY_PREFIX.

(** only compare names if the lens match *)
Definition xattr_names_equal (a_name : list byte) (a_len : Z)
    (b_name : list byte) (b_len : Z) : bool :=
  (a_len =? b_len) &&
  bool_decide (take (Z.to_nat a_len) a_name = take (Z.to_nat a_len) b_name).

Definition xattr_full_bytes (xat : list byte) : Z :=
  sizeof_scoutfs_xattr + xat_name_len xat + xat_val_len xat.

(** ** The functions of xattr.c *)

Section Xattr.

(** Constants and helpers of headers that are not part of the sources at
    hand: the zone and type tags of xattr keys, the largest item payload,
    and the kernel's crc32c(seed, data). *)
Variable SCOUTFS_FS_ZONE : Z.
Variable SCOUTFS_XATTR_TYPE : Z.
Variable SCOUTFS_XATTR_MAX_PART_SIZE : Z.
Variable crc32c : Z → list byte → Z.

Definition xattr_name_hash (name : list byte) (name_len : Z) : Z :=
  crc32c U32_MAX (take (Z.to_nat name_len) name).

(** Modelled from the spec: the macro SCOUTFS_XATTR_NR_PARTS of format.h,
    which is not part of the sources at hand.  [part_count(name_len,
    val_len)] is pure arithmetic: the number of chunks of at most
    MAX_PART_SIZE bytes that header, name and value split into. *)
Definition SCOUTFS_XATTR_NR_PARTS (name_len val_len : Z) : Z :=
  (sizeof_scoutfs_xattr + name_len + val_len
   + SCOUTFS_XATTR_MAX_PART_SIZE - 1) / SCOUTFS_XATTR_MAX_PART_SIZE.

Definition xattr_nr_parts (xat : list byte) : Z :=
  SCOUTFS_XATTR_NR_PARTS (xat_name_len xat) (xat_val_len xat).

(** [name_hash] is a u32 parameter: a wider value is truncated. *)
Definition init_xattr_key (ino name_hash id : Z) : scoutfs_key :=
  mk_key SCOUTFS_FS_ZONE ino SCOUTFS_XATTR_TYPE (name_hash mod U32_MOD) id 0.

(** The loop of get_next_xattr; [part] and [last_part] are u8, [total] and
    the code are int, the id of the key is a le64. *)
Fixpoint get_next_loop (fuel : nat) (E : env) (last : scoutfs_key)
    (bytes : Z) (name : list byte) (name_len name_hash : Z)
    (key : scoutfs_key) (part last_part total : Z) (xat : list byte)
    (st : fs) : option (Z * scoutfs_key * list byte * fs) :=
  match fuel with
  | O => None
  | S fuel' =>
      let key := set_part key part in
      let '(ret, key, data, st) :=
        scoutfs_item_next E key last (Some (bytes - total)) st in
      let xat := kvec_copy xat total data in
      if ret <? 0 then
        Some (if (ret =? - ENOENT) && (0 <? part) then - EIO else ret,
              key, xat, st)
      else if negb (skx_part key =? part) then Some (- EIO, key, xat, st)
      else if (part =? 0) &&
              ((ret <? sizeof_scoutfs_xattr) ||
               ((xat_name_len xat <=? name_len) &&
                (ret <? sizeof_scoutfs_xattr + xat_name_len xat)) ||
               (SCOUTFS_XATTR_MAX_NAME_LEN <? xat_name_len xat) ||
               (SCOUTFS_XATTR_MAX_VAL_LEN <? xat_val_len xat))
      then Some (- EIO, key, xat, st)
      else
        let finish (last_part : Z) :=
          let total := total + ret in
          if (total =? bytes) || (part =? last_part) then
            Some (total, key, xat, st)
          else
            get_next_loop fuel' E last bytes name name_len name_hash key
              ((part + 1) mod U8_MOD) last_part total xat st in
        if (part =? 0) && negb (name_len =? 0) then
          if negb (skx_name_hash key =? name_hash) then
            Some (- ENOENT, key, xat, st)
          else if negb (xattr_names_equal name name_len
                          (xat_name xat) (xat_name_len xat)) then
            get_next_loop fuel' E last bytes name name_len name_hash
              (set_id key ((skx_id key + 1) mod U64_MOD))
              0 last_part total xat st
          else finish ((xattr_nr_parts xat - 1) mod U8_MOD)
        else finish last_part
  end.

(** Iterations of the scan are bounded by the items it can step over plus
    the parts a u8 can count. *)
Definition scan_fuel (st : fs) : nat := (nr_items st + 257)%nat.

Definition get_next_xattr (E : env) (ino : Z) (xat : list byte) (bytes : Z)
    (name : list byte) (name_len name_hash id : Z) (st : fs)
    : option (Z * scoutfs_key * list byte * fs) :=
  if (0 <? name_len) && (bytes <? sizeof_scoutfs_xattr + name_len) then
    Some (- EINVAL, init_xattr_key ino name_hash id, xat, st)
  else
    let name_hash :=
      if negb (name_len =? 0) then xattr_name_hash name name_len
      else name_hash in
    get_next_loop (scan_fuel st) E (init_xattr_key ino U32_MAX U64_MAX)
      bytes name name_len name_hash (init_xattr_key ino name_hash id)
      0 0 0 xat st.

(** [while (key.skx_part-- > 0) scoutfs_item_delete_dirty(sb, &key)],
    entered with [skx_part = n]. *)
Fixpoint delete_dirty_parts (n : nat) (key : scoutfs_key) (st : fs) : fs :=
  match n with
  | O => st
  | S n' =>
      delete_dirty_parts n' key
        (scoutfs_item_delete_dirty (set_part key (Z.of_nat n')) st)
  end.

Fixpoint create_loop (fuel : nat) (E : env) (key : scoutfs_key)
    (xat : list byte) (bytes total : Z) (st : fs) : option (Z * fs) :=
  match fuel with
  | O => None
  | S fuel' =>
      if total <? bytes then
        let part_bytes := Z.min (bytes - total) SCOUTFS_XATTR_MAX_PART_SIZE in
        let val := take (Z.to_nat part_bytes) (drop (Z.to_nat total) xat) in
        let '(ret, st) := scoutfs_item_create E key val st in
        if negb (ret =? 0) then
          Some (ret, delete_dirty_parts (Z.to_nat (skx_part key)) key st)
        else
          create_loop fuel' E
            (set_part key ((skx_part key + 1) mod U8_MOD))
            xat bytes (total + part_bytes) st
      else Some (0, st)
  end.

Definition create_xattr_items (E : env) (ino id : Z) (xat : list byte)
    (bytes : Z) (st : fs) : option (Z * fs) :=
  create_loop (S (Z.to_nat bytes)) E
    (init_xattr_key ino (xattr_name_hash (xat_name xat) (xat_name_len xat)) id)
    xat bytes 0 st.

(** The do-while of delete_xattr_items. *)
Fixpoint delete_loop (fuel : nat) (E : env) (key : scoutfs_key)
    (nr_parts : Z) (saved : list (scoutfs_key * list byte)) (st : fs)
    : option (Z * list (scoutfs_key * list byte) * fs) :=
  match fuel with
  | O => None
  | S fuel' =>
      let '(ret, saved, st) := scoutfs_item_delete_save E key saved st in
      let key := set_part key ((skx_part key + 1) mod U8_MOD) in
      if (ret =? 0) && (skx_part key <? nr_parts) then
        delete_loop fuel' E key nr_parts saved st
      else Some (ret, saved, st)
  end.

Definition delete_xattr_items (E : env) (ino name_hash id nr_parts : Z)
    (saved : list (scoutfs_key * list byte)) (st : fs)
    : option (Z * list (scoutfs_key * list byte) * fs) :=
  delete_loop (S (Z.to_nat nr_parts)) E (init_xattr_key ino name_hash id)
    nr_parts saved st.

Definition scoutfs_getxattr (E : env) (ino : Z) (name : list byte)
    (size : Z) (st : fs) : option (Z * list byte * fs) :=
  if unknown_prefix name then Some (- EOPNOTSUPP, [], st)
  else
    let name_len := Z.of_nat (length name) in
    if SCOUTFS_XATTR_MAX_NAME_LEN <? name_len then Some (- ENODATA, [], st)
    else
      let bytes := (sizeof_scoutfs_xattr + name_len + size) mod U32_MOD in
      let '(xat, st) := kmalloc E bytes st in
      match xat with
      | None => Some (- ENOMEM, [], st)
      | Some xat =>
          let '(ret, st) := call E (EvLockInode DLM_LOCK_PR) st in
          if negb (ret =? 0) then Some (ret, [], st)
          else
            let st := log EvDownRead st in
            '(ret, key, xat, st) ←
              get_next_xattr E ino xat bytes name name_len 0 0 st;
            let st := log (EvUnlock DLM_LOCK_PR) (log EvUpRead st) in
            if ret <? 0 then
              Some (if ret =? - ENOENT then - ENODATA else ret, [], st)
            else if size =? 0 then Some (xat_val_len xat, [], st)
            else if size <? xat_val_len xat then Some (- ERANGE, [], st)
            else if ret <? xattr_full_bytes xat then Some (- EIO, [], st)
            else
              Some (xat_val_len xat,
                    take (Z.to_nat (xat_val_len xat))
                      (drop (Z.to_nat (xat_name_len xat)) (xat_name xat)),
                    st)
      end.

(** One round of
    [scoutfs_inode_index_start ?: scoutfs_inode_index_prepare ?:
     scoutfs_inode_index_try_lock_hold]. *)
Definition index_round (E : env) (busy : bool) (st : fs) : Z * fs :=
  let '(ret, st) := call E EvIndexStart st in
  if negb (ret =? 0) then (ret, st)
  else
    let '(ret, st) := call E EvIndexPrepare st in
    if negb (ret =? 0) then (ret, st)
    else
      let '(ret, st) := call E EvIndexTryLockHold st in
      (if (ret =? 0) && busy then 1 else ret, st).

(** [retry: ... if (ret > 0) goto retry;] *)
Fixpoint index_retry (E : env) (busy : nat) (st : fs) : Z * fs :=
  match busy with
  | O => index_round E false st
  | S busy' =>
      let '(ret, st) := index_round E true st in
      if 0 <? ret then index_retry E busy' st else (ret, st)
  end.

(** [xat->name_len = name_len; xat->val_len = cpu_to_le16(size);
     memcpy(xat->name, name, name_len);
     memcpy(&xat->name[xat->name_len], value, size);] *)
Definition prepare_xattr (xat name : list byte) (name_len : Z)
    (value : list byte) (size : Z) : list byte :=
  let xat := kvec_copy xat 0
               [byte_of_Z name_len; byte_of_Z size; byte_of_Z (size / 256)] in
  let xat := kvec_copy xat sizeof_scoutfs_xattr
               (take (Z.to_nat name_len) name) in
  kvec_copy xat (sizeof_scoutfs_xattr + xat_name_len xat)
    (take (Z.to_nat size) value).

(** scoutfs_xattr_set between [retry:] and [release:], once the index
    locks and the transaction are held. *)
Definition xattr_set_trans (E : env) (ino : Z) (key : scoutfs_key)
    (found_parts : Z) (value : option (list byte)) (id : Z)
    (xat : list byte) (bytes : Z) (st : fs) : option (Z * fs) :=
  let '(ret, st) := call E EvDirtyInode st in
  if ret <? 0 then Some (ret, st)
  else
    '(ret, saved, st) ←
      (if negb (found_parts =? 0) then
         delete_xattr_items E ino (skx_name_hash key) (skx_id key)
           found_parts [] st
       else Some (0, [], st));
    '(ret, st) ←
      (if bool_decide (is_Some value) && (ret =? 0) then
         create_xattr_items E ino id xat bytes st
       else Some (ret, st));
    if ret <? 0 then Some (ret, scoutfs_item_restore saved st)
    else Some (0, log EvUpdateInode (scoutfs_item_free_batch saved st)).

(** scoutfs_xattr_set between [down_write] and [unlock:]. *)
Definition xattr_set_locked (E : env) (ino : Z) (name : list byte)
    (value : option (list byte)) (size flags : Z) (xat : list byte)
    (bytes : Z) (st : fs) : option (Z * fs) :=
  let name_len := Z.of_nat (length name) in
  '(ret, key, xat, st) ←
    get_next_xattr E ino xat (sizeof_scoutfs_xattr + name_len)
      name name_len 0 0 st;
  if (ret <? 0) && negb (ret =? - ENOENT) then Some (ret, st)
  else if (ret =? - ENOENT) && negb (Z.land flags XATTR_REPLACE =? 0) then
    Some (- ENODATA, st)
  else if (0 <=? ret) && negb (Z.land flags XATTR_CREATE =? 0) then
    Some (- EEXIST, st)
  else if (ret =? - ENOENT) && negb (bool_decide (is_Some value)) then
    Some (0, st)
  else
    let found_parts :=
      if 0 <=? ret then xattr_nr_parts xat mod U8_MOD else 0 in
    let '(id, xat, st) :=
      match value with
      | Some v =>
          (next_xattr_id st, prepare_xattr xat name name_len v size,
           mk_fs (items st) ((next_xattr_id st + 1) mod U64_MOD) (trace st))
      | None => (0, xat, st)
      end in
    let '(ret, st) := index_retry E (busy_rounds E) st in
    if negb (ret =? 0) then Some (ret, st)
    else
      '(ret, st) ←
        xattr_set_trans E ino key found_parts value id xat bytes st;
      Some (ret, log EvIndexUnlock (log EvReleaseTrans st)).

Definition scoutfs_xattr_set (E : env) (ino : Z) (name : list byte)
    (value : option (list byte)) (size flags : Z) (st : fs)
    : option (Z * fs) :=
  let name_len := Z.of_nat (length name) in
  if SCOUTFS_XATTR_MAX_NAME_LEN <? name_len then Some (- ERANGE, st)
  else if bool_decide (is_Some value) && (SCOUTFS_XATTR_MAX_VAL_LEN <? size)
  then Some (- E2BIG, st)
  else if (negb (Z.land flags XATTR_CREATE =? 0) &&
           negb (Z.land flags XATTR_REPLACE =? 0)) ||
          negb (Z.land flags (Z.lnot (Z.lor XATTR_CREATE XATTR_REPLACE)) =? 0)
  then Some (- EINVAL, st)
  else if unknown_prefix name then Some (- EOPNOTSUPP, st)
  else
    let bytes := (sizeof_scoutfs_xattr + name_len + size) mod U32_MOD in
    let '(xat, st) := kmalloc E bytes st in
    match xat with
    | None => Some (- ENOMEM, st)
    | Some xat =>
        let '(ret, st) := call E (EvLockInode DLM_LOCK_EX) st in
        if negb (ret =? 0) then Some (ret, st)
        else
          let st := log EvDownWrite st in
          '(ret, st) ←
            xattr_set_locked E ino name value size flags xat bytes st;
          Some (ret, log (EvUnlock DLM_LOCK_EX) (log EvUpWrite st))
    end.

Definition scoutfs_setxattr (E : env) (ino : Z) (name : list byte)
    (value : option (list byte)) (size flags : Z) (st : fs)
    : option (Z * fs) :=
  let value := if size =? 0 then Some [] else value in
  scoutfs_xattr_set E ino name value size flags st.

Definition scoutfs_removexattr (E : env) (ino : Z) (name : list byte)
    (st : fs) : option (Z * fs) :=
  scoutfs_xattr_set E ino name None 0 XATTR_REPLACE st.

(** The [for (;;)] of scoutfs_listxattr; [out] is what has been written
    into the caller's buffer so far. *)
Fixpoint listxattr_loop (fuel : nat) (E : env) (ino : Z) (xat : list byte)
    (bytes size name_hash id total : Z) (out : list byte) (st : fs)
    : option (Z * list byte * fs) :=
  match fuel with
  | O => None
  | S fuel' =>
      '(ret, key, xat, st) ←
        get_next_xattr E ino xat bytes [] 0 name_hash id st;
      if ret <? 0 then
        Some (if ret =? - ENOENT then total else ret, out, st)
      else
        let total := total + (xat_name_len xat + 1) in
        if negb (size =? 0) && (size <? total) then Some (- ERANGE, out, st)
        else
          let out :=
            if negb (size =? 0) then
              out ++ take (Z.to_nat (xat_name_len xat)) (xat_name xat)
                  ++ [x00]
            else out in
          listxattr_loop fuel' E ino xat bytes size
            (skx_name_hash key mod U32_MOD)
            ((skx_id key + 1) mod U64_MOD) total out st
  end.

(** The loop of the source has no bound of its own.  An iteration that
    does not end it has read one more item than those before, or, when the
    cursor [id + 1] has wrapped to 0 behind an item of id U64_MAX, reads
    items again; it adds at least 1 to [total], and with a [size] other
    than 0 the loop ends with -ERANGE once [total] exceeds [size].  So the
    iterations of a run that ends are bounded by the number of items plus
    [size]; a size query over a store where the cursor wraps lists without
    end, and has no result here. *)
Definition scoutfs_listxattr (E : env) (ino size : Z) (st : fs)
    : option (Z * list byte * fs) :=
  let bytes := sizeof_scoutfs_xattr + SCOUTFS_XATTR_MAX_NAME_LEN in
  let '(xat, st) := kmalloc E bytes st in
  match xat with
  | None => Some (- ENOMEM, [], st)
  | Some xat =>
      let '(ret, st) := call E (EvLockInode DLM_LOCK_PR) st in
      if negb (ret =? 0) then Some (ret, [], st)
      else
        let st := log EvDownRead st in
        '(ret, out, st) ←
          listxattr_loop (S (nr_items st + Z.to_nat size)) E ino xat bytes
            size 0 0 0 [] st;
        Some (ret, out, log (EvUnlock DLM_LOCK_PR) (log EvUpRead st))
  end.

(** The [for (;;)] of scoutfs_xattr_drop; [nitems] is the unsigned counter
    [items] of the source. *)
Fixpoint xattr_drop_loop (fuel : nat) (E : env) (key last : scoutfs_key)
    (nitems : Z) (holding : bool) (st : fs) : option (Z * bool * fs) :=
  match fuel with
  | O => None
  | S fuel' =>
      let '(ret, key, _, st) := scoutfs_item_next E key last None st in
      if ret <? 0 then
        Some (if ret =? - ENOENT then 0 else ret, holding, st)
      else
        let '(ret, holding', st) :=
          if negb holding then
            let '(ret, st) := call E (EvHoldTrans nitems) st in
            (ret, bool_decide (ret = 0), st)
          else (0, holding, st) in
        if negb (ret =? 0) then Some (ret, holding, st)
        else
          let '(ret, st) := scoutfs_item_delete E key st in
          if negb (ret =? 0) then Some (ret, holding', st)
          else if (nitems - 1) mod U32_MOD =? 0 then
            xattr_drop_loop fuel' E key last 16 false (log EvReleaseTrans st)
          else
            xattr_drop_loop fuel' E key last ((nitems - 1) mod U32_MOD)
              holding' st
  end.

Definition scoutfs_xattr_drop (E : env) (ino : Z) (st : fs)
    : option (Z * fs) :=
  '(ret, holding, st) ←
    xattr_drop_loop (S (nr_items st)) E (init_xattr_key ino 0 0)
      (init_xattr_key ino U32_MAX U64_MAX) 16 false st;
  Some (ret, if holding : bool then log EvReleaseTrans st else st).

(** ** The logical view of the item store

    An xattr instance [(name, value)] with id [id] of inode [ino] is the
    sequence of chunks of its encoding, stored under the keys
    [(ino, hash name, id, 0 .. N-1)]. *)

Definition xattr_encode (name value : list byte) : list byte :=
  [byte_of_Z (Z.of_nat (length name));
   byte_of_Z (Z.of_nat (length value));
   byte_of_Z (Z.of_nat (length value) / 256)] ++ name ++ value.

Definition xattr_part (enc : list byte) (p : Z) : list byte :=
  take (Z.to_nat SCOUTFS_XATTR_MAX_PART_SIZE)
    (drop (Z.to_nat (p * SCOUTFS_XATTR_MAX_PART_SIZE)) enc).

Definition nr_parts_of (name value : list byte) : Z :=
  SCOUTFS_XATTR_NR_PARTS (Z.of_nat (length name)) (Z.of_nat (length value)).

Definition part_key (ino h id p : Z) : scoutfs_key :=
  mk_key SCOUTFS_FS_ZONE ino SCOUTFS_XATTR_TYPE h id p.

Definition name_hash_of (name : list byte) : Z := crc32c U32_MAX name.

Definition is_xattr_key (ino : Z) (k : scoutfs_key) : Prop :=
  sk_zone k = SCOUTFS_FS_ZONE ∧ skx_ino k = ino ∧
  sk_type k = SCOUTFS_XATTR_TYPE.

Definition valid_xattr (name value : list byte) : Prop :=
  Z.of_nat (length name) <= SCOUTFS_XATTR_MAX_NAME_LEN ∧
  Z.of_nat (length value) <= SCOUTFS_XATTR_MAX_VAL_LEN.

(** Part 0 of the instance is in the store. *)
Definition xattr_head (m : gmap scoutfs_key (list byte)) (ino id : Z)
    (name value : list byte) : Prop :=
  m !! part_key ino (name_hash_of name) id 0
    = Some (xattr_part (xattr_encode name value) 0).

(** All the parts of the instance are in the store. *)
Definition xattr_at (m : gmap scoutfs_key (list byte)) (ino id : Z)
    (name value : list byte) : Prop :=
  ∀ p, 0 <= p < nr_parts_of name value →
    m !! part_key ino (name_hash_of name) id p
      = Some (xattr_part (xattr_encode name value) p).

(** The invariants of the data model, for the xattr items of one inode:
    every item is a part of an instance whose part 0 is there, and whose id
    was drawn from the counter below [bound]; an exact name has at most one
    instance. *)
Record wf_heads (m : gmap scoutfs_key (list byte)) (ino bound : Z)
    : Prop := mk_wf {
  wf_part : ∀ k v, m !! k = Some v → is_xattr_key ino k →
    ∃ name value,
      valid_xattr name value ∧
      skx_name_hash k = name_hash_of name ∧
      xattr_head m ino (skx_id k) name value ∧
      0 <= skx_part k < nr_parts_of name value ∧
      0 <= skx_id k < bound;
  wf_unique : ∀ id1 id2 name v1 v2,
    valid_xattr name v1 → valid_xattr name v2 →
    xattr_head m ino id1 name v1 → xattr_head m ino id2 name v2 →
    id1 = id2
}.

(** Every instance has all its parts: indices 0..N-1 with no gaps. *)
Definition complete (m : gmap scoutfs_key (list byte)) (ino : Z) : Prop :=
  ∀ id name value,
    valid_xattr name value → xattr_head m ino id name value →
    ∃ value', valid_xattr name value' ∧ xattr_at m ino id name value'.

Definition wf_xattrs (m : gmap scoutfs_key (list byte)) (ino bound : Z)
    : Prop :=
  wf_heads m ino bound ∧ complete m ino.

Definition wf_fs (st : fs) (ino : Z) : Prop :=
  wf_xattrs (items st) ino (next_xattr_id st) ∧
  0 <= next_xattr_id st <= U64_MAX.

(** The xattr named [name] is stored with value [value]. *)
Definition stored (st : fs) (ino : Z) (name value : list byte) : Prop :=
  valid_xattr name value ∧ ∃ id, xattr_at (items st) ino id name value.

Definition absent (st : fs) (ino : Z) (name : list byte) : Prop :=
  ∀ value, ¬ stored st ino name value.

(** Reading a log of calls, oldest first: whether a transaction is held
    and how many deletions were issued under it.  [None] tells that a
    deletion was issued outside a held transaction, or more than [limit]
    of them under one, or that holds and releases do not alternate. *)
Definition batch_step (limit : nat) (ev : event) (s : option (bool * nat))
    : option (bool * nat) :=
  match s with
  | None => None
  | Some (holding, n) =>
      match ev with
      | EvHoldTrans _ => if holding then None else Some (true, 0%nat)
      | EvReleaseTrans => if holding then Some (false, 0%nat) else None
      | EvItemDelete _ =>
          if holding && (n <? limit)%nat then Some (true, S n) else None
      | _ => Some (holding, n)
      end
  end.

Definition batches (limit : nat) (evs : list event) : option (bool * nat) :=
  foldr (batch_step limit) (Some (false, 0%nat)) evs.

(** The first and the last key of the xattr items of an inode, as
    scoutfs_xattr_drop and get_next_xattr initialise them. *)
Definition first_key (ino : Z) : scoutfs_key := init_xattr_key ino 0 0.

Definition last_key (ino : Z) : scoutfs_key :=
  init_xattr_key ino U32_MAX U64_MAX.

(** The order of the keys as a proposition; [key_ltb] decides it. *)
Definition key_lt (a b : scoutfs_key) : Prop :=
  sk_zone a < sk_zone b ∨ (sk_zone a = sk_zone b ∧
  (skx_ino a < skx_ino b ∨ (skx_ino a = skx_ino b ∧
  (sk_type a < sk_type b ∨ (sk_type a = sk_type b ∧
  (skx_name_hash a < skx_name_hash b ∨ (skx_name_hash a = skx_name_hash b ∧
  (skx_id a < skx_id b ∨ (skx_id a = skx_id b ∧
   skx_part a < skx_part b))))))))).

Definition key_le (a b : scoutfs_key) : Prop := ¬ key_lt b a.

(** No xattr item of the inode is left in the range that the scans cover. *)
Definition no_xattr_items (m : gmap scoutfs_key (list byte)) (ino : Z)
    : Prop :=
  ∀ k v, m !! k = Some v →
         key_le (first_key ino) k →
         key_le k (init_xattr_key ino U32_MAX U64_MAX) → False.

(** The number of items at or after a key: the measure of the scans. *)
Definition keys_from (key : scoutfs_key) (m : gmap scoutfs_key (list byte))
    : nat :=
  length (filter (λ kv : scoutfs_key * list byte, key_leb key kv.1)
            (map_to_list m)).

(** What a read of part 0 into a buffer of [bytes] bytes copies. *)
Definition head_data (bytes : Z) (name value : list byte) : list byte :=
  take (Z.to_nat bytes) (xattr_part (xattr_encode name value) 0).

(** A scan leaves the items and the id counter alone, and only adds reads
    of the item store to the log. *)
Definition is_item_next (e : event) : Prop := ∃ k, e = EvItemNext k.

Definition reads_only (st st' : fs) : Prop :=
  items st' = items st ∧ next_xattr_id st' = next_xattr_id st ∧
  ∃ evs, trace st' = evs ++ trace st ∧ Forall is_item_next evs.

(** The return value and the caller's buffer after get of a stored value
    [V] with a buffer of [size] bytes. *)
Definition getxattr_result (size : Z) (V : list byte) : Z * list byte :=
  if decide (size = 0) then (Z.of_nat (length V), [])
  else if decide (size < Z.of_nat (length V)) then (- ERANGE, [])
  else (Z.of_nat (length V), V).

(** The keys of the parts [lo .. hi-1] of one instance. *)
Definition in_parts (ino h id lo hi : Z) (k : scoutfs_key) : Prop :=
  k = part_key ino h id (skx_part k) ∧ lo <= skx_part k < hi.

#[local] Instance in_parts_dec ino h id lo hi k :
  Decision (in_parts ino h id lo hi k).
Proof. unfold in_parts. apply _. Defined.

(** The item map after [delete_dirty_parts]. *)
Fixpoint del_parts (n : nat) (key : scoutfs_key)
    (m : gmap scoutfs_key (list byte)) : gmap scoutfs_key (list byte) :=
  match n with
  | O => m
  | S n' => del_parts n' key (delete (set_part key (Z.of_nat n')) m)
  end.

(** How an update changes the store: the parts of the new instance appear,
    those of the old instance, if there was one, are gone. *)
Definition replaced (m m' : gmap scoutfs_key (list byte)) (ino : Z)
    (old : option (Z * Z * Z)) (h id : Z) (enc : list byte) (N : Z) : Prop :=
  ∀ k, m' !! k =
    if decide (in_parts ino h id 0 N k)
    then Some (xattr_part enc (skx_part k))
    else match old with
         | Some (h0, id0, np0) =>
             if decide (in_parts ino h0 id0 0 np0 k) then None else m !! k
         | None => m !! k
         end.

(** The flags pass the check of scoutfs_xattr_set. *)
Definition flags_ok (flags : Z) : Prop :=
  (negb (Z.land flags XATTR_CREATE =? 0) &&
   negb (Z.land flags XATTR_REPLACE =? 0)) ||
  negb (Z.land flags (Z.lnot (Z.lor XATTR_CREATE XATTR_REPLACE)) =? 0)
  = false.

(** The calls logged by scoutfs_xattr_set before and after its locked
    part, when none of them fails. *)
Definition set_entry (bytes : Z) (st : fs) : fs :=
  log EvDownWrite (log (EvLockInode DLM_LOCK_EX) (log (EvKmalloc bytes) st)).

Definition set_exit (st : fs) : fs :=
  log (EvUnlock DLM_LOCK_EX) (log EvUpWrite st).

(** The walk of listxattr over the store, from the cursor [(h, c)]: the
    least item at or after [(h, c, part 0)] is part 0 of the next entry, and
    the walk goes on from [(its hash, its id + 1)].  An entry is the id and
    the name of an instance. *)
Inductive listed (m : gmap scoutfs_key (list byte)) (ino : Z)
    : Z → Z → list (Z * list byte) → Prop :=
| listed_nil h c :
    next_in_range (part_key ino h c 0) (last_key ino) m = None →
    listed m ino h c []
| listed_cons h c id n V ents :
    valid_xattr n V →
    next_in_range (part_key ino h c 0) (last_key ino) m
      = Some (part_key ino (name_hash_of n) id 0,
              xattr_part (xattr_encode n V) 0) →
    listed m ino (name_hash_of n) (id + 1) ents →
    listed m ino h c ((id, n) :: ents).

(** The keys that the walk asks the item store for. *)
Fixpoint list_cursors (ino h c : Z) (ents : list (Z * list byte))
    : list scoutfs_key :=
  part_key ino h c 0 ::
  match ents with
  | [] => []
  | (id, n) :: ents => list_cursors ino (name_hash_of n) (id + 1) ents
  end.

(** What listxattr reports for a list of names: each name followed by a
    NUL, and the number of bytes that takes. *)
Definition listing (names : list (list byte)) : list byte :=
  foldr (λ n acc, n ++ x00 :: acc) [] names.

Definition listing_size (names : list (list byte)) : Z :=
  foldr (λ n acc, Z.of_nat (length n) + 1 + acc) 0 names.

(** ** Facts about bytes and keys *)

Lemma Z_of_byte_range b : 0 <= Z_of_byte b < 256.
Proof.
  unfold Z_of_byte. pose proof (Byte.to_N_bounded b). lia.
Qed.

Lemma Z_of_byte_of_Z z : Z_of_byte (byte_of_Z z) = z mod 256.
Proof.
  unfold Z_of_byte, byte_of_Z.
  assert (Hr : 0 <= z mod 256 < 256) by (apply Z.mod_pos_bound; lia).
  destruct (Byte.of_N (Z.to_N (z mod 256))) as [b|] eqn:Hb.
  - apply Byte.to_of_N in Hb. rewrite Hb. lia.
  - apply Byte.of_N_None_iff in Hb. lia.
Qed.

Lemma key_ltb_lt a b : key_ltb a b = true ↔ key_lt a b.
Proof.
  unfold key_ltb, key_lt, key_fields; simpl.
  repeat first [rewrite orb_true_iff | rewrite andb_true_iff
               | rewrite Z.ltb_lt | rewrite Z.eqb_eq].
  assert (Hf : false = true ↔ False) by (split; [discriminate | tauto]).
  rewrite Hf. lia.
Qed.

Lemma key_leb_le a b : key_leb a b = true ↔ key_le a b.
Proof.
  unfold key_leb, key_le. rewrite negb_true_iff, <- key_ltb_lt.
  destruct (key_ltb b a); intuition congruence.
Qed.

Lemma key_ltb_nlt a b : key_ltb a b = false ↔ ¬ key_lt a b.
Proof.
  rewrite <- key_ltb_lt. destruct (key_ltb a b); intuition congruence.
Qed.

Lemma lex_ltb_trans a b c :
  lex_ltb a b = true → lex_ltb b c = true → lex_ltb a c = true.
Proof.
  revert b c. induction a as [|x a IH]; intros [|y b] [|z c]; simpl; try done.
  rewrite !orb_true_iff, !andb_true_iff, !Z.ltb_lt, !Z.eqb_eq.
  intros [H1|[H1 H1']] [H2|[H2 H2']]; try (left; lia).
  right. split; [lia|]. eapply IH; eauto.
Qed.

Lemma lex_ltb_irrefl a : lex_ltb a a = false.
Proof.
  induction a as [|x a IH]; simpl; [done|].
  rewrite IH, andb_false_r, orb_false_r. apply Z.ltb_irrefl.
Qed.

Lemma lex_ltb_total a b :
  length a = length b → lex_ltb a b = false → lex_ltb b a = false → a = b.
Proof.
  revert b. induction a as [|x a IH]; intros [|y b]; simpl; try done.
  intros Hlen. rewrite !orb_false_iff, !andb_false_iff, !Z.ltb_ge, !Z.eqb_neq.
  intros [H1 H1'] [H2 H2']. assert (x = y) as -> by lia.
  f_equal. apply IH; [lia| |].
  - destruct H1' as [?|?]; [lia|done].
  - destruct H2' as [?|?]; [lia|done].
Qed.

Lemma key_le_antisym a b : key_le a b → key_le b a → a = b.
Proof.
  unfold key_le. rewrite <- !key_ltb_nlt. unfold key_ltb. intros H1 H2.
  assert (Hf : key_fields a = key_fields b)
    by (apply lex_ltb_total; auto).
  destruct a, b. unfold key_fields in Hf. simpl in Hf. congruence.
Qed.

Lemma key_le_refl a : key_le a a.
Proof.
  unfold key_le. rewrite <- key_ltb_nlt. apply lex_ltb_irrefl.
Qed.

Lemma key_lt_trans a b c : key_lt a b → key_lt b c → key_lt a c.
Proof. rewrite <- !key_ltb_lt. apply lex_ltb_trans. Qed.

Lemma key_lt_or_le a b : key_lt a b ∨ key_le b a.
Proof.
  unfold key_le. rewrite <- key_ltb_nlt, <- key_ltb_lt.
  destruct (key_ltb a b); auto.
Qed.

Lemma key_le_lteq a b : key_le a b → key_lt a b ∨ a = b.
Proof.
  intros H. destruct (key_lt_or_le a b) as [?|H']; [by left|].
  right. by apply key_le_antisym.
Qed.

Lemma key_lt_le_trans a b c : key_lt a b → key_le b c → key_lt a c.
Proof.
  intros H1 H2. apply key_le_lteq in H2 as [H2| <-]; [|done].
  by eapply key_lt_trans.
Qed.

Lemma key_le_lt_trans a b c : key_le a b → key_lt b c → key_lt a c.
Proof.
  intros H1 H2. apply key_le_lteq in H1 as [H1| ->]; [|done].
  by eapply key_lt_trans.
Qed.

Lemma key_lt_le a b : key_lt a b → key_le a b.
Proof.
  intros H H'. pose proof (key_lt_trans _ _ _ H H') as Hc.
  apply key_ltb_lt in Hc. unfold key_ltb in Hc.
  by rewrite lex_ltb_irrefl in Hc.
Qed.

Lemma key_le_trans a b c : key_le a b → key_le b c → key_le a c.
Proof.
  intros H1 H2. apply key_le_lteq in H1 as [H1| ->]; [|done].
  apply key_lt_le. by eapply key_lt_le_trans.
Qed.

(** ** The range scan of the item store *)

Lemma next_in_range_list key last (l : list (scoutfs_key * list byte)) :
  match foldr (λ kv acc,
           if key_leb key kv.1 && key_leb kv.1 last then
             match acc with
             | Some kv' => if key_ltb kv.1 kv'.1 then Some kv else acc
             | None => Some kv
             end
           else acc) None l with
  | Some kv =>
      kv ∈ l ∧ key_le key kv.1 ∧ key_le kv.1 last ∧
      ∀ kv', kv' ∈ l → key_le key kv'.1 → key_le kv'.1 last →
             key_le kv.1 kv'.1
  | None => ∀ kv', kv' ∈ l → key_le key kv'.1 → key_le kv'.1 last → False
  end.
Proof.
  induction l as [|x l IH]; simpl.
  - intros kv' H. inversion H.
  - destruct (key_leb key x.1 && key_leb x.1 last) eqn:Hx.
    + apply andb_true_iff in Hx as [Hx1 Hx2].
      apply key_leb_le in Hx1, Hx2.
      match goal with |- context [foldr ?f None l] =>
        destruct (foldr f None l) as [kv|] end.
      * destruct IH as (Hin & H1 & H2 & Hmin).
        destruct (key_ltb x.1 kv.1) eqn:Hlt.
        -- apply key_ltb_lt in Hlt. repeat split; auto.
           { left. }
           intros kv' Hkv' Ha Hb. apply elem_of_cons in Hkv' as [->|Hkv'].
           ++ apply key_le_refl.
           ++ specialize (Hmin kv' Hkv' Ha Hb).
              apply key_lt_le. by eapply key_lt_le_trans.
        -- apply key_ltb_nlt in Hlt. repeat split; auto.
           { by right. }
           intros kv' Hkv' Ha Hb. apply elem_of_cons in Hkv' as [->|Hkv'].
           ++ exact Hlt.
           ++ by apply Hmin.
      * repeat split; auto.
        { left. }
        intros kv' Hkv' Ha Hb. apply elem_of_cons in Hkv' as [->|Hkv'].
        -- apply key_le_refl.
        -- exfalso. by eapply IH.
    + apply andb_false_iff in Hx.
      match goal with |- context [foldr ?f None l] =>
        destruct (foldr f None l) as [kv|] end.
      * destruct IH as (Hin & H1 & H2 & Hmin). repeat split; auto.
        { by right. }
        intros kv' Hkv' Ha Hb. apply elem_of_cons in Hkv' as [->|Hkv'].
        -- exfalso. apply key_leb_le in Ha, Hb.
           destruct Hx as [Hx|Hx]; congruence.
        -- by apply Hmin.
      * intros kv' Hkv' Ha Hb. apply elem_of_cons in Hkv' as [->|Hkv'].
        -- apply key_leb_le in Ha, Hb. destruct Hx as [Hx|Hx]; congruence.
        -- by eapply IH.
Qed.

Lemma next_in_range_Some key last (m : gmap scoutfs_key (list byte)) k v :
  next_in_range key last m = Some (k, v) →
  m !! k = Some v ∧ key_le key k ∧ key_le k last ∧
  ∀ k' v', m !! k' = Some v' → key_le key k' → key_le k' last → key_le k k'.
Proof.
  unfold next_in_range. intros H.
  pose proof (next_in_range_list key last (map_to_list m)) as Hl.
  rewrite H in Hl. destruct Hl as (Hin & H1 & H2 & Hmin).
  apply elem_of_map_to_list in Hin. repeat split; auto.
  intros k' v' Hk' Ha Hb.
  apply (Hmin (k', v')); auto. by apply elem_of_map_to_list.
Qed.

Lemma next_in_range_None key last (m : gmap scoutfs_key (list byte)) :
  next_in_range key last m = None →
  ∀ k' v', m !! k' = Some v' → key_le key k' → key_le k' last → False.
Proof.
  unfold next_in_range. intros H k' v' Hk' Ha Hb.
  pose proof (next_in_range_list key last (map_to_list m)) as Hl.
  rewrite H in Hl. apply (Hl (k', v')); auto. by apply elem_of_map_to_list.
Qed.

Lemma next_in_range_least key last (m : gmap scoutfs_key (list byte)) k v :
  m !! k = Some v → key_le key k → key_le k last →
  (∀ k' v', m !! k' = Some v' → key_le key k' → key_le k' last →
            key_le k k') →
  next_in_range key last m = Some (k, v).
Proof.
  intros Hk Ha Hb Hmin.
  destruct (next_in_range key last m) as [[k0 v0]|] eqn:Hn.
  - apply next_in_range_Some in Hn as (Hk0 & Ha0 & Hb0 & Hmin0).
    assert (k0 = k) as ->.
    { apply key_le_antisym; [by eapply Hmin0 | by eapply Hmin]. }
    congruence.
  - exfalso. eapply next_in_range_None; eauto.
Qed.

Lemma keys_from_size key (m : gmap scoutfs_key (list byte)) :
  (keys_from key m <= size m)%nat.
Proof. unfold keys_from. rewrite <- length_map_to_list. apply length_filter. Qed.

Lemma filter_length_lt {A} (P Q : A → Prop) `{∀ x, Decision (P x)}
    `{∀ x, Decision (Q x)} (l : list A) x0 :
  (∀ x, Q x → P x) → x0 ∈ l → P x0 → ¬ Q x0 →
  (length (filter Q l) < length (filter P l))%nat.
Proof.
  intros HQP Hin HP HQ.
  assert (Hle : ∀ l', (length (filter Q l') <= length (filter P l'))%nat).
  { induction l' as [|y l' IH]; [done|].
    rewrite !filter_cons. destruct (decide (Q y)) as [Hy|Hy].
    - rewrite decide_True by auto. simpl. lia.
    - destruct (decide (P y)); simpl; lia. }
  induction l as [|y l IH]; [inversion Hin|].
  rewrite !filter_cons. apply elem_of_cons in Hin as [<-|Hin].
  - rewrite decide_False by done. rewrite decide_True by done. simpl.
    specialize (Hle l). lia.
  - specialize (IH Hin). destruct (decide (Q y)) as [Hy|Hy].
    + rewrite decide_True by auto. simpl. lia.
    + destruct (decide (P y)); simpl; lia.
Qed.

Lemma keys_from_lt key key' (m : gmap scoutfs_key (list byte)) k v :
  m !! k = Some v → key_le key k → key_lt k key' → key_le key key' →
  (keys_from key' m < keys_from key m)%nat.
Proof.
  intros Hk Ha Hb Hc. unfold keys_from.
  apply (filter_length_lt _ _ _ (k, v)).
  - intros [k1 v1]; simpl. intros H1. apply Is_true_true in H1.
    apply Is_true_true. apply key_leb_le in H1. apply key_leb_le.
    eapply key_le_trans; eauto.
  - by apply elem_of_map_to_list.
  - simpl. apply Is_true_true. by apply key_leb_le.
  - simpl. intros H1. apply Is_true_true in H1. apply key_leb_le in H1.
    unfold key_le in H1. tauto.
Qed.

(** ** Keys of one inode's xattrs *)

Lemma part_key_lt ino h1 id1 p1 h2 id2 p2 :
  key_lt (part_key ino h1 id1 p1) (part_key ino h2 id2 p2) ↔
  h1 < h2 ∨ (h1 = h2 ∧ (id1 < id2 ∨ (id1 = id2 ∧ p1 < p2))).
Proof. unfold key_lt, part_key; simpl. lia. Qed.

Lemma part_key_le ino h1 id1 p1 h2 id2 p2 :
  key_le (part_key ino h1 id1 p1) (part_key ino h2 id2 p2) ↔
  h1 < h2 ∨ (h1 = h2 ∧ (id1 < id2 ∨ (id1 = id2 ∧ p1 <= p2))).
Proof. unfold key_le. rewrite part_key_lt. lia. Qed.

Lemma is_xattr_key_eq ino k :
  is_xattr_key ino k →
  k = part_key ino (skx_name_hash k) (skx_id k) (skx_part k).
Proof.
  destruct k. unfold is_xattr_key, part_key. simpl.
  intros (-> & -> & ->). done.
Qed.

Lemma part_key_is_xattr_key ino h id p : is_xattr_key ino (part_key ino h id p).
Proof. by unfold is_xattr_key, part_key. Qed.

Lemma lex_between_head x a b y k :
  lex_ltb (y :: k) (x :: a) = false → lex_ltb (x :: b) (y :: k) = false →
  y = x ∧ lex_ltb k a = false ∧ lex_ltb b k = false.
Proof.
  simpl. rewrite !orb_false_iff, !andb_false_iff, !Z.ltb_ge, !Z.eqb_neq.
  intros [H1 H1'] [H2 H2']. assert (y = x) by lia. subst.
  split; [done|]. split.
  - destruct H1'; [lia|done].
  - destruct H2'; [lia|done].
Qed.

Lemma between_is_xattr_key ino h1 id1 p1 h2 id2 p2 k :
  key_le (part_key ino h1 id1 p1) k → key_le k (part_key ino h2 id2 p2) →
  is_xattr_key ino k.
Proof.
  unfold key_le. rewrite <- !key_ltb_nlt. unfold key_ltb, key_fields, part_key.
  cbn [sk_zone skx_ino sk_type skx_name_hash skx_id skx_part].
  intros H1 H2.
  destruct (lex_between_head _ _ _ _ _ H1 H2) as (Hz & H1a & H2a).
  destruct (lex_between_head _ _ _ _ _ H1a H2a) as (Hi & H1b & H2b).
  destruct (lex_between_head _ _ _ _ _ H1b H2b) as (Ht & _ & _).
  by unfold is_xattr_key.
Qed.

Lemma init_xattr_key_part_key ino h id :
  0 <= h < U32_MOD → init_xattr_key ino h id = part_key ino h id 0.
Proof.
  intros Hh. unfold init_xattr_key, part_key. by rewrite Z.mod_small.
Qed.

Lemma set_part_part_key ino h id p p' :
  set_part (part_key ino h id p) p' = part_key ino h id p'.
Proof. done. Qed.

Lemma set_id_part_key ino h id p id' :
  set_id (part_key ino h id p) id' = part_key ino h id' p.
Proof. done. Qed.

Lemma last_key_part_key ino : last_key ino = part_key ino U32_MAX U64_MAX 0.
Proof. done. Qed.

(** ** Encoding and chunks *)

Lemma length_xattr_encode name value :
  Z.of_nat (length (xattr_encode name value))
  = sizeof_scoutfs_xattr + Z.of_nat (length name) + Z.of_nat (length value).
Proof.
  unfold xattr_encode, sizeof_scoutfs_xattr.
  rewrite length_app. simpl. rewrite length_app. lia.
Qed.

Lemma nth_take_lt {A} (l : list A) i k d :
  (i < k)%nat → nth i (take k l) d = nth i l d.
Proof.
  revert i k. induction l as [|x l IH]; intros i k Hik.
  - by rewrite take_nil.
  - destruct k; [lia|]. destruct i; [done|]. simpl. apply IH. lia.
Qed.

Lemma header_of_prefix (xat : list byte) k name value :
  (3 <= k)%nat → take k xat = take k (xattr_encode name value) →
  valid_xattr name value →
  xat_name_len xat = Z.of_nat (length name) ∧
  xat_val_len xat = Z.of_nat (length value).
Proof.
  intros Hk Heq [Hn Hv].
  unfold SCOUTFS_XATTR_MAX_NAME_LEN, SCOUTFS_XATTR_MAX_VAL_LEN in *.
  unfold xat_name_len, xat_val_len.
  rewrite <- (nth_take_lt xat 0 k), <- (nth_take_lt xat 1 k),
    <- (nth_take_lt xat 2 k) by lia.
  rewrite Heq, !nth_take_lt by lia.
  unfold xattr_encode. simpl. rewrite !Z_of_byte_of_Z. split.
  - apply Z.mod_small. lia.
  - rewrite (Z.mod_small (_ / 256)).
    + pose proof (Z.div_mod (Z.of_nat (length value)) 256). lia.
    + split; [apply Z.div_pos; lia|]. apply Z.div_lt_upper_bound; lia.
Qed.

Lemma name_of_prefix (xat : list byte) k name value :
  (3 + length name <= k)%nat →
  take k xat = take k (xattr_encode name value) →
  take (length name) (xat_name xat) = name.
Proof.
  intros Hk Heq. unfold xat_name, sizeof_scoutfs_xattr.
  change (Z.to_nat 3) with 3%nat.
  rewrite take_drop_commute.
  replace (take (3 + length name) xat)
    with (take (3 + length name) (take k xat))
    by (rewrite take_take; f_equal; lia).
  rewrite Heq, take_take, Nat.min_l by lia.
  unfold xattr_encode. rewrite <- take_drop_commute.
  change (drop 3 (?a ++ name ++ value)) with (name ++ value).
  by rewrite take_app_length.
Qed.

Lemma value_of_prefix (xat : list byte) k name value :
  (3 + length name + length value <= k)%nat →
  take k xat = take k (xattr_encode name value) →
  take (length value) (drop (length name) (xat_name xat)) = value.
Proof.
  intros Hk Heq. unfold xat_name, sizeof_scoutfs_xattr.
  change (Z.to_nat 3) with 3%nat.
  rewrite drop_drop, take_drop_commute.
  replace (take (3 + length name + length value) xat)
    with (take (3 + length name + length value) (take k xat))
    by (rewrite take_take; f_equal; lia).
  rewrite Heq, take_take, Nat.min_l by lia.
  unfold xattr_encode. rewrite <- take_drop_commute, <- drop_drop.
  change (drop 3 (?a ++ name ++ value)) with (name ++ value).
  rewrite drop_app_length. by rewrite firstn_all.
Qed.

(** What the missing headers are assumed to provide: an item payload
    holds the header with a name of maximal length and more, so that 255
    parts are enough for the largest xattr, and the hash is a u32. *)
Hypothesis part_size_ok : 259 <= SCOUTFS_XATTR_MAX_PART_SIZE.
Hypothesis crc32c_range : ∀ seed data, 0 <= crc32c seed data < U32_MOD.

Lemma nr_parts_bounds name value :
  valid_xattr name value →
  let L := Z.of_nat (length (xattr_encode name value)) in
  let N := nr_parts_of name value in
  1 <= N <= 255 ∧
  (N - 1) * SCOUTFS_XATTR_MAX_PART_SIZE < L <= N * SCOUTFS_XATTR_MAX_PART_SIZE.
Proof.
  intros [Hn Hv]. cbv zeta. rewrite length_xattr_encode.
  unfold nr_parts_of, SCOUTFS_XATTR_NR_PARTS.
  unfold SCOUTFS_XATTR_MAX_NAME_LEN, SCOUTFS_XATTR_MAX_VAL_LEN,
    sizeof_scoutfs_xattr in *.
  set (P := SCOUTFS_XATTR_MAX_PART_SIZE) in *.
  set (L := 3 + Z.of_nat (length name) + Z.of_nat (length value)).
  assert (HL : 3 <= L <= 65793) by lia.
  pose proof (Z.div_mod (L + P - 1) P ltac:(lia)) as Hdm.
  pose proof (Z.mod_pos_bound (L + P - 1) P ltac:(lia)) as Hm.
  set (N := (L + P - 1) / P) in *.
  assert (H1 : (N - 1) * P < L) by lia.
  assert (H2 : L <= N * P) by lia.
  assert (H3 : 1 <= N) by nia.
  assert (H4 : N <= 255) by nia.
  lia.
Qed.

Lemma length_xattr_part enc p :
  0 <= p →
  Z.of_nat (length (xattr_part enc p))
  = Z.max 0 (Z.min SCOUTFS_XATTR_MAX_PART_SIZE
               (Z.of_nat (length enc) - p * SCOUTFS_XATTR_MAX_PART_SIZE)).
Proof.
  intros Hp. unfold xattr_part. rewrite length_take, length_drop.
  assert (0 <= p * SCOUTFS_XATTR_MAX_PART_SIZE) by nia. lia.
Qed.

Lemma take_xattr_parts enc p :
  0 <= p →
  take (Z.to_nat (p * SCOUTFS_XATTR_MAX_PART_SIZE)) enc ++ xattr_part enc p
  = take (Z.to_nat ((p + 1) * SCOUTFS_XATTR_MAX_PART_SIZE)) enc.
Proof.
  intros Hp. unfold xattr_part. rewrite take_take_drop. f_equal. nia.
Qed.

Lemma length_kvec_copy (buf : list byte) off data :
  0 <= off → off + Z.of_nat (length data) <= Z.of_nat (length buf) →
  length (kvec_copy buf off data) = length buf.
Proof.
  intros Ho Hl. unfold kvec_copy.
  rewrite !length_app, length_take, length_drop. lia.
Qed.

Lemma take_kvec_copy (buf : list byte) off data :
  0 <= off → off + Z.of_nat (length data) <= Z.of_nat (length buf) →
  take (Z.to_nat off + length data) (kvec_copy buf off data)
  = take (Z.to_nat off) buf ++ data.
Proof.
  intros Ho Hl. unfold kvec_copy. rewrite app_assoc.
  apply take_app_length'. rewrite length_app, length_take. lia.
Qed.

Lemma kvec_copy_nil (buf : list byte) off : kvec_copy buf off [] = buf.
Proof.
  unfold kvec_copy. simpl. rewrite Nat.add_0_r. apply take_drop.
Qed.

Lemma name_hash_of_range name : 0 <= name_hash_of name < U32_MOD.
Proof. apply crc32c_range. Qed.

Lemma xattr_name_hash_eq name :
  xattr_name_hash name (Z.of_nat (length name)) = name_hash_of name.
Proof.
  unfold xattr_name_hash, name_hash_of. rewrite Nat2Z.id.
  by rewrite firstn_all.
Qed.

(** ** One iteration of the scan *)

Lemma take_min_length {A} (l : list A) k :
  take k l = take (Nat.min k (length l)) l.
Proof.
  destruct (decide (k <= length l)%nat).
  - by rewrite Nat.min_l.
  - rewrite Nat.min_r by lia. rewrite !take_ge; [done|lia|lia].
Qed.

Lemma head_data_spec bytes name value (xat : list byte) :
  valid_xattr name value →
  0 <= bytes <= Z.of_nat (length xat) →
  let enc := xattr_encode name value in
  let data := head_data bytes name value in
  Z.of_nat (length data)
    = Z.min bytes
        (Z.min SCOUTFS_XATTR_MAX_PART_SIZE (Z.of_nat (length enc))) ∧
  take (length data) (kvec_copy xat 0 data) = take (length data) enc ∧
  length (kvec_copy xat 0 data) = length xat.
Proof.
  intros Hv Hb. cbv zeta. unfold head_data.
  set (enc := xattr_encode name value).
  assert (Hlen : Z.of_nat (length (take (Z.to_nat bytes) (xattr_part enc 0)))
            = Z.min bytes (Z.min SCOUTFS_XATTR_MAX_PART_SIZE
                (Z.of_nat (length enc)))).
  { rewrite length_take.
    pose proof (length_xattr_part enc 0 ltac:(lia)) as Hp. lia. }
  split; [exact Hlen|]. split.
  - pose proof (take_kvec_copy xat 0
      (take (Z.to_nat bytes) (xattr_part enc 0)) ltac:(lia) ltac:(lia)) as Ht.
    simpl in Ht. rewrite Ht.
    assert (Hp0 : xattr_part enc 0
                  = take (Z.to_nat SCOUTFS_XATTR_MAX_PART_SIZE) enc)
      by reflexivity.
    rewrite Hp0, take_take, length_take. apply take_min_length.
  - apply length_kvec_copy; lia.
Qed.

Lemma item_next_ff E key last n st :
  fault_free E →
  scoutfs_item_next E key last (Some n) st
  = match next_in_range key last (items st) with
    | None => (- ENOENT, key, [], log (EvItemNext key) st)
    | Some (k, v) =>
        (Z.of_nat (length (take (Z.to_nat n) v)), k, take (Z.to_nat n) v,
         log (EvItemNext key) st)
    end.
Proof. intros HE. unfold scoutfs_item_next. by rewrite HE. Qed.

Ltac zbool :=
  repeat match goal with
  | |- context [?a <? ?b] =>
      first [ rewrite (proj2 (Z.ltb_lt a b)) by lia
            | rewrite (proj2 (Z.ltb_ge a b)) by lia ]
  | |- context [?a <=? ?b] =>
      first [ rewrite (proj2 (Z.leb_le a b)) by lia
            | rewrite (proj2 (Z.leb_gt a b)) by lia ]
  | |- context [?a =? ?b] =>
      first [ rewrite (proj2 (Z.eqb_eq a b)) by lia
            | rewrite (proj2 (Z.eqb_neq a b)) by lia ]
  end.

Lemma step_head E fuel ino bytes name name_hash key lp (xat : list byte) st
    h' id' n' V' :
  fault_free E →
  valid_xattr n' V' →
  next_in_range (set_part key 0) (last_key ino) (items st)
    = Some (part_key ino h' id' 0, xattr_part (xattr_encode n' V') 0) →
  sizeof_scoutfs_xattr + Z.of_nat (length name) <= bytes →
  bytes <= Z.of_nat (length xat) →
  get_next_loop (S fuel) E (last_key ino) bytes name
    (Z.of_nat (length name)) name_hash key 0 lp 0 xat st
  = let ret := Z.of_nat (length (head_data bytes n' V')) in
    let xat' := kvec_copy xat 0 (head_data bytes n' V') in
    let st' := log (EvItemNext (set_part key 0)) st in
    let k' := part_key ino h' id' 0 in
    let finish lp :=
      if (ret =? bytes) || (0 =? lp) then Some (ret, k', xat', st')
      else get_next_loop fuel E (last_key ino) bytes name
             (Z.of_nat (length name)) name_hash k' 1 lp ret xat' st' in
    if decide (name = []) then finish lp
    else if decide (h' = name_hash) then
      if decide (name = n') then finish (nr_parts_of n' V' - 1)
      else get_next_loop fuel E (last_key ino) bytes name
             (Z.of_nat (length name)) name_hash
             (part_key ino h' ((id' + 1) mod U64_MOD) 0) 0 lp 0 xat' st'
    else Some (- ENOENT, k', xat', st').
Proof.
  intros HE Hv Hnext Hbytes Hxat. cbv zeta.
  unfold sizeof_scoutfs_xattr in *.
  destruct (head_data_spec bytes n' V' xat Hv ltac:(lia))
    as (Hret & Htake & Hlen).
  destruct (nr_parts_bounds n' V' Hv) as (HN & HNL).
  pose proof (length_xattr_encode n' V') as HL.
  unfold sizeof_scoutfs_xattr in HL.
  pose proof Hv as [Hv1 Hv2].
  unfold SCOUTFS_XATTR_MAX_NAME_LEN, SCOUTFS_XATTR_MAX_VAL_LEN in Hv1, Hv2.
  set (data := head_data bytes n' V') in *.
  set (xat' := kvec_copy xat 0 data) in *.
  destruct (header_of_prefix xat' (length data) n' V' ltac:(lia) Htake Hv)
    as (Hnl & Hvl).
  cbn [get_next_loop]. rewrite item_next_ff by done. rewrite Hnext.
  rewrite Z.sub_0_r. fold (head_data bytes n' V'). fold data. fold xat'.
  cbn [skx_part part_key skx_name_hash skx_id].
  unfold xattr_nr_parts. rewrite Hnl, Hvl. fold (nr_parts_of n' V').
  unfold sizeof_scoutfs_xattr, SCOUTFS_XATTR_MAX_NAME_LEN,
    SCOUTFS_XATTR_MAX_VAL_LEN.
  rewrite (proj2 (Z.ltb_ge (Z.of_nat (length data)) 0)) by lia.
  rewrite Z.eqb_refl. cbn [negb andb].
  rewrite (proj2 (Z.ltb_ge (Z.of_nat (length data)) 3)) by lia.
  rewrite (proj2 (Z.ltb_ge 255 (Z.of_nat (length n')))) by lia.
  rewrite (proj2 (Z.ltb_ge 65535 (Z.of_nat (length V')))) by lia.
  assert (Hchk : (Z.of_nat (length n') <=? Z.of_nat (length name)) &&
                 (Z.of_nat (length data) <? 3 + Z.of_nat (length n')) = false).
  { apply andb_false_iff.
    destruct (Z.leb_spec (Z.of_nat (length n')) (Z.of_nat (length name)));
      [right|by left].
    apply Z.ltb_ge. lia. }
  rewrite Hchk. cbn [orb].
  rewrite (Z.mod_small (nr_parts_of n' V' - 1)) by (unfold U8_MOD; lia).
  destruct (decide (name = [])) as [->|Hne].
  { simpl. done. }
  assert (Hnl0 : (Z.of_nat (length name) =? 0) = false).
  { apply Z.eqb_neq. destruct name; [done|simpl; lia]. }
  rewrite Hnl0. cbn [negb].
  destruct (decide (h' = name_hash)) as [->|Hh].
  2: { rewrite (proj2 (Z.eqb_neq h' name_hash)) by done. done. }
  rewrite Z.eqb_refl. cbn [negb].
  unfold xattr_names_equal.
  destruct (decide (name = n')) as [->|Hn].
  - rewrite Z.eqb_refl, Nat2Z.id.
    rewrite (name_of_prefix xat' (length data) n' V') by (done || lia).
    rewrite firstn_all, bool_decide_eq_true_2 by done. done.
  - assert (Hneq : (Z.of_nat (length name) =? Z.of_nat (length n')) &&
       bool_decide (take (Z.to_nat (Z.of_nat (length name))) name
         = take (Z.to_nat (Z.of_nat (length name))) (xat_name xat')) = false).
    { apply andb_false_iff.
      destruct (Z.eqb_spec (Z.of_nat (length name)) (Z.of_nat (length n')))
        as [Heq|Heq]; [right|by left].
      apply bool_decide_eq_false_2. rewrite Nat2Z.id, firstn_all.
      apply Nat2Z.inj in Heq. rewrite Heq.
      rewrite (name_of_prefix xat' (length data) n' V') by (done || lia).
      done. }
    rewrite Hneq. done.
Qed.

Lemma step_none E fuel last bytes name name_len name_hash key part lp total
    (xat : list byte) st :
  fault_free E →
  next_in_range (set_part key part) last (items st) = None →
  get_next_loop (S fuel) E last bytes name name_len name_hash key part lp
    total xat st
  = Some (if 0 <? part then - EIO else - ENOENT, set_part key part, xat,
          log (EvItemNext (set_part key part)) st).
Proof.
  intros HE Hnext. cbn [get_next_loop]. rewrite item_next_ff by done.
  rewrite Hnext, kvec_copy_nil. by destruct (0 <? part).
Qed.

Lemma step_part E fuel last bytes name name_len name_hash key part lp total
    (xat : list byte) st v :
  fault_free E →
  next_in_range (set_part key part) last (items st)
    = Some (set_part key part, v) →
  part ≠ 0 →
  get_next_loop (S fuel) E last bytes name name_len name_hash key part lp
    total xat st
  = let data := take (Z.to_nat (bytes - total)) v in
    let ret := Z.of_nat (length data) in
    let xat' := kvec_copy xat total data in
    let st' := log (EvItemNext (set_part key part)) st in
    if (total + ret =? bytes) || (part =? lp) then
      Some (total + ret, set_part key part, xat', st')
    else
      get_next_loop fuel E last bytes name name_len name_hash
        (set_part key part) ((part + 1) mod U8_MOD) lp (total + ret) xat' st'.
Proof.
  intros HE Hnext Hp. cbv zeta. cbn [get_next_loop].
  rewrite item_next_ff by done. rewrite Hnext.
  rewrite (proj2 (Z.ltb_ge (Z.of_nat _) 0)) by lia.
  cbn [skx_part set_part]. rewrite Z.eqb_refl.
  rewrite (proj2 (Z.eqb_neq part 0)) by done. done.
Qed.


(** ** The scan over a well-formed store *)

Lemma part0_name_inj n V n' V' :
  valid_xattr n V → valid_xattr n' V' →
  xattr_part (xattr_encode n V) 0 = xattr_part (xattr_encode n' V') 0 →
  n = n' ∧ length V = length V'.
Proof.
  intros Hv Hv' Heq.
  assert (Hp0 : ∀ enc, xattr_part enc 0
                = take (Z.to_nat SCOUTFS_XATTR_MAX_PART_SIZE) enc)
    by reflexivity.
  rewrite !Hp0 in Heq.
  set (k := Z.to_nat SCOUTFS_XATTR_MAX_PART_SIZE) in *.
  pose proof Hv as [Hv1 _]. pose proof Hv' as [Hv1' _].
  unfold SCOUTFS_XATTR_MAX_NAME_LEN in *.
  destruct (header_of_prefix (xattr_encode n V) k n' V' ltac:(lia) Heq Hv')
    as (H1 & H2).
  destruct (header_of_prefix (xattr_encode n V) k n V ltac:(lia) eq_refl Hv)
    as (H3 & H4).
  assert (Hl : length n = length n') by lia.
  split; [|lia].
  rewrite <- (name_of_prefix (xattr_encode n V) k n V) by (done || lia).
  rewrite Hl. apply (name_of_prefix _ k n' V'); [lia|done].
Qed.

Section Scan.

Variable ino bound : Z.
Variable m : gmap scoutfs_key (list byte).
Hypothesis Hwf : wf_heads m ino bound.
Hypothesis Hbound : bound <= U64_MAX.

Lemma head_in_range id n V :
  xattr_head m ino id n V →
  0 <= id < bound ∧
  key_le (part_key ino (name_hash_of n) id 0) (last_key ino).
Proof.
  intros Hh.
  destruct (wf_part _ _ _ Hwf _ _ Hh (part_key_is_xattr_key _ _ _ _))
    as (n' & V' & _ & _ & _ & _ & Hid).
  cbn [skx_id part_key] in Hid. split; [done|].
  rewrite last_key_part_key. apply part_key_le.
  pose proof (name_hash_of_range n). unfold U32_MOD, U32_MAX in *. lia.
Qed.

Lemma scan_head h c k v :
  next_in_range (part_key ino h c 0) (last_key ino) m = Some (k, v) →
  ∃ n' V' id',
    k = part_key ino (name_hash_of n') id' 0 ∧
    v = xattr_part (xattr_encode n' V') 0 ∧
    valid_xattr n' V' ∧ xattr_head m ino id' n' V' ∧ 0 <= id' < bound ∧
    (h < name_hash_of n' ∨ (h = name_hash_of n' ∧ c <= id')).
Proof.
  intros Hn. apply next_in_range_Some in Hn as (Hk & Hlo & Hhi & Hmin).
  assert (Hx : is_xattr_key ino k).
  { eapply between_is_xattr_key; [exact Hlo|].
    rewrite last_key_part_key in Hhi. exact Hhi. }
  destruct k as [z i t hh id' p]. pose proof Hx as (Hz & Hi & Ht).
  simpl in Hz, Hi, Ht. subst z i t.
  change (mk_key SCOUTFS_FS_ZONE ino SCOUTFS_XATTR_TYPE hh id' p)
    with (part_key ino hh id' p) in *.
  destruct (wf_part _ _ _ Hwf _ _ Hk Hx)
    as (n' & V' & Hv & Hhash & Hhead & Hp & Hid).
  cbn [skx_name_hash skx_id skx_part part_key] in Hhash, Hhead, Hp, Hid.
  subst hh. exists n', V', id'.
  apply part_key_le in Hlo.
  assert (Hp0 : p = 0).
  { destruct (head_in_range _ _ _ Hhead) as [_ Hr].
    assert (Hle : key_le (part_key ino (name_hash_of n') id' p)
                    (part_key ino (name_hash_of n') id' 0)).
    { eapply Hmin; [exact Hhead| |exact Hr]. apply part_key_le. lia. }
    apply part_key_le in Hle. lia. }
  subst p. unfold xattr_head in Hhead.
  rewrite Hhead in Hk. injection Hk as <-.
  split; [done|]. split; [done|]. split; [done|].
  split; [exact Hhead|]. split; [done|lia].
Qed.

Lemma scan_head_min h c h' id' v id n V :
  next_in_range (part_key ino h c 0) (last_key ino) m
    = Some (part_key ino h' id' 0, v) →
  xattr_head m ino id n V →
  (h < name_hash_of n ∨ (h = name_hash_of n ∧ c <= id)) →
  h' < name_hash_of n ∨ (h' = name_hash_of n ∧ id' <= id).
Proof.
  intros Hn Hh Hge. apply next_in_range_Some in Hn as (_ & _ & _ & Hmin).
  destruct (head_in_range _ _ _ Hh) as [_ Hr].
  assert (Hle : key_le (part_key ino h' id' 0)
                  (part_key ino (name_hash_of n) id 0)).
  { eapply Hmin; [exact Hh| |exact Hr]. apply part_key_le. lia. }
  apply part_key_le in Hle. lia.
Qed.

Lemma scan_none h c id n V :
  next_in_range (part_key ino h c 0) (last_key ino) m = None →
  xattr_head m ino id n V →
  (h < name_hash_of n ∨ (h = name_hash_of n ∧ c <= id)) → False.
Proof.
  intros Hn Hh Hge. destruct (head_in_range _ _ _ Hh) as [_ Hr].
  eapply next_in_range_None; [exact Hn|exact Hh| |exact Hr].
  apply part_key_le. lia.
Qed.

Lemma head_name_unique id n V n' V' :
  valid_xattr n V → valid_xattr n' V' →
  name_hash_of n = name_hash_of n' →
  xattr_head m ino id n V → xattr_head m ino id n' V' → n = n'.
Proof.
  intros Hv Hv' Hh H1 H2. unfold xattr_head in *. rewrite Hh in H1.
  rewrite H1 in H2. injection H2 as H2.
  by destruct (part0_name_inj _ _ _ _ Hv Hv' H2).
Qed.

End Scan.

Lemma kvec_copy_prefix (xat enc : list byte) off r :
  0 <= off →
  take (Z.to_nat off) xat = take (Z.to_nat off) enc →
  off + Z.of_nat r <= Z.of_nat (length xat) →
  let data := take r (drop (Z.to_nat off) enc) in
  take (Z.to_nat off + length data) (kvec_copy xat off data)
    = take (Z.to_nat off + length data) enc ∧
  length (kvec_copy xat off data) = length xat.
Proof.
  intros Hoff Hpre Hlen. cbv zeta.
  assert (Hd : (length (take r (drop (Z.to_nat off) enc)) <= r)%nat)
    by (rewrite length_take; lia).
  split; [|apply length_kvec_copy; lia].
  rewrite take_kvec_copy by lia. rewrite Hpre, take_take_drop.
  rewrite length_take, length_drop.
  destruct (decide (Z.to_nat off + r <= length enc)%nat).
  - f_equal. lia.
  - rewrite !take_ge; [done|lia|lia].
Qed.

Lemma keys_from_pos key (m : gmap scoutfs_key (list byte)) k v :
  m !! k = Some v → key_le key k → (0 < keys_from key m)%nat.
Proof.
  intros Hk Hle. unfold keys_from.
  assert (Hin : (k, v) ∈ filter
            (λ kv : scoutfs_key * list byte, key_leb key kv.1)
            (map_to_list m)).
  { apply list_elem_of_filter. split.
    - simpl. apply Is_true_true. by apply key_leb_le.
    - by apply elem_of_map_to_list. }
  destruct (filter _ (map_to_list m)); [inversion Hin|simpl; lia].
Qed.

Section Lookup.

Variable E : env.
Hypothesis HE : fault_free E.
Variable ino bound : Z.
Hypothesis Hbound : bound <= U64_MAX.
Variable bytes : Z.
Variable name : list byte.
Hypothesis Hname : name ≠ [].
Hypothesis Hname_len : Z.of_nat (length name) <= SCOUTFS_XATTR_MAX_NAME_LEN.
Hypothesis Hbytes : sizeof_scoutfs_xattr + Z.of_nat (length name) <= bytes.

Local Abbreviation h := (name_hash_of name).
Local Abbreviation nl := (Z.of_nat (length name)).

Lemma walk_miss fuel : ∀ c (xat : list byte) st,
  wf_heads (items st) ino bound →
  bytes <= Z.of_nat (length xat) →
  0 <= c →
  (keys_from (part_key ino h c 0) (items st) < fuel)%nat →
  (∀ id V, c <= id → valid_xattr name V →
           xattr_head (items st) ino id name V → False) →
  ∃ k xat' st',
    get_next_loop fuel E (last_key ino) bytes name nl h
      (part_key ino h c 0) 0 0 0 xat st = Some (- ENOENT, k, xat', st').
Proof.
  induction fuel as [|fuel IH]; intros c xat st Hwf Hxat Hc Hfuel Habs;
    [lia|].
  destruct (next_in_range (part_key ino h c 0) (last_key ino) (items st))
    as [[k v]|] eqn:Hnext.
  - destruct (scan_head _ _ _ Hwf Hbound _ _ _ _ Hnext)
      as (n' & V' & id' & -> & -> & Hv' & Hhead' & Hid' & Hge).
    rewrite (step_head E fuel ino bytes name h _ 0 xat st
               (name_hash_of n') id' n' V') by done.
    cbv zeta. rewrite decide_False by done.
    destruct (decide (name_hash_of n' = h)) as [Hh|Hh];
      [|by eexists _, _, _].
    destruct (decide (name = n')) as [->|Hn].
    { exfalso. eapply (Habs id' V'); [lia|done|done]. }
    assert (Hid1 : (id' + 1) mod U64_MOD = id' + 1).
    { apply Z.mod_small. unfold U64_MOD, U64_MAX in *. lia. }
    rewrite Hid1, Hh.
    apply next_in_range_Some in Hnext as (Hk & Hlo & _ & _).
    apply IH.
    + done.
    + rewrite length_kvec_copy; [done|lia|].
      destruct (head_data_spec bytes n' V' xat Hv'
                  ltac:(unfold sizeof_scoutfs_xattr in *; lia)) as (Hr & _).
      lia.
    + lia.
    + cbn [items log].
      eapply Nat.lt_le_trans; [|apply Nat.lt_succ_r; exact Hfuel].
      rewrite Hh in Hk, Hlo.
      eapply keys_from_lt; [exact Hk|exact Hlo| |].
      * apply part_key_lt. lia.
      * apply part_key_le. apply part_key_le in Hlo. lia.
    + cbn [items log]. intros id V Hid HvV Hhd.
      eapply (Habs id V); [|done|done].
      apply part_key_le in Hlo. lia.
  - rewrite step_none by done. by eexists _, _, _.
Qed.

Lemma walk_to_head fuel : ∀ F c (xat : list byte) st id V,
  wf_heads (items st) ino bound →
  bytes <= Z.of_nat (length xat) →
  valid_xattr name V →
  xattr_head (items st) ino id name V →
  0 <= c <= id →
  (keys_from (part_key ino h c 0) (items st) + F <= fuel)%nat →
  ∃ fuel' c' xat' st',
    (F < fuel')%nat ∧ length xat' = length xat ∧
    items st' = items st ∧ next_xattr_id st' = next_xattr_id st ∧
    next_in_range (part_key ino h c' 0) (last_key ino) (items st)
      = Some (part_key ino h id 0, xattr_part (xattr_encode name V) 0) ∧
    get_next_loop fuel E (last_key ino) bytes name nl h
      (part_key ino h c 0) 0 0 0 xat st
    = get_next_loop fuel' E (last_key ino) bytes name nl h
        (part_key ino h c' 0) 0 0 0 xat' st'.
Proof.
  induction fuel as [|fuel IH]; intros F c xat st id V Hwf Hxat Hv Hhead Hc
    Hfuel.
  { destruct (head_in_range _ _ _ Hwf Hbound _ _ _ Hhead) as [_ Hr].
    pose proof (keys_from_pos (part_key ino h c 0) _ _ _ Hhead
      ltac:(apply part_key_le; lia)). lia. }
  destruct (next_in_range (part_key ino h c 0) (last_key ino) (items st))
    as [[k v]|] eqn:Hnext.
  2: { exfalso. eapply scan_none; eauto. lia. }
  destruct (scan_head _ _ _ Hwf Hbound _ _ _ _ Hnext)
    as (n' & V' & id' & -> & -> & Hv' & Hhead' & Hid' & Hge).
  pose proof (scan_head_min _ _ _ Hwf Hbound _ _ _ _ _ _ _ _ Hnext Hhead
                ltac:(lia)) as Hle.
  assert (Hh : name_hash_of n' = h) by lia.
  assert (Hid : c <= id' <= id) by lia.
  destruct (decide (id' = id)) as [->|Hne].
  - assert (n' = name) as ->
      by (eapply head_name_unique; eauto).
    unfold xattr_head in Hhead, Hhead'. rewrite Hhead in Hhead'.
    injection Hhead' as Hpart.
    exists (S fuel), c, xat, st.
    pose proof (keys_from_pos (part_key ino h c 0) _ _ _ Hhead
      ltac:(apply part_key_le; lia)).
    split; [lia|]. split; [done|]. split; [done|]. split; [done|].
    split; [|done]. rewrite Hnext. by rewrite Hpart.
  - rewrite (step_head E fuel ino bytes name h _ 0 xat st
               (name_hash_of n') id' n' V') by done.
    cbv zeta. rewrite decide_False by done.
    rewrite decide_True by done.
    assert (Hnn : name ≠ n').
    { intros Heq. apply Hne.
      eapply (wf_unique _ _ _ Hwf id' id name V' V);
        [rewrite Heq; exact Hv'|exact Hv|rewrite Heq; exact Hhead'
        |exact Hhead]. }
    rewrite decide_False by done.
    assert (Hid1 : (id' + 1) mod U64_MOD = id' + 1).
    { apply Z.mod_small. unfold U64_MOD, U64_MAX in *. lia. }
    rewrite Hid1, Hh.
    apply next_in_range_Some in Hnext as (Hk & Hlo & _ & _).
    rewrite Hh in Hk, Hlo.
    assert (Hlen : length (kvec_copy xat 0 (head_data bytes n' V'))
                   = length xat).
    { apply length_kvec_copy; [lia|].
      destruct (head_data_spec bytes n' V' xat Hv'
                  ltac:(unfold sizeof_scoutfs_xattr in *; lia)) as (Hr & _).
      lia. }
    edestruct (IH F (id' + 1)
                 (kvec_copy xat 0 (head_data bytes n' V'))
                 (log (EvItemNext (set_part (part_key ino h c 0) 0)) st)
                 id V)
      as (fuel' & c' & xat' & st' & H1 & H2 & H3 & H4 & H5 & H6).
    + done.
    + rewrite Hlen. done.
    + done.
    + done.
    + lia.
    + cbn [items log].
      assert (keys_from (part_key ino h (id' + 1) 0) (items st)
              < keys_from (part_key ino h c 0) (items st))%nat; [|lia].
      eapply keys_from_lt; [exact Hk|exact Hlo| |].
      * apply part_key_lt. lia.
      * apply part_key_le. lia.
    + exists fuel', c', xat', st'.
      split; [done|]. split; [congruence|]. split; [done|].
      split; [done|]. split; [done|]. done.
Qed.

Lemma part_next_self st id p v :
  0 <= id < bound →
  items st !! part_key ino h id p = Some v →
  next_in_range (part_key ino h id p) (last_key ino) (items st)
    = Some (part_key ino h id p, v).
Proof.
  intros Hid Hp. apply next_in_range_least; auto.
  - apply key_le_refl.
  - rewrite last_key_part_key. apply part_key_le.
    pose proof (name_hash_of_range name). unfold U32_MOD, U32_MAX in *. lia.
Qed.

Lemma read_parts fuel : ∀ p q0 (xat : list byte) st V id,
  valid_xattr name V →
  0 <= id < bound →
  (∀ q, p <= q < nr_parts_of name V →
        q * SCOUTFS_XATTR_MAX_PART_SIZE < bytes →
        items st !! part_key ino h id q
          = Some (xattr_part (xattr_encode name V) q)) →
  1 <= p < nr_parts_of name V →
  p * SCOUTFS_XATTR_MAX_PART_SIZE < bytes <= Z.of_nat (length xat) →
  take (Z.to_nat (p * SCOUTFS_XATTR_MAX_PART_SIZE)) xat
    = take (Z.to_nat (p * SCOUTFS_XATTR_MAX_PART_SIZE))
        (xattr_encode name V) →
  (Z.to_nat (nr_parts_of name V - p) <= fuel)%nat →
  ∃ pf xat' st',
    get_next_loop fuel E (last_key ino) bytes name nl h
      (part_key ino h id q0) p (nr_parts_of name V - 1)
      (p * SCOUTFS_XATTR_MAX_PART_SIZE) xat st
    = Some (Z.min bytes (Z.of_nat (length (xattr_encode name V))),
            part_key ino h id pf, xat', st') ∧
    take (Z.to_nat (Z.min bytes (Z.of_nat (length (xattr_encode name V)))))
      xat'
    = take (Z.to_nat (Z.min bytes (Z.of_nat (length (xattr_encode name V)))))
        (xattr_encode name V) ∧
    length xat' = length xat ∧
    items st' = items st ∧ next_xattr_id st' = next_xattr_id st.
Proof.
  induction fuel as [|fuel IH];
    intros p q0 xat st V id Hv Hid Hparts Hp Hb Hpre Hfuel; [lia|].
  destruct (nr_parts_bounds name V Hv) as (HN & HNL).
  set (P := SCOUTFS_XATTR_MAX_PART_SIZE) in *.
  set (enc := xattr_encode name V) in *.
  set (N := nr_parts_of name V) in *.
  set (L := Z.of_nat (length enc)) in *.
  assert (HpP : 0 <= p * P) by nia.
  assert (HpL : p * P < L) by nia.
  pose proof (Hparts p ltac:(lia) ltac:(lia)) as Hpart.
  pose proof (part_next_self st id p _ Hid Hpart) as Hnext.
  rewrite (step_part E fuel _ bytes name nl h (part_key ino h id q0) p _
             _ xat st _ HE Hnext ltac:(lia)).
  cbv zeta. rewrite set_part_part_key.
  set (r := Nat.min (Z.to_nat (bytes - p * P)) (Z.to_nat P)).
  destruct (kvec_copy_prefix xat enc (p * P) r HpP Hpre ltac:(lia))
    as (Hpre' & Hlen').
  assert (Hd : take (Z.to_nat (bytes - p * P)) (xattr_part enc p)
               = take r (drop (Z.to_nat (p * P)) enc)).
  { unfold xattr_part. fold P. by rewrite take_take. }
  rewrite !Hd.
  set (data := take r (drop (Z.to_nat (p * P)) enc)) in *.
  assert (Hdata : Z.of_nat (length data)
                  = Z.min (bytes - p * P) (Z.min P (L - p * P))).
  { unfold data. rewrite length_take, length_drop. unfold r, L. lia. }
  set (xat' := kvec_copy xat (p * P) data) in *.
  destruct (decide (p = N - 1)) as [Hlast|Hnotlast].
  - rewrite (proj2 (Z.eqb_eq p (N - 1))) by done. rewrite orb_true_r.
    assert (Htot : p * P + Z.of_nat (length data) = Z.min bytes L) by lia.
    rewrite Htot. eexists p, xat', _.
    split; [done|]. split; [|by split].
    rewrite <- Htot. rewrite Z2Nat.inj_add, Nat2Z.id by lia. done.
  - rewrite (proj2 (Z.eqb_neq p (N - 1))) by done. rewrite orb_false_r.
    assert (HpP1 : (p + 1) * P < L) by nia.
    assert (Hret : Z.of_nat (length data) = Z.min (bytes - p * P) P) by lia.
    destruct (Z.eqb_spec (p * P + Z.of_nat (length data)) bytes) as [Heq|Hneq].
    + assert (Htot : p * P + Z.of_nat (length data) = Z.min bytes L) by lia.
      rewrite Htot. eexists p, xat', _.
      split; [done|]. split; [|by split].
      rewrite <- Htot. rewrite Z2Nat.inj_add, Nat2Z.id by lia. done.
    + assert (Htot : p * P + Z.of_nat (length data) = (p + 1) * P) by lia.
      rewrite Htot.
      rewrite (Z.mod_small (p + 1)) by (unfold U8_MOD; lia).
      edestruct (IH (p + 1) p xat'
                   (log (EvItemNext (part_key ino h id p)) st) V id)
        as (pf & xat'' & st'' & H1 & H2 & H3 & H4 & H5).
      * done.
      * done.
      * intros q Hq Hqb. cbn [items log]. apply Hparts; [lia|done].
      * lia.
      * rewrite Hlen'. lia.
      * rewrite <- Htot. rewrite Z2Nat.inj_add, Nat2Z.id by lia. done.
      * fold N. lia.
      * exists pf, xat'', st''. fold N enc L P in H1, H2 |- *.
        split; [done|]. split; [done|]. split; [congruence|].
        split; [done|]. done.
Qed.

Lemma get_next_xattr_by_name (xat : list byte) st :
  get_next_xattr E ino xat bytes name nl 0 0 st
  = get_next_loop (scan_fuel st) E (last_key ino) bytes name nl h
      (part_key ino h 0 0) 0 0 0 xat st.
Proof.
  unfold get_next_xattr.
  rewrite (proj2 (Z.ltb_ge bytes _)) by lia. rewrite andb_false_r.
  assert (Hnl0 : (nl =? 0) = false).
  { apply Z.eqb_neq. destruct name; [done|simpl; lia]. }
  rewrite Hnl0. cbn [negb]. rewrite xattr_name_hash_eq.
  rewrite (init_xattr_key_part_key ino h 0) by apply name_hash_of_range.
  done.
Qed.

Lemma lookup_hit (xat : list byte) st V id :
  wf_heads (items st) ino bound →
  bytes <= Z.of_nat (length xat) →
  valid_xattr name V →
  xattr_head (items st) ino id name V →
  (∀ q, 1 <= q < nr_parts_of name V →
        q * SCOUTFS_XATTR_MAX_PART_SIZE < bytes →
        items st !! part_key ino h id q
          = Some (xattr_part (xattr_encode name V) q)) →
  ∃ pf xat' st',
    get_next_xattr E ino xat bytes name nl 0 0 st
    = Some (Z.min bytes (Z.of_nat (length (xattr_encode name V))),
            part_key ino h id pf, xat', st') ∧
    take (Z.to_nat (Z.min bytes (Z.of_nat (length (xattr_encode name V)))))
      xat'
    = take (Z.to_nat (Z.min bytes (Z.of_nat (length (xattr_encode name V)))))
        (xattr_encode name V) ∧
    length xat' = length xat ∧
    items st' = items st ∧ next_xattr_id st' = next_xattr_id st.
Proof.
  intros Hwf Hxat Hv Hhead Hparts. rewrite get_next_xattr_by_name.
  destruct (head_in_range _ _ _ Hwf Hbound _ _ _ Hhead) as [Hid _].
  destruct (walk_to_head (scan_fuel st) 255 0 xat st id V Hwf Hxat Hv Hhead
              ltac:(lia))
    as (fuel' & c' & xat1 & st1 & Hf & Hl1 & Hi1 & Hx1 & Hnext & ->).
  { pose proof (keys_from_size (part_key ino h 0 0) (items st)).
    unfold scan_fuel, nr_items. lia. }
  destruct fuel' as [|fuel]; [lia|].
  rewrite <- Hi1 in Hnext.
  rewrite (step_head E fuel ino bytes name h _ 0 xat1 st1 h id name V)
    by (done || lia).
  cbv zeta. rewrite decide_False by done. rewrite !decide_True by done.
  destruct (head_data_spec bytes name V xat1 Hv
              ltac:(unfold sizeof_scoutfs_xattr in *; lia))
    as (Hret & Htake & Hlen).
  destruct (nr_parts_bounds name V Hv) as (HN & HNL).
  set (P := SCOUTFS_XATTR_MAX_PART_SIZE) in *.
  set (enc := xattr_encode name V) in *.
  set (N := nr_parts_of name V) in *.
  set (L := Z.of_nat (length enc)) in *.
  set (data := head_data bytes name V) in *.
  destruct ((Z.of_nat (length data) =? bytes) || (0 =? N - 1)) eqn:Hfin.
  - assert (Hr : Z.of_nat (length data) = Z.min bytes L).
    { apply orb_true_iff in Hfin as [Hfin|Hfin].
      - apply Z.eqb_eq in Hfin. lia.
      - apply Z.eqb_eq in Hfin. assert (L <= P) by lia. lia. }
    rewrite Hr. eexists 0, _, _. split; [done|].
    rewrite <- Hr, Nat2Z.id. split; [done|]. split; [congruence|].
    by split.
  - apply orb_false_iff in Hfin as [Hf1 Hf2].
    apply Z.eqb_neq in Hf1, Hf2.
    assert (HPL : P < L) by nia.
    assert (Hr : Z.of_nat (length data) = 1 * P) by lia.
    rewrite Hr.
    edestruct (read_parts fuel 1 0 (kvec_copy xat1 0 data)
                 (log (EvItemNext (set_part (part_key ino h c' 0) 0)) st1)
                 V id Hv)
      as (pf & xat2 & st2 & H1 & H2 & H3 & H4 & H5).
    + done.
    + intros q Hq Hqb. cbn [items log]. rewrite Hi1. apply Hparts; lia.
    + fold N. lia.
    + fold P. rewrite Hlen. lia.
    + fold P enc. rewrite <- Hr, Nat2Z.id. done.
    + fold N. lia.
    + fold N P enc L in H1, H2. exists pf, xat2, st2.
      split; [done|]. split; [done|]. split; [congruence|].
      cbn [items log next_xattr_id] in H4, H5. split; congruence.
Qed.

Lemma lookup_miss (xat : list byte) st :
  wf_heads (items st) ino bound →
  bytes <= Z.of_nat (length xat) →
  (∀ id V, valid_xattr name V →
           xattr_head (items st) ino id name V → False) →
  ∃ k xat' st',
    get_next_xattr E ino xat bytes name nl 0 0 st
    = Some (- ENOENT, k, xat', st').
Proof.
  intros Hwf Hxat Habs. rewrite get_next_xattr_by_name.
  apply walk_miss; auto; [lia| |by eauto].
  pose proof (keys_from_size (part_key ino h 0 0) (items st)).
  unfold scan_fuel, nr_items. lia.
Qed.

End Lookup.

(** Whether a name has an instance is decided by walking its hash bucket,
    as the scan does. *)
Lemma head_decide m ino bound name (n : nat) :
  wf_heads m ino bound → bound <= U64_MAX →
  ∀ c, 0 <= c →
    (keys_from (part_key ino (name_hash_of name) c 0) m <= n)%nat →
    (∃ id V, c <= id ∧ valid_xattr name V ∧ xattr_head m ino id name V) ∨
    (∀ id V, c <= id → valid_xattr name V →
             xattr_head m ino id name V → False).
Proof.
  intros Hwf Hbound. induction n as [|n IH]; intros c Hc Hn.
  - right. intros id V Hid _ Hh.
    pose proof (keys_from_pos (part_key ino (name_hash_of name) c 0) _ _ _ Hh
      ltac:(apply part_key_le; lia)). lia.
  - destruct (next_in_range (part_key ino (name_hash_of name) c 0)
                (last_key ino) m) as [[k v]|] eqn:Hnext.
    2: { right. intros id V Hid _ Hh.
         eapply scan_none; [exact Hwf|exact Hbound|exact Hnext|exact Hh|lia]. }
    destruct (scan_head _ _ _ Hwf Hbound _ _ _ _ Hnext)
      as (n' & V' & id' & -> & -> & Hv' & Hhead' & Hid' & Hge).
    destruct (decide (name_hash_of n' = name_hash_of name)) as [Hh|Hh].
    2: { right. intros id V Hid _ Hhd.
         pose proof (scan_head_min _ _ _ Hwf Hbound _ _ _ _ _ _ _ _ Hnext Hhd
                       ltac:(lia)). lia. }
    destruct (decide (n' = name)) as [->|Hn'].
    { left. exists id', V'. split; [lia|]. by split. }
    apply next_in_range_Some in Hnext as Hnx.
    destruct Hnx as (Hk & Hlo & _ & _).
    destruct (IH (id' + 1) ltac:(lia)) as [(id & V & H1 & H2 & H3)|Hno].
    + assert (keys_from (part_key ino (name_hash_of name) (id' + 1) 0) m
              < keys_from (part_key ino (name_hash_of name) c 0) m)%nat;
        [|lia].
      rewrite Hh in Hk, Hlo.
      eapply keys_from_lt; [exact Hk|exact Hlo| |].
      * apply part_key_lt. lia.
      * apply part_key_le. lia.
    + left. exists id, V. split; [lia|]. by split.
    + right. intros id V Hid HvV Hhd.
      pose proof (scan_head_min _ _ _ Hwf Hbound _ _ _ _ _ _ _ _ Hnext Hhd
                    ltac:(lia)) as Hmin.
      destruct (decide (id = id')) as [->|Hne].
      * apply Hn'. eapply head_name_unique; eauto.
      * eapply (Hno id V); [lia|done|done].
Qed.

(** ** What a scan does to the state, whatever the environment *)

Lemma reads_only_refl st : reads_only st st.
Proof. repeat split. by exists []. Qed.

Lemma reads_only_trans st1 st2 st3 :
  reads_only st1 st2 → reads_only st2 st3 → reads_only st1 st3.
Proof.
  intros (H1 & H2 & evs1 & H3 & H4) (H5 & H6 & evs2 & H7 & H8).
  split; [congruence|]. split; [congruence|].
  exists (evs2 ++ evs1). rewrite H7, H3, app_assoc. split; [done|].
  by apply Forall_app.
Qed.

Lemma reads_only_log key st : reads_only st (log (EvItemNext key) st).
Proof.
  repeat split. exists [EvItemNext key]. split; [done|].
  repeat constructor. by exists key.
Qed.

Lemma item_next_state E key last n st :
  (scoutfs_item_next E key last n st).2 = log (EvItemNext key) st.
Proof.
  unfold scoutfs_item_next. repeat case_match; done.
Qed.

Lemma get_next_loop_reads E last bytes name name_len name_hash fuel :
  ∀ key part lp total (xat : list byte) st ret k xat' st',
  get_next_loop fuel E last bytes name name_len name_hash key part lp total
    xat st = Some (ret, k, xat', st') →
  reads_only st st'.
Proof.
  induction fuel as [|fuel IH]; intros key part lp total xat st ret k xat' st';
    [done|].
  cbn [get_next_loop].
  pose proof (item_next_state E (set_part key part) last
                (Some (bytes - total)) st) as Hst.
  destruct (scoutfs_item_next E (set_part key part) last
              (Some (bytes - total)) st) as [[[r k1] data] st1].
  simpl in Hst. subst st1.
  pose proof (reads_only_log (set_part key part) st) as Hlog.
  repeat match goal with
  | |- context [if ?b then _ else _] => destruct b
  end;
  intros Hres;
  first [ injection Hres as <- <- <- <-; exact Hlog
        | eapply reads_only_trans; [exact Hlog|]; eapply IH; exact Hres ].
Qed.

Lemma get_next_xattr_reads E ino (xat : list byte) bytes name name_len
    name_hash id st ret k xat' st' :
  get_next_xattr E ino xat bytes name name_len name_hash id st
    = Some (ret, k, xat', st') →
  reads_only st st'.
Proof.
  unfold get_next_xattr. case_match.
  - intros Hres. injection Hres as <- <- <- <-. apply reads_only_refl.
  - apply get_next_loop_reads.
Qed.

(** ** The public operations over a well-formed store *)

Lemma kmalloc_ff E bytes st :
  fault_free E →
  kmalloc E bytes st
  = (Some (map (junk E) (seq 0 (Z.to_nat bytes))), log (EvKmalloc bytes) st).
Proof. intros HE. unfold kmalloc. by rewrite HE. Qed.

Lemma call_ff E ev st : fault_free E → call E ev st = (0, log ev st).
Proof. intros HE. unfold call. by rewrite HE. Qed.

Lemma known_prefix_nonempty name : unknown_prefix name = false → name ≠ [].
Proof. by intros H ->. Qed.

Lemma xattr_at_head m ino id name V :
  valid_xattr name V → xattr_at m ino id name V → xattr_head m ino id name V.
Proof.
  intros Hv Hat. apply Hat. destruct (nr_parts_bounds name V Hv). lia.
Qed.

Lemma getxattr_stored E ino bound name V size st :
  fault_free E →
  wf_heads (items st) ino bound → bound <= U64_MAX →
  unknown_prefix name = false →
  stored st ino name V →
  0 <= size <= XATTR_SIZE_MAX →
  ∃ st',
    scoutfs_getxattr E ino name size st
    = Some (getxattr_result size V, st') ∧
    items st' = items st ∧ next_xattr_id st' = next_xattr_id st.
Proof.
  intros HE Hwf Hbound Hpfx (Hv & id & Hat) Hsize.
  pose proof (known_prefix_nonempty _ Hpfx) as Hne.
  pose proof Hv as [Hv1 Hv2].
  unfold SCOUTFS_XATTR_MAX_NAME_LEN, SCOUTFS_XATTR_MAX_VAL_LEN,
    XATTR_SIZE_MAX in *.
  unfold scoutfs_getxattr. rewrite Hpfx.
  unfold SCOUTFS_XATTR_MAX_NAME_LEN, sizeof_scoutfs_xattr.
  rewrite (proj2 (Z.ltb_ge 255 _)) by lia.
  rewrite Z.mod_small by (unfold U32_MOD; lia).
  set (bytes := 3 + Z.of_nat (length name) + size).
  rewrite kmalloc_ff, call_ff by done. cbn [negb Z.eqb].
  set (xat := map (junk E) (seq 0 (Z.to_nat bytes))).
  assert (Hxat : Z.of_nat (length xat) = bytes).
  { unfold xat. rewrite length_map, length_seq. lia. }
  set (st1 := log EvDownRead (log (EvLockInode DLM_LOCK_PR)
                (log (EvKmalloc bytes) st))).
  destruct (lookup_hit E HE ino bound Hbound bytes name Hne
              ltac:(unfold SCOUTFS_XATTR_MAX_NAME_LEN; lia)
              ltac:(unfold sizeof_scoutfs_xattr, bytes; lia)
              xat st1 V id Hwf ltac:(lia) Hv
              (xattr_at_head _ _ _ _ _ Hv Hat))
    as (pf & xat' & st' & Hget & Htake & Hlen & Hitems & Hnext).
  { intros q Hq _. apply Hat. lia. }
  rewrite Hget. cbn [mbind option_bind].
  pose proof (length_xattr_encode name V) as HL.
  unfold sizeof_scoutfs_xattr in HL.
  set (L := Z.of_nat (length (xattr_encode name V))) in *.
  destruct (header_of_prefix xat' (Z.to_nat (Z.min bytes L)) name V
              ltac:(unfold bytes; lia) Htake Hv) as (Hnl & Hvl).
  rewrite (proj2 (Z.ltb_ge (Z.min bytes L) 0)) by (unfold bytes; lia).
  unfold getxattr_result, xattr_full_bytes, sizeof_scoutfs_xattr.
  rewrite Hnl, Hvl.
  exists (log (EvUnlock DLM_LOCK_PR) (log EvUpRead st')).
  split; [|split; [exact Hitems|exact Hnext]].
  destruct (decide (size = 0)) as [->|Hs0]; [done|].
  rewrite (proj2 (Z.eqb_neq size 0)) by done.
  destruct (decide (size < Z.of_nat (length V))) as [Hlt|Hge].
  { rewrite (proj2 (Z.ltb_lt _ _)) by done. done. }
  rewrite (proj2 (Z.ltb_ge size _)) by lia.
  assert (Hmin : Z.min bytes L = L) by (unfold bytes; lia).
  rewrite Hmin in *.
  rewrite (proj2 (Z.ltb_ge L _)) by lia.
  rewrite !Nat2Z.id.
  rewrite (value_of_prefix xat' (Z.to_nat L) name V) by (done || lia).
  done.
Qed.

(** ** Staged deletion, creation and their rollback, whatever the
    environment *)

Lemma restore_items_lookup_notin saved (m : gmap scoutfs_key (list byte)) k :
  (∀ kv, kv ∈ saved → kv.1 ≠ k) → restore_items saved m !! k = m !! k.
Proof.
  induction saved as [|[k1 v1] saved IH]; intros Hni; [done|].
  simpl. rewrite lookup_insert_ne.
  - apply IH. intros kv Hkv. apply Hni. by right.
  - apply (Hni (k1, v1)). by left.
Qed.

Lemma restore_items_delete saved (m : gmap scoutfs_key (list byte)) k :
  (∀ kv, kv ∈ saved → kv.1 ≠ k) →
  restore_items saved (delete k m) = delete k (restore_items saved m).
Proof.
  induction saved as [|[k1 v1] saved IH]; intros Hni; [done|].
  simpl. rewrite IH.
  - rewrite delete_insert_ne; [done|].
    apply not_eq_sym. apply (Hni (k1, v1)). by left.
  - intros kv Hkv. apply Hni. by right.
Qed.

Lemma delete_save_inv E key saved st ret saved' st' :
  scoutfs_item_delete_save E key saved st = (ret, saved', st') →
  (∀ kv, kv ∈ saved → items st !! kv.1 = None) →
  restore_items saved' (items st') = restore_items saved (items st) ∧
  (∀ kv, kv ∈ saved' → items st' !! kv.1 = None) ∧
  next_xattr_id st' = next_xattr_id st ∧ ret <= 0 ∧
  (ret = 0 → is_Some (items st !! key) ∧
             items st' = delete key (items st)).
Proof.
  unfold scoutfs_item_delete_save. intros Hds Hinv.
  destruct (fault E (length (trace st))) as [e|].
  { injection Hds as <- <- <-. cbn [items log next_xattr_id].
    repeat split; auto; lia. }
  destruct (items st !! key) as [v|] eqn:Hk.
  2: { injection Hds as <- <- <-. cbn [items log next_xattr_id].
       unfold ENOENT. repeat split; auto; lia. }
  injection Hds as <- <- <-. cbn [items log with_items next_xattr_id].
  assert (Hni : ∀ kv, kv ∈ saved → kv.1 ≠ key).
  { intros kv Hkv Heq. specialize (Hinv kv Hkv). rewrite Heq in Hinv.
    congruence. }
  split.
  { simpl. rewrite restore_items_delete by done.
    apply insert_delete_id. rewrite restore_items_lookup_notin by done.
    done. }
  split.
  { intros kv [->|Hkv]%elem_of_cons.
    - apply lookup_delete_eq.
    - rewrite lookup_delete_ne by (apply not_eq_sym; by apply Hni).
      by apply Hinv. }
  repeat split; eauto; lia.
Qed.

Lemma delete_loop_inv E nr fuel : ∀ key saved st ret saved' st',
  delete_loop fuel E key nr saved st = Some (ret, saved', st') →
  (∀ kv, kv ∈ saved → items st !! kv.1 = None) →
  restore_items saved' (items st') = restore_items saved (items st) ∧
  next_xattr_id st' = next_xattr_id st ∧ ret <= 0.
Proof.
  induction fuel as [|fuel IH]; intros key saved st ret saved' st' Hdl Hinv;
    [done|].
  cbn [delete_loop] in Hdl.
  destruct (scoutfs_item_delete_save E key saved st)
    as [[r1 saved1] st1] eqn:Hds.
  destruct (delete_save_inv _ _ _ _ _ _ _ Hds Hinv)
    as (H1 & H2 & H3 & H4 & _).
  destruct ((r1 =? 0) && _).
  - destruct (IH _ _ _ _ _ _ Hdl H2) as (H5 & H6 & H7).
    split; [congruence|]. split; [congruence|done].
  - injection Hdl as <- <- <-. done.
Qed.

Lemma in_parts_part_key ino h id lo hi q :
  in_parts ino h id lo hi (part_key ino h id q) ↔ lo <= q < hi.
Proof. unfold in_parts. cbn [skx_part part_key]. tauto. Qed.

Lemma delete_loop_ok E ino h id nr fuel : ∀ p saved st saved' st',
  delete_loop fuel E (part_key ino h id p) nr saved st
    = Some (0, saved', st') →
  0 <= p < nr → nr <= 255 →
  (∀ q, p <= q < nr → is_Some (items st !! part_key ino h id q)) ∧
  ∀ k, items st' !! k
       = if decide (in_parts ino h id p nr k) then None else items st !! k.
Proof.
  induction fuel as [|fuel IH]; intros p saved st saved' st' Hdl Hp Hnr;
    [done|].
  cbn [delete_loop] in Hdl.
  destruct (scoutfs_item_delete_save E (part_key ino h id p) saved st)
    as [[r1 saved1] st1] eqn:Hds.
  unfold scoutfs_item_delete_save in Hds.
  rewrite set_part_part_key in Hdl. cbn [skx_part part_key] in Hdl.
  rewrite (Z.mod_small (p + 1)) in Hdl by (unfold U8_MOD; lia).
  destruct (fault E (length (trace st))) as [e|].
  { injection Hds as <- <- <-. simpl in Hdl. injection Hdl as Hc. lia. }
  destruct (items st !! part_key ino h id p) as [v|] eqn:Hk.
  2: { injection Hds as <- <- <-. simpl in Hdl. injection Hdl as Hc.
       unfold ENOENT in Hc. lia. }
  injection Hds as <- <- <-. rewrite Z.eqb_refl in Hdl. cbn [andb] in Hdl.
  destruct (Z.ltb_spec (p + 1) nr) as [Hlt|Hge].
  - destruct (IH _ _ _ _ _ Hdl ltac:(lia) Hnr) as (Hpres & Hpt).
    split.
    + intros q Hq. destruct (decide (q = p)) as [->|Hqp]; [by rewrite Hk|].
      specialize (Hpres q ltac:(lia)). cbn [items with_items log] in Hpres.
      rewrite lookup_delete_ne in Hpres; [done|].
      intros Heq. injection Heq as Heq. lia.
    + intros k. rewrite Hpt. cbn [items with_items log].
      destruct (decide (in_parts ino h id (p + 1) nr k)) as [Hin|Hin].
      * rewrite decide_True; [done|]. destruct Hin. split; [done|lia].
      * destruct (decide (k = part_key ino h id p)) as [->|Hkp].
        -- rewrite lookup_delete_eq. rewrite decide_True; [done|].
           apply in_parts_part_key. lia.
        -- rewrite lookup_delete_ne by done.
           rewrite decide_False; [done|].
           intros [Hk1 Hk2]. apply Hin. split; [done|].
           assert (skx_part k ≠ p); [|lia].
           intros Hpp. apply Hkp. rewrite Hk1. by rewrite Hpp.
  - injection Hdl as <- <-. assert (p = nr - 1) as -> by lia. split.
    + intros q Hq. assert (q = nr - 1) as -> by lia. by rewrite Hk.
    + intros k. cbn [items with_items log].
      destruct (decide (k = part_key ino h id (nr - 1))) as [->|Hkp].
      * rewrite lookup_delete_eq. rewrite decide_True; [done|].
        apply in_parts_part_key. lia.
      * rewrite lookup_delete_ne by done. rewrite decide_False; [done|].
        intros [Hk1 Hk2]. apply Hkp. rewrite Hk1. f_equal. lia.
Qed.

Lemma delete_dirty_parts_state n : ∀ key st,
  items (delete_dirty_parts n key st) = del_parts n key (items st) ∧
  next_xattr_id (delete_dirty_parts n key st) = next_xattr_id st.
Proof.
  induction n as [|n IH]; intros key st; [done|].
  cbn [delete_dirty_parts del_parts].
  destruct (IH key (scoutfs_item_delete_dirty (set_part key (Z.of_nat n)) st))
    as [H1 H2].
  rewrite H1, H2. done.
Qed.

Lemma take_min_drop (xat : list byte) bytes total P :
  Z.of_nat (length xat) = bytes → 0 <= total < bytes → 0 < P →
  take (Z.to_nat (Z.min (bytes - total) P)) (drop (Z.to_nat total) xat)
  = take (Z.to_nat P) (drop (Z.to_nat total) xat).
Proof.
  intros Hlen Ht HP.
  rewrite (take_min_length (drop _ xat) (Z.to_nat P)).
  f_equal. rewrite length_drop. lia.
Qed.

Lemma create_loop_spec E ino h id (xat : list byte) bytes N fuel :
  Z.of_nat (length xat) = bytes →
  (N - 1) * SCOUTFS_XATTR_MAX_PART_SIZE < bytes
    <= N * SCOUTFS_XATTR_MAX_PART_SIZE →
  N <= 255 →
  ∀ p total st ret st',
  create_loop fuel E (part_key ino h id p) xat bytes total st
    = Some (ret, st') →
  0 <= p → total = Z.min (p * SCOUTFS_XATTR_MAX_PART_SIZE) bytes →
  next_xattr_id st' = next_xattr_id st ∧ ret <= 0 ∧
  (ret ≠ 0 →
   items st' = del_parts (Z.to_nat p) (part_key ino h id p) (items st)) ∧
  (ret = 0 →
   (∀ q, p <= q < N → items st !! part_key ino h id q = None) ∧
   ∀ k, items st' !! k
        = if decide (in_parts ino h id p N k)
          then Some (xattr_part xat (skx_part k)) else items st !! k).
Proof.
  intros Hlen HN HN255.
  set (P := SCOUTFS_XATTR_MAX_PART_SIZE) in *.
  induction fuel as [|fuel IH]; intros p total st ret st' Hcl Hp Htot;
    [done|].
  cbn [create_loop] in Hcl.
  destruct (Z.ltb_spec total bytes) as [Hlt|Hge].
  2: { injection Hcl as <- <-. split; [done|]. split; [done|].
       split; [done|]. intros _.
       assert (N <= p) by nia. split; [intros q Hq; lia|].
       intros k. rewrite decide_False; [done|]. intros [_ Hk]. lia. }
  assert (HpP : total = p * P) by lia.
  assert (Hp254 : p < N) by nia.
  fold P in Hcl.
  rewrite (take_min_drop xat bytes total P) in Hcl by lia.
  assert (Hval : take (Z.to_nat P) (drop (Z.to_nat total) xat)
                 = xattr_part xat p).
  { unfold xattr_part. fold P. by rewrite HpP. }
  rewrite Hval in Hcl.
  unfold scoutfs_item_create in Hcl.
  cbn [skx_part part_key] in Hcl. rewrite set_part_part_key in Hcl.
  destruct (fault E (length (trace st))) as [e|].
  { simpl in Hcl. injection Hcl as <- <-.
    destruct (delete_dirty_parts_state (Z.to_nat p) (part_key ino h id p)
                (log (EvItemCreate (part_key ino h id p)) st)) as [H1 H2].
    rewrite H1, H2. cbn [items log next_xattr_id].
    split; [done|]. split; [lia|]. split; [done|]. intros Hc. lia. }
  destruct (items st !! part_key ino h id p) as [v|] eqn:Hk.
  { simpl in Hcl. injection Hcl as <- <-.
    destruct (delete_dirty_parts_state (Z.to_nat p) (part_key ino h id p)
                (log (EvItemCreate (part_key ino h id p)) st)) as [H1 H2].
    rewrite H1, H2. cbn [items log next_xattr_id].
    split; [done|]. split; [unfold EEXIST; lia|]. split; [done|].
    intros Hc. unfold EEXIST in Hc. lia. }
  cbn [Z.eqb negb] in Hcl.
  rewrite (Z.mod_small (p + 1)) in Hcl by (unfold U8_MOD; lia).
  destruct (IH _ _ _ _ _ Hcl ltac:(lia) ltac:(lia)) as (H1 & H2 & H3 & H4).
  cbn [items with_items log next_xattr_id] in H1, H3, H4.
  split; [done|]. split; [done|]. split.
  - intros Hr. rewrite (H3 Hr).
    replace (Z.to_nat (p + 1)) with (S (Z.to_nat p)) by lia.
    cbn [del_parts]. rewrite set_part_part_key, Z2Nat.id by lia.
    rewrite delete_insert_id by done.
    clear. generalize (Z.to_nat p) as n. generalize (items st) as m.
    intros m n. revert m. induction n as [|n IHn]; intros m; [done|].
    cbn [del_parts]. rewrite !set_part_part_key. apply IHn.
  - intros Hr. destruct (H4 Hr) as [Habs Hpt]. split.
    + intros q Hq. destruct (decide (q = p)) as [->|Hqp]; [done|].
      specialize (Habs q ltac:(lia)).
      rewrite lookup_insert_ne in Habs; [done|].
      intros Heq. injection Heq as Heq. lia.
    + intros k. rewrite Hpt.
      destruct (decide (in_parts ino h id (p + 1) N k)) as [Hin|Hin].
      * rewrite decide_True; [done|]. destruct Hin. split; [done|lia].
      * destruct (decide (k = part_key ino h id p)) as [->|Hkp].
        -- rewrite lookup_insert_eq. rewrite decide_True; [done|].
           apply in_parts_part_key. lia.
        -- rewrite lookup_insert_ne by done.
           rewrite decide_False; [done|].
           intros [Hk1 Hk2]. apply Hin. split; [done|].
           assert (skx_part k ≠ p); [|lia].
           intros Hpp. apply Hkp. rewrite Hk1. by rewrite Hpp.
Qed.

Lemma item_next_data E key last n st r k data st1 :
  scoutfs_item_next E key last (Some n) st = (r, k, data, st1) →
  Z.of_nat (length data) <= Z.max 0 n ∧
  (0 <= r → r = Z.of_nat (length data)).
Proof.
  unfold scoutfs_item_next. intros H.
  destruct (fault E (length (trace st))) as [e|].
  { injection H as <- <- <- <-. simpl. lia. }
  destruct (next_in_range key last (items st)) as [[k0 v0]|].
  - injection H as <- <- <- <-. rewrite length_take. lia.
  - injection H as <- <- <- <-. simpl. unfold ENOENT. lia.
Qed.

Lemma get_next_loop_length E last bytes name name_len name_hash fuel :
  ∀ key part lp total (xat : list byte) st ret k xat' st',
  get_next_loop fuel E last bytes name name_len name_hash key part lp total
    xat st = Some (ret, k, xat', st') →
  0 <= total <= bytes → bytes <= Z.of_nat (length xat) →
  length xat' = length xat.
Proof.
  induction fuel as [|fuel IH]; intros key part lp total xat st ret k xat' st';
    [done|].
  cbn [get_next_loop]. intros Hres Htot Hlen.
  destruct (scoutfs_item_next E (set_part key part) last
              (Some (bytes - total)) st) as [[[r k1] data] st1] eqn:Hin.
  apply item_next_data in Hin as (Hd1 & Hd2).
  assert (Hl1 : length (kvec_copy xat total data) = length xat)
    by (apply length_kvec_copy; lia).
  destruct (Z.ltb_spec r 0) as [Hr|Hr].
  { by injection Hres as <- <- <- <-. }
  specialize (Hd2 Hr).
  revert Hres.
  repeat match goal with
  | |- context [if ?b then _ else _] => destruct b
  end;
  intros Hres;
  first [ injection Hres as <- <- <- <-; exact Hl1
        | rewrite <- Hl1; eapply IH; [exact Hres|lia|rewrite Hl1; lia] ].
Qed.

Lemma get_next_xattr_length E ino (xat : list byte) bytes name name_len
    name_hash id st ret k xat' st' :
  get_next_xattr E ino xat bytes name name_len name_hash id st
    = Some (ret, k, xat', st') →
  0 <= bytes <= Z.of_nat (length xat) →
  length xat' = length xat.
Proof.
  unfold get_next_xattr. case_match.
  - intros Hres. by injection Hres as <- <- <- <-.
  - intros Hres Hb. eapply get_next_loop_length; [exact Hres|lia|lia].
Qed.

Lemma prepare_xattr_encode (xat name V : list byte) :
  Z.of_nat (length xat)
  = sizeof_scoutfs_xattr + Z.of_nat (length name) + Z.of_nat (length V) →
  Z.of_nat (length name) <= SCOUTFS_XATTR_MAX_NAME_LEN →
  prepare_xattr xat name (Z.of_nat (length name)) V (Z.of_nat (length V))
  = xattr_encode name V.
Proof.
  unfold sizeof_scoutfs_xattr, SCOUTFS_XATTR_MAX_NAME_LEN. intros Hlen Hn.
  unfold prepare_xattr, xattr_encode, sizeof_scoutfs_xattr.
  rewrite !Nat2Z.id, !firstn_all.
  set (h0 := byte_of_Z (Z.of_nat (length name))).
  set (h1 := byte_of_Z (Z.of_nat (length V))).
  set (h2 := byte_of_Z (Z.of_nat (length V) / 256)).
  assert (Hx1 : kvec_copy xat 0 [h0; h1; h2] = [h0; h1; h2] ++ drop 3 xat)
    by reflexivity.
  rewrite Hx1.
  assert (Hx2 : kvec_copy ([h0; h1; h2] ++ drop 3 xat) 3 name
                = ([h0; h1; h2] ++ name)
                    ++ drop (3 + length name) ([h0; h1; h2] ++ drop 3 xat)).
  { unfold kvec_copy. change (Z.to_nat 3) with 3%nat.
    rewrite <- app_assoc. done. }
  rewrite Hx2.
  assert (Hnl : xat_name_len
            (([h0; h1; h2] ++ name)
               ++ drop (3 + length name) ([h0; h1; h2] ++ drop 3 xat))
            = Z.of_nat (length name)).
  { unfold xat_name_len. simpl. unfold h0.
    rewrite Z_of_byte_of_Z. apply Z.mod_small. lia. }
  rewrite Hnl. unfold kvec_copy.
  replace (Z.to_nat (3 + Z.of_nat (length name)))
    with (length ([h0; h1; h2] ++ name)) by (rewrite length_app; simpl; lia).
  rewrite take_app_length.
  rewrite drop_ge.
  - rewrite app_nil_r, <- app_assoc. done.
  - rewrite !length_app, length_drop, length_app, length_drop. simpl. lia.
Qed.

Lemma index_round_state E busy st :
  items (index_round E busy st).2 = items st ∧
  next_xattr_id (index_round E busy st).2 = next_xattr_id st.
Proof.
  unfold index_round, call. repeat case_match; simplify_eq; done.
Qed.

Lemma index_retry_state E n : ∀ st,
  items (index_retry E n st).2 = items st ∧
  next_xattr_id (index_retry E n st).2 = next_xattr_id st.
Proof.
  induction n as [|n IH]; intros st; cbn [index_retry].
  - apply index_round_state.
  - pose proof (index_round_state E true st) as [H1 H2].
    destruct (index_round E true st) as [r st1]. simpl in H1, H2.
    destruct (0 <? r); [|done].
    destruct (IH st1) as [H3 H4]. split; congruence.
Qed.

Lemma parts_count_bounds bytes :
  1 <= bytes <= 65793 →
  let N := (bytes + SCOUTFS_XATTR_MAX_PART_SIZE - 1)
             / SCOUTFS_XATTR_MAX_PART_SIZE in
  (N - 1) * SCOUTFS_XATTR_MAX_PART_SIZE < bytes
    <= N * SCOUTFS_XATTR_MAX_PART_SIZE ∧ 1 <= N <= 255.
Proof.
  intros Hb. cbv zeta.
  set (P := SCOUTFS_XATTR_MAX_PART_SIZE) in *.
  pose proof (Z.div_mod (bytes + P - 1) P ltac:(lia)) as Hdm.
  pose proof (Z.mod_pos_bound (bytes + P - 1) P ltac:(lia)) as Hm.
  set (N := (bytes + P - 1) / P) in *.
  assert (H1 : (N - 1) * P < bytes) by lia.
  assert (H2 : bytes <= N * P) by lia.
  assert (H3 : 1 <= N) by nia.
  assert (H4 : N <= 255) by nia.
  lia.
Qed.

Lemma create_xattr_items_fail E ino id (xat : list byte) bytes st ret st' :
  create_xattr_items E ino id xat bytes st = Some (ret, st') →
  Z.of_nat (length xat) = bytes → 1 <= bytes <= 65793 →
  next_xattr_id st' = next_xattr_id st ∧ ret <= 0 ∧
  (ret ≠ 0 → items st' = items st).
Proof.
  unfold create_xattr_items. intros Hc Hlen Hb.
  destruct (parts_count_bounds bytes Hb) as (HN & HN1).
  change (init_xattr_key ino ?hh id)
    with (part_key ino (hh mod U32_MOD) id 0) in Hc.
  destruct (create_loop_spec E ino _ id xat bytes _ _ Hlen HN ltac:(lia)
              _ _ _ _ _ Hc ltac:(lia) ltac:(lia)) as (H1 & H2 & H3 & _).
  split; [done|]. split; [done|]. intros Hr. by rewrite (H3 Hr).
Qed.

Lemma xattr_set_trans_fail E ino key fp value id (xat : list byte) bytes st
    ret st' :
  xattr_set_trans E ino key fp value id xat bytes st = Some (ret, st') →
  (is_Some value → Z.of_nat (length xat) = bytes ∧ 1 <= bytes <= 65793) →
  next_xattr_id st' = next_xattr_id st ∧ ret <= 0 ∧
  (ret ≠ 0 → items st' = items st).
Proof.
  unfold xattr_set_trans. intros Hs Hval.
  destruct (call E EvDirtyInode st) as [r0 st0] eqn:Hcall.
  assert (Hst0 : st0 = log EvDirtyInode st)
    by (unfold call in Hcall; congruence).
  subst st0.
  destruct (Z.ltb_spec r0 0) as [Hr0|Hr0].
  { injection Hs as <- <-. split; [done|]. split; [lia|done]. }
  destruct (if negb (fp =? 0)
            then delete_xattr_items E ino (skx_name_hash key) (skx_id key)
                   fp [] (log EvDirtyInode st)
            else Some (0, [], log EvDirtyInode st))
    as [[[rd saved] std]|] eqn:Hd; [|done].
  cbn [mbind option_bind] in Hs.
  assert (Hdel : restore_items saved (items std) = items st ∧
                 next_xattr_id std = next_xattr_id st ∧ rd <= 0).
  { destruct (negb (fp =? 0)).
    - unfold delete_xattr_items in Hd.
      apply delete_loop_inv in Hd; [done|].
      intros kv Hkv. inversion Hkv.
    - injection Hd as <- <- <-. done. }
  destruct Hdel as (Hres & Hnx & Hrd).
  destruct (if bool_decide (is_Some value) && (rd =? 0)
            then create_xattr_items E ino id xat bytes std
            else Some (rd, std)) as [[rc stc]|] eqn:Hc; [|done].
  cbn [mbind option_bind] in Hs.
  assert (Hcr : next_xattr_id stc = next_xattr_id std ∧ rc <= 0 ∧
                (rc ≠ 0 → items stc = items std)).
  { destruct (bool_decide (is_Some value) && (rd =? 0)) eqn:Hb.
    - apply andb_true_iff in Hb as [Hb _]. apply bool_decide_eq_true in Hb.
      destruct (Hval Hb) as [Hl Hbb].
      eapply create_xattr_items_fail; eauto.
    - injection Hc as <- <-. done. }
  destruct Hcr as (Hnx2 & Hrc & Hitems).
  destruct (Z.ltb_spec rc 0) as [Hlt|Hge].
  - injection Hs as <- <-. cbn [next_xattr_id scoutfs_item_restore with_items
      log items].
    split; [congruence|]. split; [lia|]. intros _.
    rewrite Hitems by lia. done.
  - injection Hs as <- <-. cbn [next_xattr_id scoutfs_item_free_batch log].
    split; [congruence|]. split; [lia|done].
Qed.

Lemma kmalloc_spec E bytes st xat st' :
  kmalloc E bytes st = (xat, st') →
  st' = log (EvKmalloc bytes) st ∧
  ∀ x, xat = Some x → length x = Z.to_nat bytes.
Proof.
  unfold kmalloc. intros H. injection H as <- <-. split; [done|].
  intros x. destruct (fault E _); [done|].
  intros Hx. injection Hx as <-. by rewrite length_map, length_seq.
Qed.



(** ** The mutation orchestrator over a well-formed store *)

Lemma index_round_ff E busy st :
  fault_free E → (index_round E busy st).1 = if busy then 1 else 0.
Proof.
  intros HE. unfold index_round, call. rewrite !HE. simpl.
  by destruct busy.
Qed.

Lemma index_retry_ff E n : ∀ st, fault_free E → (index_retry E n st).1 = 0.
Proof.
  induction n as [|n IH]; intros st HE; cbn [index_retry].
  - by rewrite index_round_ff.
  - pose proof (index_round_ff E true st HE) as Hr.
    destruct (index_round E true st) as [r st1]. simpl in Hr. subst r.
    simpl. by apply IH.
Qed.

(** What the lookup of scoutfs_xattr_set finds. *)
Lemma set_find E ino bound name (xat : list byte) st :
  fault_free E →
  wf_xattrs (items st) ino bound → bound <= U64_MAX →
  name ≠ [] → Z.of_nat (length name) <= SCOUTFS_XATTR_MAX_NAME_LEN →
  sizeof_scoutfs_xattr + Z.of_nat (length name) <= Z.of_nat (length xat) →
  ∃ r key xat1 st1,
    get_next_xattr E ino xat
      (sizeof_scoutfs_xattr + Z.of_nat (length name)) name
      (Z.of_nat (length name)) 0 0 st = Some (r, key, xat1, st1) ∧
    ((r = - ENOENT ∧
      ∀ id V, valid_xattr name V →
              xattr_head (items st) ino id name V → False) ∨
     (r = sizeof_scoutfs_xattr + Z.of_nat (length name) ∧
      ∃ id V, valid_xattr name V ∧ xattr_at (items st) ino id name V ∧
              skx_name_hash key = name_hash_of name ∧ skx_id key = id ∧
              xattr_nr_parts xat1 = nr_parts_of name V)).
Proof.
  intros HE [Hwf Hcomp] Hbound Hne Hnl Hxat.
  destruct (head_decide (items st) ino bound name
              (keys_from (part_key ino (name_hash_of name) 0 0) (items st))
              Hwf Hbound 0 ltac:(lia) ltac:(lia))
    as [(id & V0 & _ & Hv0 & Hh0)|Habs].
  - destruct (Hcomp _ _ _ Hv0 Hh0) as (V & Hv & Hat).
    destruct (lookup_hit E HE ino bound Hbound
                (sizeof_scoutfs_xattr + Z.of_nat (length name)) name Hne Hnl
                ltac:(lia) xat st V id Hwf ltac:(lia) Hv
                (xattr_at_head _ _ _ _ _ Hv Hat))
      as (pf & xat1 & st1 & Hget & Htake & _).
    { intros q Hq _. apply Hat. lia. }
    pose proof (length_xattr_encode name V) as HL.
    unfold sizeof_scoutfs_xattr in *.
    rewrite Z.min_l in Hget, Htake by lia.
    destruct (header_of_prefix xat1
                (Z.to_nat (3 + Z.of_nat (length name))) name V
                ltac:(lia) Htake Hv) as (H1 & H2).
    eexists _, _, _, _. split; [exact Hget|]. right. split; [done|].
    exists id, V. split; [done|]. split; [done|]. split; [done|].
    split; [done|]. unfold xattr_nr_parts, nr_parts_of. by rewrite H1, H2.
  - destruct (lookup_miss E HE ino bound Hbound
                (sizeof_scoutfs_xattr + Z.of_nat (length name)) name Hne Hnl
                ltac:(lia) xat st Hwf ltac:(lia))
      as (k & xat1 & st1 & Hget).
    { intros id V Hv Hh. eapply (Habs id V); [|done|done].
      destruct (head_in_range _ _ _ Hwf Hbound _ _ _ Hh). lia. }
    eexists _, _, _, _. split; [exact Hget|]. left. split; [done|].
    intros id V Hv Hh. eapply (Habs id V); [|done|done].
    destruct (head_in_range _ _ _ Hwf Hbound _ _ _ Hh). lia.
Qed.

Lemma xattr_set_trans_ok E ino key fp V id (xat : list byte) bytes st st' :
  xattr_set_trans E ino key fp (Some V) id xat bytes st = Some (0, st') →
  Z.of_nat (length xat) = bytes → 1 <= bytes <= 65793 →
  0 <= fp <= 255 →
  (fp ≠ 0 → 0 <= skx_name_hash key < U32_MOD) →
  let h := xattr_name_hash (xat_name xat) (xat_name_len xat) mod U32_MOD in
  let N := (bytes + SCOUTFS_XATTR_MAX_PART_SIZE - 1)
             / SCOUTFS_XATTR_MAX_PART_SIZE in
  let old := if decide (fp = 0) then None
             else Some (skx_name_hash key, skx_id key, fp) in
  replaced (items st) (items st') ino old h id xat N ∧
  next_xattr_id st' = next_xattr_id st ∧
  (∀ q, 0 <= q < N →
        match old with
        | Some (h0, id0, np0) =>
            ¬ in_parts ino h0 id0 0 np0 (part_key ino h id q) →
            items st !! part_key ino h id q = None
        | None => items st !! part_key ino h id q = None
        end) ∧
  (fp ≠ 0 → ∀ q, 0 <= q < fp →
     is_Some (items st !! part_key ino (skx_name_hash key) (skx_id key) q)).
Proof.
  unfold xattr_set_trans. intros Hs Hlen Hb Hfp Hkh. cbv zeta.
  destruct (parts_count_bounds bytes Hb) as (HN & HN1).
  set (N := (bytes + SCOUTFS_XATTR_MAX_PART_SIZE - 1)
             / SCOUTFS_XATTR_MAX_PART_SIZE) in *.
  set (h := xattr_name_hash (xat_name xat) (xat_name_len xat) mod U32_MOD).
  destruct (call E EvDirtyInode st) as [r0 st0] eqn:Hcall.
  assert (Hst0 : st0 = log EvDirtyInode st)
    by (unfold call in Hcall; congruence).
  subst st0.
  destruct (Z.ltb_spec r0 0) as [Hr0|Hr0].
  { injection Hs as -> _. lia. }
  destruct (if negb (fp =? 0)
            then delete_xattr_items E ino (skx_name_hash key) (skx_id key)
                   fp [] (log EvDirtyInode st)
            else Some (0, [], log EvDirtyInode st))
    as [[[rd saved] std]|] eqn:Hd; [|done].
  cbn [mbind option_bind] in Hs.
  rewrite bool_decide_eq_true_2 in Hs by eauto. cbn [andb] in Hs.
  destruct (Z.eqb_spec rd 0) as [->|Hrd].
  2: { cbn [mbind option_bind] in Hs.
       assert (Hle : rd <= 0).
       { destruct (negb (fp =? 0)).
         - unfold delete_xattr_items in Hd.
           apply delete_loop_inv in Hd as (_ & _ & Hle);
             [lia|intros kv Hkv; inversion Hkv].
         - injection Hd as Hd. lia. }
       rewrite (proj2 (Z.ltb_lt rd 0)) in Hs by lia.
       injection Hs as Hc. lia. }
  destruct (create_xattr_items E ino id xat bytes std)
    as [[rc stc]|] eqn:Hc; [|done].
  cbn [mbind option_bind] in Hs.
  unfold create_xattr_items in Hc.
  change (init_xattr_key ino ?hh id)
    with (part_key ino (hh mod U32_MOD) id 0) in Hc.
  fold h in Hc.
  destruct (create_loop_spec E ino h id xat bytes N _ Hlen HN ltac:(lia)
              _ _ _ _ _ Hc ltac:(lia) ltac:(lia)) as (Hc1 & Hc2 & _ & Hc4).
  destruct (Z.ltb_spec rc 0) as [Hlt|Hge].
  { injection Hs as Hs _. lia. }
  assert (rc = 0) as -> by lia.
  injection Hs as <-. cbn [items next_xattr_id log scoutfs_item_free_batch].
  destruct (Hc4 eq_refl) as [Habs Hpt].
  destruct (decide (fp = 0)) as [->|Hfp0].
  - simpl in Hd. injection Hd as <- <-. cbn [items log] in *.
    split; [exact Hpt|]. split; [by rewrite Hc1|]. split; [exact Habs|done].
  - rewrite (proj2 (Z.eqb_neq fp 0)) in Hd by done. cbn [negb] in Hd.
    unfold delete_xattr_items in Hd.
    change (init_xattr_key ino ?hh ?ii)
      with (part_key ino (hh mod U32_MOD) ii 0) in Hd.
    rewrite (Z.mod_small (skx_name_hash key)) in Hd by auto.
    pose proof (delete_loop_inv _ _ _ _ _ _ _ _ _ Hd
                  ltac:(intros kv Hkv; inversion Hkv)) as (_ & Hnx & _).
    destruct (delete_loop_ok _ _ _ _ _ _ _ _ _ _ _ Hd ltac:(lia) ltac:(lia))
      as (Hpres & Hdpt).
    cbn [items log next_xattr_id] in Hpres, Hdpt, Hnx.
    split.
    { intros k. rewrite Hpt. destruct (decide (in_parts ino h id 0 N k));
        [done|]. apply Hdpt. }
    split; [congruence|]. split; [|intros _; exact Hpres].
    intros q Hq Hnin. specialize (Habs q Hq). rewrite Hdpt in Habs.
    by rewrite decide_False in Habs.
Qed.

Lemma in_parts_part_key_iff ino h id lo hi h' id' q :
  in_parts ino h id lo hi (part_key ino h' id' q) ↔
  h' = h ∧ id' = id ∧ lo <= q < hi.
Proof.
  unfold in_parts. cbn [skx_part part_key]. split.
  - intros [Heq Hq]. injection Heq as -> ->. done.
  - intros (-> & -> & Hq). done.
Qed.

Lemma wf_replaced m m' ino b name V old :
  wf_xattrs m ino b → 0 <= b →
  valid_xattr name V →
  replaced m m' ino old (name_hash_of name) b (xattr_encode name V)
    (nr_parts_of name V) →
  match old with
  | Some (h0, id0, np0) =>
      h0 = name_hash_of name ∧
      ∃ V0, valid_xattr name V0 ∧ xattr_at m ino id0 name V0 ∧
            np0 = nr_parts_of name V0
  | None => ∀ id V0, valid_xattr name V0 → xattr_head m ino id name V0 → False
  end →
  wf_xattrs m' ino (b + 1) ∧ xattr_at m' ino b name V.
Proof.
  intros [Hwf Hcomp] Hb Hv Hrep Hold.
  destruct (nr_parts_bounds name V Hv) as (HN & _).
  set (h := name_hash_of name) in *.
  set (N := nr_parts_of name V) in *.
  set (enc := xattr_encode name V) in *.
  assert (Hnew : ∀ q, 0 <= q < N →
            m' !! part_key ino h b q = Some (xattr_part enc q)).
  { intros q Hq. rewrite Hrep. rewrite decide_True; [done|].
    apply in_parts_part_key_iff. lia. }
  assert (Hkeep : ∀ h1 id1 q v,
            m' !! part_key ino h1 id1 q = Some v →
            ¬ (h1 = h ∧ id1 = b) →
            m !! part_key ino h1 id1 q = Some v ∧
            match old with
            | Some (h0, id0, np0) => ¬ (h1 = h0 ∧ id1 = id0 ∧ 0 <= q < np0)
            | None => True
            end).
  { intros h1 id1 q v Hk Hnn. rewrite Hrep in Hk.
    rewrite decide_False in Hk
      by (rewrite in_parts_part_key_iff; tauto).
    destruct old as [[[h0 id0] np0]|]; [|done].
    destruct (decide (in_parts ino h0 id0 0 np0 (part_key ino h1 id1 q)))
      as [Hin|Hin]; [done|].
    split; [done|]. rewrite in_parts_part_key_iff in Hin. tauto. }
  assert (Hold_id : ∀ h1 id1 q v,
            m !! part_key ino h1 id1 q = Some v → ¬ (h1 = h ∧ id1 = b)).
  { intros h1 id1 q v Hk [-> ->].
    destruct (wf_part _ _ _ Hwf _ _ Hk (part_key_is_xattr_key _ _ _ _))
      as (? & ? & _ & _ & _ & _ & Hid).
    cbn [skx_id part_key] in Hid. lia. }
  assert (Hsame : ∀ h1 id1 q,
            ¬ (h1 = h ∧ id1 = b) →
            match old with
            | Some (h0, id0, np0) => ¬ (h1 = h0 ∧ id1 = id0)
            | None => True
            end →
            m' !! part_key ino h1 id1 q = m !! part_key ino h1 id1 q).
  { intros h1 id1 q Hnn Hno. rewrite Hrep.
    rewrite decide_False by (rewrite in_parts_part_key_iff; tauto).
    destruct old as [[[h0 id0] np0]|]; [|done].
    rewrite decide_False; [done|]. rewrite in_parts_part_key_iff. tauto. }
  split; [|intros q Hq; by apply Hnew].
  split; [split|].
  - (* every item is a part of an instance *)
    intros k v Hk Hx. rewrite (is_xattr_key_eq _ _ Hx) in Hk.
    destruct (decide (skx_name_hash k = h ∧ skx_id k = b)) as [[Hkh Hkid]|Hnn].
    + rewrite Hkh, Hkid in Hk. exists name, V.
      split; [done|]. split; [done|]. rewrite Hkid.
      split; [apply Hnew; lia|].
      split; [|lia]. rewrite Hrep in Hk.
      destruct (decide (in_parts ino h b 0 N
                  (part_key ino h b (skx_part k)))) as [Hin|Hin].
      * apply in_parts_part_key_iff in Hin. lia.
      * exfalso. destruct old as [[[h0 id0] np0]|].
        -- destruct (decide _); [done|].
           eapply Hold_id; [exact Hk|done].
        -- eapply Hold_id; [exact Hk|done].
    + destruct (Hkeep _ _ _ _ Hk Hnn) as [Hkm Hkold].
      destruct (wf_part _ _ _ Hwf _ _ Hkm (part_key_is_xattr_key _ _ _ _))
        as (n1 & V1 & Hv1 & Hh1 & Hhd1 & Hp1 & Hid1).
      cbn [skx_name_hash skx_id skx_part part_key] in Hh1, Hhd1, Hp1, Hid1.
      exists n1, V1. split; [done|]. split; [done|].
      split; [|split; [done|lia]].
      unfold xattr_head in *. rewrite <- Hh1 in *.
      rewrite Hsame; [done|done|].
      destruct old as [[[h0 id0] np0]|]; [|done].
      intros [Hh0 Hid0]. apply Hkold.
      split; [done|]. split; [done|].
      destruct Hold as (Hh0' & V0 & Hv0 & Hat0 & Hnp0).
      assert (Hhead0 : xattr_head m ino id0 name V0)
        by (by apply xattr_at_head).
      unfold xattr_head in Hhead0. fold h in Hhead0.
      rewrite <- Hh0', <- Hh0, <- Hid0 in Hhead0.
      rewrite Hhd1 in Hhead0. injection Hhead0 as Hp0.
      destruct (part0_name_inj _ _ _ _ Hv1 Hv0 Hp0) as [-> Hlen].
      rewrite Hnp0. unfold nr_parts_of in *. rewrite <- Hlen. done.
  - (* an exact name has at most one instance *)
    assert (Hnew_name : ∀ id n v, valid_xattr n v →
              xattr_head m' ino id n v →
              name_hash_of n = h ∧ id = b → n = name).
    { intros id n v Hvn Hhd [Hhn ->]. unfold xattr_head in Hhd.
      rewrite Hhn, (Hnew 0) in Hhd by lia. injection Hhd as Hp.
      by destruct (part0_name_inj _ _ _ _ Hv Hvn Hp). }
    assert (Hold_head : ∀ id n v, valid_xattr n v →
              xattr_head m' ino id n v →
              ¬ (name_hash_of n = h ∧ id = b) →
              xattr_head m ino id n v ∧ n ≠ name).
    { intros id n v Hvn Hhd Hnn. unfold xattr_head in *.
      destruct (Hkeep _ _ _ _ Hhd Hnn) as [Hkm Hkold].
      split; [done|]. intros ->. fold h in Hkm, Hkold.
      destruct old as [[[h0 id0] np0]|].
      - destruct Hold as (Hh0' & V0 & Hv0 & Hat0 & Hnp0).
        assert (id = id0).
        { eapply (wf_unique _ _ _ Hwf id id0 name v V0); eauto.
          by apply xattr_at_head. }
        subst id. apply Hkold. split; [done|]. split; [done|].
        destruct (nr_parts_bounds name V0 Hv0). lia.
      - by eapply Hold. }
    intros id1 id2 n v1 v2 Hv1 Hv2 Hh1 Hh2.
    destruct (decide (name_hash_of n = h ∧ id1 = b)) as [Hn1|Hn1];
      destruct (decide (name_hash_of n = h ∧ id2 = b)) as [Hn2|Hn2].
    + lia.
    + pose proof (Hnew_name _ _ _ Hv1 Hh1 Hn1).
      destruct (Hold_head _ _ _ Hv2 Hh2 Hn2). done.
    + pose proof (Hnew_name _ _ _ Hv2 Hh2 Hn2).
      destruct (Hold_head _ _ _ Hv1 Hh1 Hn1). done.
    + destruct (Hold_head _ _ _ Hv1 Hh1 Hn1) as [Ha _].
      destruct (Hold_head _ _ _ Hv2 Hh2 Hn2) as [Hb' _].
      exact (wf_unique _ _ _ Hwf id1 id2 n v1 v2 Hv1 Hv2 Ha Hb').
  - (* every instance has all its parts *)
    intros id n v Hvn Hhd.
    destruct (decide (name_hash_of n = h ∧ id = b)) as [[Hhn ->]|Hnn].
    + assert (n = name) as ->.
      { unfold xattr_head in Hhd. rewrite Hhn, (Hnew 0) in Hhd by lia.
        injection Hhd as Hp.
        by destruct (part0_name_inj _ _ _ _ Hv Hvn Hp). }
      exists V. split; [done|]. intros q Hq. by apply Hnew.
    + unfold xattr_head in Hhd.
      destruct (Hkeep _ _ _ _ Hhd Hnn) as [Hkm Hkold].
      destruct (Hcomp _ _ _ Hvn Hkm) as (v' & Hv' & Hat').
      exists v'. split; [done|]. intros q Hq.
      rewrite Hsame; [by apply Hat'|done|].
      destruct old as [[[h0 id0] np0]|]; [|done].
      intros [Hh0 Hid0]. apply Hkold. split; [done|]. split; [done|].
      destruct Hold as (Hh0' & V0 & Hv0 & Hat0 & Hnp0).
      destruct (nr_parts_bounds name V0 Hv0). lia.
Qed.

Lemma encode_name_hash name V :
  valid_xattr name V →
  xattr_name_hash (xat_name (xattr_encode name V))
    (xat_name_len (xattr_encode name V)) mod U32_MOD
  = name_hash_of name.
Proof.
  intros Hv.
  destruct (header_of_prefix (xattr_encode name V) 3 name V ltac:(lia)
              eq_refl Hv) as [Hnl _].
  rewrite Hnl. unfold xattr_name_hash. rewrite Nat2Z.id.
  assert (Hn : take (length name) (xat_name (xattr_encode name V)) = name).
  { apply (name_of_prefix _ (length (xattr_encode name V)) name V); [|done].
    pose proof (length_xattr_encode name V).
    unfold sizeof_scoutfs_xattr in *. lia. }
  rewrite Hn. apply Z.mod_small. apply name_hash_of_range.
Qed.

Lemma xattr_set_locked_post E ino name V flags (xat : list byte) st st' :
  fault_free E →
  wf_fs st ino → next_xattr_id st < U64_MAX →
  name ≠ [] → valid_xattr name V →
  Z.of_nat (length xat)
  = sizeof_scoutfs_xattr + Z.of_nat (length name) + Z.of_nat (length V) →
  xattr_set_locked E ino name (Some V) (Z.of_nat (length V)) flags xat
    (sizeof_scoutfs_xattr + Z.of_nat (length name) + Z.of_nat (length V)) st
    = Some (0, st') →
  wf_xattrs (items st') ino (next_xattr_id st + 1) ∧
  next_xattr_id st' = next_xattr_id st + 1 ∧
  xattr_at (items st') ino (next_xattr_id st) name V.
Proof.
  intros HE [Hwf Hnext] Hnx Hne Hv Hlen Hs.
  pose proof Hv as [Hv1 Hv2].
  unfold xattr_set_locked in Hs.
  destruct (set_find E ino (next_xattr_id st) name xat st HE Hwf ltac:(lia)
              Hne Hv1 ltac:(lia))
    as (r & key & xat1 & st1 & Hget & Hcase).
  rewrite Hget in Hs. cbn [mbind option_bind] in Hs.
  pose proof (get_next_xattr_reads _ _ _ _ _ _ _ _ _ _ _ _ _ Hget)
    as (Hi1 & Hn1 & _).
  pose proof (get_next_xattr_length _ _ _ _ _ _ _ _ _ _ _ _ _ Hget) as Hl1.
  specialize (Hl1 ltac:(unfold sizeof_scoutfs_xattr in *; lia)).
  rewrite bool_decide_eq_true_2 in Hs by eauto. cbn [negb] in Hs.
  rewrite andb_false_r in Hs.
  unfold SCOUTFS_XATTR_MAX_NAME_LEN, SCOUTFS_XATTR_MAX_VAL_LEN,
    sizeof_scoutfs_xattr in *.
  set (bytes := 3 + Z.of_nat (length name) + Z.of_nat (length V)) in *.
  assert (Hprep : prepare_xattr xat1 name (Z.of_nat (length name)) V
                    (Z.of_nat (length V)) = xattr_encode name V).
  { apply prepare_xattr_encode; [|done].
    unfold sizeof_scoutfs_xattr. rewrite Hl1. exact Hlen. }
  rewrite Hprep in Hs.
  assert (Hmod : (next_xattr_id st1 + 1) mod U64_MOD = next_xattr_id st + 1).
  { rewrite Hn1. apply Z.mod_small. unfold U64_MOD, U64_MAX in *. lia. }
  rewrite Hmod in Hs.
  set (st2 := mk_fs (items st1) (next_xattr_id st + 1) (trace st1)) in *.
  pose proof (index_retry_ff E (busy_rounds E) st2 HE) as Hr3.
  pose proof (index_retry_state E (busy_rounds E) st2) as [Hi3 Hn3].
  destruct (index_retry E (busy_rounds E) st2) as [r3 st3].
  simpl in Hr3, Hi3, Hn3. subst r3. cbn [Z.eqb negb] in Hs.
  assert (Hfin : ∀ fp,
    (if (r <? 0) && negb (r =? - ENOENT) then Some (r, st1)
     else if (r =? - ENOENT) && negb (Z.land flags XATTR_REPLACE =? 0)
     then Some (- ENODATA, st1)
     else if (0 <=? r) && negb (Z.land flags XATTR_CREATE =? 0)
     then Some (- EEXIST, st1)
     else if false then Some (0, st1)
     else
       xattr_set_trans E ino key fp (Some V) (next_xattr_id st1)
         (xattr_encode name V) bytes st3
       ≫= λ '(ret, st), Some (ret, log EvIndexUnlock (log EvReleaseTrans st)))
    = Some (0, st') →
    ∃ st4, xattr_set_trans E ino key fp (Some V) (next_xattr_id st)
             (xattr_encode name V) bytes st3 = Some (0, st4) ∧
           st' = log EvIndexUnlock (log EvReleaseTrans st4) ∧
           ((r <? 0) && negb (r =? - ENOENT) = false) ∧
           ((r =? - ENOENT) && negb (Z.land flags XATTR_REPLACE =? 0)
              = false) ∧
           ((0 <=? r) && negb (Z.land flags XATTR_CREATE =? 0) = false)).
  { intros fp Hf.
    destruct ((r <? 0) && negb (r =? - ENOENT)).
    { destruct Hcase as [[-> _]|[-> _]]; injection Hf as Hf;
        unfold ENOENT in *; lia. }
    destruct ((r =? - ENOENT) && negb (Z.land flags XATTR_REPLACE =? 0)).
    { injection Hf as Hf. unfold ENODATA in Hf. lia. }
    destruct ((0 <=? r) && negb (Z.land flags XATTR_CREATE =? 0)).
    { injection Hf as Hf. unfold EEXIST in Hf. lia. }
    rewrite Hn1 in Hf.
    destruct (xattr_set_trans E ino key fp (Some V) (next_xattr_id st)
                (xattr_encode name V) bytes st3) as [[r4 st4]|]; [|done].
    cbn [mbind option_bind] in Hf. injection Hf as -> <-.
    by exists st4. }
  apply Hfin in Hs as (st4 & Htr & -> & Hc1 & Hc2 & Hc3). clear Hfin.
  cbn [items log next_xattr_id].
  pose proof (length_xattr_encode name V) as HL.
  unfold sizeof_scoutfs_xattr in HL. fold bytes in HL.
  destruct Hcase as [[-> Habs]|(-> & id0 & V0 & Hv0 & Hat0 & Hkh & Hkid & Hnp)].
  - (* no instance of the name yet *)
    change (0 <=? - ENOENT) with false in Htr.
    destruct (xattr_set_trans_ok E ino key 0 V _ _ bytes st3 _ Htr HL
                ltac:(unfold bytes; lia) ltac:(lia) ltac:(done))
      as (Hrep & Hn4 & _).
    rewrite decide_True in Hrep by done.
    rewrite encode_name_hash in Hrep by done.
    change ((bytes + SCOUTFS_XATTR_MAX_PART_SIZE - 1)
              / SCOUTFS_XATTR_MAX_PART_SIZE)
      with (nr_parts_of name V) in Hrep.
    rewrite Hi3 in Hrep. cbn [items st2] in Hrep. rewrite Hi1 in Hrep.
    destruct (wf_replaced _ _ _ _ _ _ None Hwf ltac:(lia) Hv Hrep Habs)
      as [Hwf' Hat'].
    split; [done|]. split; [|done]. rewrite Hn4, Hn3. done.
  - (* the name has an instance, which is replaced *)
    destruct (nr_parts_bounds name V0 Hv0) as (HN0 & _).
    rewrite (proj2 (Z.leb_le 0 _)) in Htr by lia.
    rewrite Hnp in Htr.
    rewrite (Z.mod_small (nr_parts_of name V0)) in Htr
      by (unfold U8_MOD; lia).
    destruct (xattr_set_trans_ok E ino key _ V _ _ bytes st3 _ Htr HL
                ltac:(unfold bytes; lia) ltac:(lia)
                ltac:(intros _; rewrite Hkh; apply name_hash_of_range))
      as (Hrep & Hn4 & _).
    rewrite decide_False in Hrep by lia.
    rewrite encode_name_hash in Hrep by done.
    change ((bytes + SCOUTFS_XATTR_MAX_PART_SIZE - 1)
              / SCOUTFS_XATTR_MAX_PART_SIZE)
      with (nr_parts_of name V) in Hrep.
    rewrite Hi3 in Hrep. cbn [items st2] in Hrep. rewrite Hi1 in Hrep.
    rewrite Hkh, Hkid in Hrep.
    destruct (wf_replaced _ _ _ _ _ _ _ Hwf ltac:(lia) Hv Hrep
                ltac:(split; [done|]; exists V0; done))
      as [Hwf' Hat'].
    split; [done|]. split; [|done]. rewrite Hn4, Hn3. done.
Qed.

Lemma xattr_set_unfold_ff E ino name value size flags st :
  fault_free E →
  Z.of_nat (length name) <= SCOUTFS_XATTR_MAX_NAME_LEN →
  (is_Some value → size <= SCOUTFS_XATTR_MAX_VAL_LEN) →
  flags_ok flags → unknown_prefix name = false →
  0 <= size <= XATTR_SIZE_MAX →
  let bytes := sizeof_scoutfs_xattr + Z.of_nat (length name) + size in
  scoutfs_xattr_set E ino name value size flags st
  = xattr_set_locked E ino name value size flags
      (map (junk E) (seq 0 (Z.to_nat bytes))) bytes (set_entry bytes st)
    ≫= λ '(ret, st), Some (ret, set_exit st).
Proof.
  intros HE Hn Hv Hf Hp Hs. cbv zeta. unfold scoutfs_xattr_set.
  rewrite (proj2 (Z.ltb_ge _ _)) by lia.
  assert (Hbig : bool_decide (is_Some value) &&
                 (SCOUTFS_XATTR_MAX_VAL_LEN <? size) = false).
  { destruct (bool_decide (is_Some value)) eqn:Hb; [|done].
    apply bool_decide_eq_true in Hb. simpl. apply Z.ltb_ge. auto. }
  rewrite Hbig. unfold flags_ok in Hf. rewrite Hf, Hp.
  unfold SCOUTFS_XATTR_MAX_NAME_LEN, XATTR_SIZE_MAX, sizeof_scoutfs_xattr
    in *.
  rewrite Z.mod_small by (unfold U32_MOD; lia).
  rewrite kmalloc_ff, call_ff by done. done.
Qed.

Lemma absent_no_head st ino bound name :
  wf_xattrs (items st) ino bound → absent st ino name →
  ∀ id V, valid_xattr name V → xattr_head (items st) ino id name V → False.
Proof.
  intros [_ Hcomp] Habs id V Hv Hh.
  destruct (Hcomp _ _ _ Hv Hh) as (V' & Hv' & Hat).
  apply (Habs V'). split; [done|]. by exists id.
Qed.

Lemma xattr_set_locked_exists E ino bound name value size flags
    (xat : list byte) bytes st V0 :
  fault_free E →
  wf_xattrs (items st) ino bound → bound <= U64_MAX →
  name ≠ [] → Z.of_nat (length name) <= SCOUTFS_XATTR_MAX_NAME_LEN →
  sizeof_scoutfs_xattr + Z.of_nat (length name) <= Z.of_nat (length xat) →
  stored st ino name V0 →
  Z.land flags XATTR_CREATE ≠ 0 →
  ∃ st', xattr_set_locked E ino name value size flags xat bytes st
         = Some (- EEXIST, st') ∧ reads_only st st'.
Proof.
  intros HE Hwf Hb Hne Hnl Hxat (Hv0 & id0 & Hat0) Hfl.
  destruct (set_find E ino bound name xat st HE Hwf Hb Hne Hnl Hxat)
    as (r & key & xat1 & st1 & Hget & Hcase).
  unfold xattr_set_locked. rewrite Hget. cbn [mbind option_bind].
  pose proof (get_next_xattr_reads _ _ _ _ _ _ _ _ _ _ _ _ _ Hget) as Hro.
  destruct Hcase as [[-> Habs]|[-> _]].
  { exfalso. eapply Habs; [exact Hv0|]. by apply xattr_at_head. }
  unfold sizeof_scoutfs_xattr.
  rewrite (proj2 (Z.ltb_ge _ 0)) by lia. cbn [andb].
  rewrite (proj2 (Z.eqb_neq _ (- ENOENT))) by (unfold ENOENT; lia).
  cbn [andb].
  rewrite (proj2 (Z.leb_le 0 _)) by lia.
  rewrite (proj2 (Z.eqb_neq _ 0)) by done. cbn [andb negb].
  by exists st1.
Qed.

Lemma xattr_set_locked_absent E ino bound name value size flags
    (xat : list byte) bytes st :
  fault_free E →
  wf_xattrs (items st) ino bound → bound <= U64_MAX →
  name ≠ [] → Z.of_nat (length name) <= SCOUTFS_XATTR_MAX_NAME_LEN →
  sizeof_scoutfs_xattr + Z.of_nat (length name) <= Z.of_nat (length xat) →
  absent st ino name →
  Z.land flags XATTR_REPLACE ≠ 0 →
  ∃ st', xattr_set_locked E ino name value size flags xat bytes st
         = Some (- ENODATA, st') ∧ reads_only st st'.
Proof.
  intros HE Hwf Hb Hne Hnl Hxat Habs Hfl.
  destruct (set_find E ino bound name xat st HE Hwf Hb Hne Hnl Hxat)
    as (r & key & xat1 & st1 & Hget & Hcase).
  unfold xattr_set_locked. rewrite Hget. cbn [mbind option_bind].
  pose proof (get_next_xattr_reads _ _ _ _ _ _ _ _ _ _ _ _ _ Hget) as Hro.
  destruct Hcase as [[-> _]|(-> & id & V & Hv & Hat & _)].
  2: { exfalso. apply (Habs V). split; [done|]. by exists id. }
  change (- ENOENT <? 0) with true.
  rewrite Z.eqb_refl. cbn [andb negb].
  rewrite (proj2 (Z.eqb_neq _ 0)) by done. cbn [negb].
  by exists st1.
Qed.

Lemma xattr_set_post E ino name V flags st st' :
  fault_free E →
  wf_fs st ino → next_xattr_id st < U64_MAX →
  valid_xattr name V →
  scoutfs_xattr_set E ino name (Some V) (Z.of_nat (length V)) flags st
    = Some (0, st') →
  wf_fs st' ino ∧ next_xattr_id st' = next_xattr_id st + 1 ∧
  xattr_at (items st') ino (next_xattr_id st) name V.
Proof.
  intros HE Hwf Hnx Hv Hs. pose proof Hv as [Hv1 Hv2].
  pose proof Hwf as [_ Hnext].
  unfold scoutfs_xattr_set in Hs.
  rewrite (proj2 (Z.ltb_ge _ _)) in Hs by lia.
  rewrite (proj2 (Z.ltb_ge _ _)) in Hs by lia.
  rewrite andb_false_r in Hs.
  destruct (_ || _); [by injection Hs|].
  destruct (unknown_prefix name) eqn:Hp; [by injection Hs|].
  unfold SCOUTFS_XATTR_MAX_NAME_LEN, SCOUTFS_XATTR_MAX_VAL_LEN,
    sizeof_scoutfs_xattr in *.
  rewrite Z.mod_small in Hs by (unfold U32_MOD; lia).
  rewrite kmalloc_ff, call_ff in Hs by done. cbn [Z.eqb negb] in Hs.
  set (bytes := 3 + Z.of_nat (length name) + Z.of_nat (length V)) in *.
  destruct (xattr_set_locked E ino name (Some V) (Z.of_nat (length V)) flags
              _ bytes _) as [[r st1]|] eqn:Hl; [|done].
  cbn [mbind option_bind] in Hs. injection Hs as -> <-.
  assert (Hlenx : Z.of_nat (length (map (junk E) (seq 0 (Z.to_nat bytes))))
                  = sizeof_scoutfs_xattr + Z.of_nat (length name)
                    + Z.of_nat (length V)).
  { rewrite length_map, length_seq. unfold sizeof_scoutfs_xattr, bytes.
    lia. }
  destruct (xattr_set_locked_post E ino name V flags _
              (set_entry bytes st) _ HE Hwf Hnx
              (known_prefix_nonempty _ Hp) Hv Hlenx Hl) as (H1 & H2 & H3).
  change (next_xattr_id (set_entry bytes st)) with (next_xattr_id st)
    in H1, H2, H3.
  unfold wf_fs. cbn [items log next_xattr_id].
  rewrite H2. split; [|by split].
  split; [done|]. unfold U64_MAX in *. lia.
Qed.

Lemma wf_fs_empty ino tr : wf_fs (mk_fs ∅ 0 tr) ino.
Proof.
  split; [split; [split|]|cbn; unfold U64_MAX; lia].
  - intros k v Hk. cbn in Hk. by rewrite lookup_empty in Hk.
  - intros id1 id2 name v1 v2 _ _ Hh. unfold xattr_head in Hh. cbn in Hh.
    by rewrite lookup_empty in Hh.
  - intros id name value _ Hh. unfold xattr_head in Hh. cbn in Hh.
    by rewrite lookup_empty in Hh.
Qed.

Lemma setxattr_stored E ino name V flags st st' :
  fault_free E →
  wf_fs st ino → next_xattr_id st < U64_MAX →
  valid_xattr name V →
  scoutfs_setxattr E ino name (Some V) (Z.of_nat (length V)) flags st
    = Some (0, st') →
  wf_fs st' ino ∧ stored st' ino name V ∧
  xattr_at (items st') ino (next_xattr_id st) name V.
Proof.
  intros HE Hwf Hnx Hv Hs. unfold scoutfs_setxattr in Hs. cbv zeta in Hs.
  assert (Hval : (if Z.of_nat (length V) =? 0 then Some [] else Some V)
                 = Some V).
  { destruct (Z.eqb_spec (Z.of_nat (length V)) 0) as [H0|H0]; [|done].
    destruct V; [done|simpl in H0; lia]. }
  rewrite Hval in Hs.
  destruct (xattr_set_post E ino name V flags st st' HE Hwf Hnx Hv Hs)
    as (Hwf' & _ & Hat).
  split; [done|]. split; [|done]. split; [done|]. by eexists.
Qed.

(** ** Properties of get, set and remove *)

(** C10: remove(name) is the set orchestrator called with no value, size 0
    and exactly the REPLACE flag: same result code and same final state,
    from any starting state and in any environment. *)
Theorem removexattr_is_set_replace E ino name st :
  scoutfs_removexattr E ino name st
  = scoutfs_xattr_set E ino name None 0 XATTR_REPLACE st.
Proof. reflexivity. Qed.

(** C7: for a stored xattr with value V, get with a buffer size s with
    0 < s < len(V) returns -ERANGE and writes nothing into the caller's
    buffer; get with s = 0 returns len(V), again writing nothing. *)
Theorem getxattr_buffer_too_small E ino name V st :
  fault_free E → wf_fs st ino →
  unknown_prefix name = false →
  stored st ino name V →
  (∀ s, 0 < s < Z.of_nat (length V) →
        ∃ st', scoutfs_getxattr E ino name s st
               = Some (- ERANGE, [], st')) ∧
  (∃ st', scoutfs_getxattr E ino name 0 st
          = Some (Z.of_nat (length V), [], st')).
Proof.
  intros HE [[Hwf _] Hnext] Hp Hst. pose proof Hst as [[_ Hv2] _].
  unfold SCOUTFS_XATTR_MAX_VAL_LEN in Hv2. split.
  - intros s Hs.
    destruct (getxattr_stored E ino _ name V s st HE Hwf (proj2 Hnext) Hp
                Hst ltac:(unfold XATTR_SIZE_MAX; lia))
      as (st' & Hget & _).
    exists st'. rewrite Hget. unfold getxattr_result.
    rewrite decide_False by lia. by rewrite decide_True by lia.
  - destruct (getxattr_stored E ino _ name V 0 st HE Hwf (proj2 Hnext) Hp
                Hst ltac:(unfold XATTR_SIZE_MAX; lia))
      as (st' & Hget & _).
    exists st'. by rewrite Hget.
Qed.

(** C1: after a successful set(name, V) with name and V within the limits,
    get(name) with a buffer of size >= len(V) returns exactly the bytes of
    V and the return value len(V). *)
Theorem set_get_round_trip E E' ino name V flags size st st' :
  fault_free E → fault_free E' →
  wf_fs st ino → next_xattr_id st < U64_MAX →
  unknown_prefix name = false → valid_xattr name V →
  scoutfs_setxattr E ino name (Some V) (Z.of_nat (length V)) flags st
    = Some (0, st') →
  Z.of_nat (length V) <= size <= XATTR_SIZE_MAX →
  ∃ st'', scoutfs_getxattr E' ino name size st'
          = Some (Z.of_nat (length V), V, st'').
Proof.
  intros HE HE' Hwf Hnx Hp Hv Hset Hsize.
  unfold scoutfs_setxattr in Hset.
  assert (Hval : (if Z.of_nat (length V) =? 0 then Some [] else Some V)
                 = Some V).
  { destruct (Z.eqb_spec (Z.of_nat (length V)) 0) as [H0|H0]; [|done].
    destruct V; [done|simpl in H0; lia]. }
  rewrite Hval in Hset.
  destruct (xattr_set_post E ino name V flags st st' HE Hwf Hnx Hv Hset)
    as ([[Hwf' _] Hnext'] & _ & Hat).
  destruct (getxattr_stored E' ino _ name V size st' HE' Hwf' (proj2 Hnext')
              Hp ltac:(split; [done|eauto]) ltac:(lia))
    as (st'' & Hget & _).
  exists st''. rewrite Hget. unfold getxattr_result.
  destruct (decide (size = 0)) as [->|Hs0].
  - assert (V = []) as -> by (destruct V; [done|simpl in Hsize; lia]).
    done.
  - by rewrite decide_False by lia.
Qed.


(** C5: with name and value within the limits, set with the CREATE flag
    fails with -EEXIST when the name is stored, set with the REPLACE flag
    fails with -ENODATA when it is not; neither creates or deletes an
    item. *)
Theorem set_flags_checked E ino name V st :
  fault_free E → wf_fs st ino →
  unknown_prefix name = false → valid_xattr name V →
  (∀ V0, stored st ino name V0 →
     ∃ st', scoutfs_setxattr E ino name (Some V) (Z.of_nat (length V))
              XATTR_CREATE st = Some (- EEXIST, st') ∧
            items st' = items st) ∧
  (absent st ino name →
     ∃ st', scoutfs_setxattr E ino name (Some V) (Z.of_nat (length V))
              XATTR_REPLACE st = Some (- ENODATA, st') ∧
            items st' = items st).
Proof.
  intros HE [Hwf Hnext] Hp [Hv1 Hv2].
  pose proof (known_prefix_nonempty _ Hp) as Hne.
  unfold SCOUTFS_XATTR_MAX_VAL_LEN in Hv2.
  assert (Hunf : ∀ flags, flags_ok flags →
    scoutfs_setxattr E ino name (Some V) (Z.of_nat (length V)) flags st
    = scoutfs_xattr_set E ino name
        (if Z.of_nat (length V) =? 0 then Some [] else Some V)
        (Z.of_nat (length V)) flags st) by done.
  assert (Hlen : sizeof_scoutfs_xattr + Z.of_nat (length name)
                 <= Z.of_nat (length (map (junk E) (seq 0 (Z.to_nat
                      (sizeof_scoutfs_xattr + Z.of_nat (length name)
                       + Z.of_nat (length V))))))).
  { rewrite length_map, length_seq. unfold sizeof_scoutfs_xattr. lia. }
  assert (Hvs : ∀ value : option (list byte),
            is_Some value → Z.of_nat (length V) <= SCOUTFS_XATTR_MAX_VAL_LEN)
    by (intros ? _; unfold SCOUTFS_XATTR_MAX_VAL_LEN; lia).
  assert (Hsz : 0 <= Z.of_nat (length V) <= XATTR_SIZE_MAX)
    by (unfold XATTR_SIZE_MAX; lia).
  split.
  - intros V0 Hst. rewrite Hunf by done.
    rewrite (xattr_set_unfold_ff E ino name _ _ XATTR_CREATE st HE Hv1
               (Hvs _) eq_refl Hp Hsz).
    cbv zeta.
    edestruct (xattr_set_locked_exists E ino (next_xattr_id st) name)
      as (st1 & -> & (Hi & _)); [exact HE|exact Hwf|lia|exact Hne|exact Hv1
      |exact Hlen|exact Hst|done|].
    eexists. split; [done|]. done.
  - intros Habs. rewrite Hunf by done.
    rewrite (xattr_set_unfold_ff E ino name _ _ XATTR_REPLACE st HE Hv1
               (Hvs _) eq_refl Hp Hsz).
    cbv zeta.
    edestruct (xattr_set_locked_absent E ino (next_xattr_id st) name)
      as (st1 & -> & (Hi & _)); [exact HE|exact Hwf|lia|exact Hne|exact Hv1
      |exact Hlen|exact Habs|done|].
    eexists. split; [done|]. done.
Qed.

(** C4, as amended: remove(name) of a name that is not stored fails with
    -ENODATA; it takes the lock and scans the items, but the item store is
    unchanged and no transaction is begun. *)
Theorem remove_absent_is_nodata E ino name st :
  fault_free E → wf_fs st ino →
  unknown_prefix name = false →
  Z.of_nat (length name) <= SCOUTFS_XATTR_MAX_NAME_LEN →
  absent st ino name →
  ∃ st' reads,
    scoutfs_removexattr E ino name st = Some (- ENODATA, st') ∧
    items st' = items st ∧ next_xattr_id st' = next_xattr_id st ∧
    Forall is_item_next reads ∧
    trace st'
    = [EvUnlock DLM_LOCK_EX; EvUpWrite] ++ reads
      ++ [EvDownWrite; EvLockInode DLM_LOCK_EX;
          EvKmalloc (sizeof_scoutfs_xattr + Z.of_nat (length name))]
      ++ trace st.
Proof.
  intros HE [Hwf Hnext] Hp Hnl Habs.
  pose proof (known_prefix_nonempty _ Hp) as Hne.
  unfold scoutfs_removexattr.
  rewrite (xattr_set_unfold_ff E ino name None 0 XATTR_REPLACE st HE Hnl
             ltac:(by intros [? ?]) eq_refl Hp
             ltac:(unfold XATTR_SIZE_MAX; lia)).
  cbv zeta. rewrite Z.add_0_r.
  set (bytes := sizeof_scoutfs_xattr + Z.of_nat (length name)).
  edestruct (xattr_set_locked_absent E ino (next_xattr_id st) name None 0
               XATTR_REPLACE (map (junk E) (seq 0 (Z.to_nat bytes))) bytes
               (set_entry bytes st))
    as (st1 & -> & (Hi & Hn & reads & Htr & Hreads));
    [exact HE|exact Hwf|lia|exact Hne|exact Hnl| |exact Habs|done|].
  { rewrite length_map, length_seq. unfold bytes, sizeof_scoutfs_xattr.
    lia. }
  exists (set_exit st1), reads.
  split; [done|]. split; [done|]. split; [done|]. split; [done|].
  cbn [trace set_exit log]. rewrite Htr. cbn [trace set_entry log].
  done.
Qed.

(** C8, as amended: set and remove reject a name longer than MAX_NAME_LEN
    with -ERANGE, set rejects a value longer than MAX_VAL_LEN with -E2BIG,
    and get answers -ENODATA for a name of a known namespace longer than
    MAX_NAME_LEN; each of these returns before any lock is taken or any
    item is accessed, leaving the state and the log of calls untouched. *)
Theorem length_checks_before_locking E ino name st :
  (SCOUTFS_XATTR_MAX_NAME_LEN < Z.of_nat (length name) →
   (∀ value size flags,
      scoutfs_setxattr E ino name value size flags st = Some (- ERANGE, st)) ∧
   scoutfs_removexattr E ino name st = Some (- ERANGE, st) ∧
   (unknown_prefix name = false →
    ∀ size, scoutfs_getxattr E ino name size st = Some (- ENODATA, [], st))) ∧
  (Z.of_nat (length name) <= SCOUTFS_XATTR_MAX_NAME_LEN →
   ∀ v size flags, SCOUTFS_XATTR_MAX_VAL_LEN < size →
     scoutfs_setxattr E ino name (Some v) size flags st
     = Some (- E2BIG, st)).
Proof.
  split.
  - intros Hn. split; [|split].
    + intros value size flags. unfold scoutfs_setxattr, scoutfs_xattr_set.
      by rewrite (proj2 (Z.ltb_lt _ _)) by done.
    + unfold scoutfs_removexattr, scoutfs_xattr_set.
      by rewrite (proj2 (Z.ltb_lt _ _)) by done.
    + intros Hp size. unfold scoutfs_getxattr. rewrite Hp.
      by rewrite (proj2 (Z.ltb_lt _ _)) by done.
  - intros Hn v size flags Hs. unfold scoutfs_setxattr, scoutfs_xattr_set.
    rewrite (proj2 (Z.ltb_ge _ _)) by done.
    assert (Hs0 : (size =? 0) = false).
    { apply Z.eqb_neq. unfold SCOUTFS_XATTR_MAX_VAL_LEN in Hs. lia. }
    rewrite Hs0. rewrite bool_decide_eq_true_2 by eauto.
    by rewrite (proj2 (Z.ltb_lt _ _)) by done.
Qed.

(** ** A lost continuation part *)




Lemma getxattr_absent E ino bound name size st :
  fault_free E →
  wf_xattrs (items st) ino bound → bound <= U64_MAX →
  unknown_prefix name = false →
  Z.of_nat (length name) <= SCOUTFS_XATTR_MAX_NAME_LEN →
  absent st ino name →
  0 <= size <= XATTR_SIZE_MAX →
  ∃ st', scoutfs_getxattr E ino name size st = Some (- ENODATA, [], st').
Proof.
  intros HE Hwf Hbound Hp Hnl Habs Hsize.
  pose proof (known_prefix_nonempty _ Hp) as Hne.
  unfold scoutfs_getxattr. rewrite Hp.
  unfold SCOUTFS_XATTR_MAX_NAME_LEN, XATTR_SIZE_MAX, sizeof_scoutfs_xattr
    in *.
  rewrite (proj2 (Z.ltb_ge 255 _)) by lia.
  rewrite Z.mod_small by (unfold U32_MOD; lia).
  rewrite kmalloc_ff, call_ff by done. cbn [negb Z.eqb].
  set (bytes := 3 + Z.of_nat (length name) + size).
  destruct (lookup_miss E HE ino bound Hbound bytes name Hne
              ltac:(unfold SCOUTFS_XATTR_MAX_NAME_LEN; lia)
              ltac:(unfold sizeof_scoutfs_xattr, bytes; lia)
              (map (junk E) (seq 0 (Z.to_nat bytes)))
              (log EvDownRead (log (EvLockInode DLM_LOCK_PR)
                 (log (EvKmalloc bytes) st)))
              (proj1 Hwf))
    as (k & xat' & st' & Hget).
  { rewrite length_map, length_seq. lia. }
  { exact (absent_no_head st ino bound name Hwf Habs). }
  rewrite Hget. cbn [mbind option_bind]. by eexists.
Qed.

(** ** Dropping all the xattrs of an inode *)

Lemma drop_loop_spec E ino (base : list event) fuel :
  ∀ key nitems holding st evs0,
  (size (items st) < fuel)%nat →
  trace st = evs0 ++ base →
  batches 16 evs0 = Some (holding, Z.to_nat (16 - nitems)) →
  1 <= nitems <= 16 → (holding = false → nitems = 16) →
  key_le (first_key ino) key →
  (∀ k v, items st !! k = Some v →
          key_le (first_key ino) k → key_lt k key → False) →
  ∃ r h' st' evs hc n,
    xattr_drop_loop fuel E key (last_key ino) nitems holding st
      = Some (r, h', st') ∧
    trace st' = evs ++ base ∧ batches 16 evs = Some (hc, n) ∧
    (h' = true → hc = true) ∧
    next_xattr_id st' = next_xattr_id st ∧
    (fault_free E → r = 0) ∧
    (honest_not_found E → r = 0 →
     hc = h' ∧ (h' = false → n = 0%nat) ∧
     no_xattr_items (items st') ino).
Proof.
  induction fuel as [|fuel IH];
    intros key nitems holding st evs0 Hsize Htr Hb Hn Hh Hkey Hbelow; [lia|].
  cbn [xattr_drop_loop]. unfold scoutfs_item_next.
  destruct (fault E (length (trace st))) as [e|] eqn:Hf1.
  { (* the scan itself fails *)
    assert (Hneg : (Z.neg e <? 0) = true) by (apply Z.ltb_lt; lia).
    rewrite Hneg.
    eexists _, holding, _, (EvItemNext key :: evs0), holding, _.
    split; [done|]. split; [cbn [trace log]; by rewrite Htr|].
    split; [simpl; rewrite Hb; done|]. split; [done|]. split; [done|].
    split; [intros HE; rewrite HE in Hf1; done|].
    intros Hhonest Hr0. exfalso. specialize (Hhonest _ _ Hf1).
    destruct (Z.eqb_spec (Z.neg e) (- ENOENT)); [done|lia]. }
  destruct (next_in_range key (last_key ino) (items st)) as [[k v]|]
    eqn:Hnext.
  2: { (* no item is left *)
    change (- ENOENT <? 0) with true. cbn [Z.eqb].
    eexists 0, holding, _, (EvItemNext key :: evs0), holding, _.
    split; [done|]. split; [cbn [trace log]; by rewrite Htr|].
    split; [simpl; rewrite Hb; done|]. split; [done|]. split; [done|].
    split; [done|]. intros _ _. split; [done|].
    split; [intros Hhf; by rewrite (Hh Hhf)|].
    intros k v Hk Hlo Hhi. cbn [items log] in Hk.
    destruct (key_lt_or_le k key) as [Hlt|Hge].
    - by eapply Hbelow.
    - eapply next_in_range_None; eauto. }
  apply next_in_range_Some in Hnext as (Hk & Hlo & Hhi & Hmin).
  cbn [length Z.of_nat Z.ltb Z.compare].
  set (st1 := log (EvItemNext key) st).
  assert (Hb1 : batches 16 (EvItemNext key :: evs0)
                = Some (holding, Z.to_nat (16 - nitems)))
    by (simpl; rewrite Hb; done).
  (* taking the transaction, unless it is held already *)
  assert (Hhold : ∃ r2 st2 evs2,
    (if negb holding
     then let '(ret, st) := call E (EvHoldTrans nitems) st1 in
          (ret, bool_decide (ret = 0), st)
     else (0, holding, st1)) = (r2, bool_decide (r2 = 0), st2) ∧
    trace st2 = evs2 ++ base ∧ items st2 = items st ∧
    next_xattr_id st2 = next_xattr_id st ∧
    batches 16 evs2 = Some (true, Z.to_nat (16 - nitems)) ∧
    (fault_free E → r2 = 0) ∧ r2 <= 0).
  { destruct holding.
    - exists 0, st1, (EvItemNext key :: evs0). cbn [negb].
      rewrite bool_decide_eq_true_2 by done.
      split; [done|]. split; [cbn [trace log st1]; by rewrite Htr|].
      repeat split; try done.
    - cbn [negb]. unfold call.
      specialize (Hh eq_refl). subst nitems.
      eexists _, _, (EvHoldTrans 16 :: EvItemNext key :: evs0).
      split; [done|]. split; [cbn [trace log st1]; by rewrite Htr|].
      split; [done|]. split; [done|].
      split; [simpl; rewrite Hb; done|].
      split; [intros HE; by rewrite HE|].
      destruct (fault E (length (trace st1))); lia. }
  destruct Hhold as (r2 & st2 & evs2 & -> & Htr2 & Hi2 & Hn2 & Hb2 & Hff2
                     & Hr2).
  destruct (Z.eqb_spec r2 0) as [->|Hr2ne].
  2: { (* the hold fails *)
    cbn [negb].
    eexists r2, holding, st2, evs2, true, _.
    split; [done|]. split; [done|]. split; [done|]. split; [done|].
    split; [done|].
    split; [intros HE; specialize (Hff2 HE); done|]. intros _ Hr0. done. }
  cbn [negb]. rewrite bool_decide_eq_true_2 by done.
  unfold scoutfs_item_delete.
  assert (Hused : (Z.to_nat (16 - nitems) <? 16)%nat = true)
    by (apply Nat.ltb_lt; lia).
  destruct (fault E (length (trace st2))) as [e|] eqn:Hf3.
  { (* the deletion fails *)
    assert (Hneg : (Z.neg e =? 0) = false) by (apply Z.eqb_neq; lia).
    rewrite Hneg. cbn [negb].
    eexists _, true, _, (EvItemDelete k :: evs2), true, _.
    split; [done|]. split; [cbn [trace log]; by rewrite Htr2|].
    split; [simpl; rewrite Hb2; simpl; rewrite Hused; done|].
    split; [done|]. split; [done|].
    split; [intros HE; rewrite HE in Hf3; done|]. intros _ Hr0. lia. }
  rewrite Hi2, Hk. cbn [Z.eqb negb].
  rewrite (Z.mod_small (nitems - 1)) by (unfold U32_MOD; lia).
  set (st3 := with_items (delete k (items st)) (log (EvItemDelete k) st2)).
  assert (Hb3 : batches 16 (EvItemDelete k :: evs2)
                = Some (true, S (Z.to_nat (16 - nitems))))
    by (simpl; rewrite Hb2; simpl; rewrite Hused; done).
  assert (Hsz3 : (size (delete k (items st)) < fuel)%nat).
  { rewrite map_size_delete_Some by eauto.
    assert (size (items st) ≠ 0%nat).
    { intros H0. apply map_size_empty_iff in H0. rewrite H0 in Hk.
      by rewrite lookup_empty in Hk. }
    lia. }
  assert (Hkey3 : key_le (first_key ino) k)
    by (eapply key_le_trans; eauto).
  assert (Hbelow3 : ∀ k' v', delete k (items st) !! k' = Some v' →
            key_le (first_key ino) k' → key_lt k' k → False).
  { intros k' v' Hk' Hlo' Hlt'.
    apply lookup_delete_Some in Hk' as [Hne Hk'].
    destruct (key_lt_or_le k' key) as [Hlt|Hge].
    - by eapply Hbelow.
    - assert (Hle : key_le k k').
      { eapply Hmin; [exact Hk'|exact Hge|].
        apply key_lt_le. eapply key_lt_le_trans; eauto. }
      apply Hle. done. }
  destruct (Z.eqb_spec (nitems - 1) 0) as [Hlast|Hmore].
  - (* the batch is full: release and start over *)
    destruct (IH k 16 false (log EvReleaseTrans st3)
                (EvReleaseTrans :: EvItemDelete k :: evs2))
      as (r & h' & st' & evs & hc & n & H1 & H2 & H3 & H4 & H5 & H6);
      try done.
    + cbn [trace log st3 with_items]. by rewrite Htr2.
    + change (batches 16 (EvReleaseTrans :: EvItemDelete k :: evs2))
        with (batch_step 16 EvReleaseTrans
                (batches 16 (EvItemDelete k :: evs2))).
      rewrite Hb3. done.
    + exists r, h', st', evs, hc, n.
      split; [done|]. split; [done|]. split; [done|]. split; [done|].
      split; [|done]. rewrite H5. cbn [next_xattr_id log st3 with_items].
      done.
  - destruct (IH k (nitems - 1) true st3 (EvItemDelete k :: evs2))
      as (r & h' & st' & evs & hc & n & H1 & H2 & H3 & H4 & H5 & H6);
      try done.
    + cbn [trace log st3 with_items]. by rewrite Htr2.
    + rewrite Hb3. do 2 f_equal. lia.
    + lia.
    + exists r, h', st', evs, hc, n.
      split; [done|]. split; [done|]. split; [done|]. split; [done|].
      split; [|done]. rewrite H5. cbn [next_xattr_id log st3 with_items].
      done.
Qed.

Lemma get_next_none E ino (xat : list byte) bytes name name_len name_hash id
    st :
  fault_free E → no_xattr_items (items st) ino →
  (0 <? name_len) && (bytes <? sizeof_scoutfs_xattr + name_len) = false →
  0 <= id →
  ∃ k st', get_next_xattr E ino xat bytes name name_len name_hash id st
           = Some (- ENOENT, k, xat, st').
Proof.
  intros HE Hno Hchk Hid. unfold get_next_xattr. rewrite Hchk.
  set (h := if negb (name_len =? 0) then xattr_name_hash name name_len
            else name_hash).
  replace (scan_fuel st) with (S (nr_items st + 256))
    by (unfold scan_fuel; lia).
  rewrite step_none; [by eexists _, _|done|].
  destruct (next_in_range _ _ _) as [[k v]|] eqn:Hnext; [|done].
  exfalso. apply next_in_range_Some in Hnext as (Hk & Hlo & Hhi & _).
  eapply Hno; [exact Hk| |exact Hhi].
  eapply key_le_trans; [|exact Hlo].
  change (key_le (part_key ino (0 mod U32_MOD) 0 0)
            (part_key ino (h mod U32_MOD) id 0)).
  apply part_key_le.
  pose proof (Z.mod_pos_bound h U32_MOD ltac:(unfold U32_MOD; lia)).
  change (0 mod U32_MOD) with 0. lia.
Qed.

Lemma getxattr_no_items E ino name size st :
  fault_free E → no_xattr_items (items st) ino →
  unknown_prefix name = false →
  Z.of_nat (length name) <= SCOUTFS_XATTR_MAX_NAME_LEN →
  0 <= size <= XATTR_SIZE_MAX →
  ∃ st', scoutfs_getxattr E ino name size st = Some (- ENODATA, [], st').
Proof.
  intros HE Hno Hp Hnl Hsize. unfold scoutfs_getxattr. rewrite Hp.
  unfold SCOUTFS_XATTR_MAX_NAME_LEN, XATTR_SIZE_MAX, sizeof_scoutfs_xattr
    in *.
  rewrite (proj2 (Z.ltb_ge 255 _)) by lia.
  rewrite Z.mod_small by (unfold U32_MOD; lia).
  rewrite kmalloc_ff, call_ff by done. cbn [negb Z.eqb].
  edestruct (get_next_none E ino) as (k & st' & ->);
    [exact HE| | |reflexivity|].
  - exact Hno.
  - unfold sizeof_scoutfs_xattr. apply andb_false_iff. right.
    apply Z.ltb_ge. lia.
  - cbn [mbind option_bind]. by eexists.
Qed.

Lemma listxattr_no_items E ino size st :
  fault_free E → no_xattr_items (items st) ino →
  ∃ st', scoutfs_listxattr E ino size st = Some (0, [], st').
Proof.
  intros HE Hno. unfold scoutfs_listxattr.
  rewrite kmalloc_ff, call_ff by done. cbn [negb Z.eqb].
  cbn [listxattr_loop].
  edestruct (get_next_none E ino) as (k & st' & ->);
    [exact HE| | |reflexivity|].
  - exact Hno.
  - done.
  - cbn [mbind option_bind]. by eexists.
Qed.

Lemma drop_total E ino st :
  ∃ ret st' evs hc n,
    scoutfs_xattr_drop E ino st = Some (ret, st') ∧
    trace st' = evs ++ trace st ∧ batches 16 evs = Some (hc, n) ∧
    next_xattr_id st' = next_xattr_id st ∧
    (fault_free E → ret = 0) ∧
    (honest_not_found E → ret = 0 →
     hc = false ∧ n = 0%nat ∧ no_xattr_items (items st') ino).
Proof.
  unfold scoutfs_xattr_drop.
  destruct (drop_loop_spec E ino (trace st) (S (nr_items st))
              (init_xattr_key ino 0 0) 16 false st [])
    as (r & h' & st' & evs & hc & n & H1 & H2 & H3 & H4 & H5 & H6 & H7);
    try done.
  - unfold nr_items. lia.
  - apply key_le_refl.
  - fold (last_key ino). rewrite H1. cbn [mbind option_bind].
    destruct h'.
    + eexists r, _, (EvReleaseTrans :: evs), false, 0%nat.
      split; [done|]. split; [cbn [trace log]; by rewrite H2|].
      split; [simpl; rewrite H3; by rewrite (H4 eq_refl)|].
      split; [done|]. split; [done|].
      intros HE Hr0. destruct (H7 HE Hr0) as (? & ? & ?). done.
    + exists r, st', evs, hc, n.
      split; [done|]. split; [done|]. split; [done|]. split; [done|].
      split; [done|].
      intros HE Hr0. destruct (H7 HE Hr0) as (? & Hn0 & ?).
      split; [done|]. split; [by apply Hn0|done].
Qed.

Lemma fault_free_honest E : fault_free E → honest_not_found E.
Proof. intros HE i e Hf. by rewrite HE in Hf. Qed.

(** C9: drop_all(file_id) returns from every state, whatever its
    collaborators do, and in the calls it made every deletion is issued
    under a held transaction and no transaction holds more than 16 of them.
    When no collaborator fails it returns 0.  When it returns 0, and the
    item store did not answer "not found" on its own account, every
    transaction has been released, get on that file returns -ENODATA for
    every name and list returns nothing. *)
Theorem drop_removes_everything E ino st :
  ∃ ret st' evs,
    scoutfs_xattr_drop E ino st = Some (ret, st') ∧
    trace st' = evs ++ trace st ∧
    is_Some (batches 16 evs) ∧
    (fault_free E → ret = 0) ∧
    (honest_not_found E → ret = 0 →
     batches 16 evs = Some (false, 0%nat) ∧
     (∀ E' name size,
        fault_free E' → unknown_prefix name = false →
        Z.of_nat (length name) <= SCOUTFS_XATTR_MAX_NAME_LEN →
        0 <= size <= XATTR_SIZE_MAX →
        ∃ st'', scoutfs_getxattr E' ino name size st'
                = Some (- ENODATA, [], st'')) ∧
     (∀ E' size,
        fault_free E' →
        ∃ st'', scoutfs_listxattr E' ino size st' = Some (0, [], st''))).
Proof.
  destruct (drop_total E ino st)
    as (ret & st' & evs & hc & n & H1 & H2 & H3 & _ & H5 & H6).
  exists ret, st', evs. split; [done|]. split; [done|].
  split; [by rewrite H3|]. split; [done|].
  intros HE Hr0. destruct (H6 HE Hr0) as (-> & -> & Hno).
  split; [done|]. split.
  - intros E' name size HE' Hp Hnl Hsize. by apply getxattr_no_items.
  - intros E' size HE'. by apply listxattr_no_items.
Qed.

(** ** Enumeration *)

Lemma listing_size_nonneg names : 0 <= listing_size names.
Proof. induction names as [|n names IH]; simpl; lia. Qed.

Lemma listed_exists m ino bound :
  wf_heads m ino bound → bound <= U64_MAX →
  ∀ h c, ∃ ents, listed m ino h c ents.
Proof.
  intros Hwf Hbound h c.
  remember (keys_from (part_key ino h c 0) m) as k eqn:Hk.
  revert h c Hk. induction (lt_wf k) as [k _ IH]. intros h c ->.
  destruct (next_in_range (part_key ino h c 0) (last_key ino) m)
    as [[k v]|] eqn:Hnext; [|exists []; by constructor].
  destruct (scan_head ino bound m Hwf Hbound h c k v Hnext)
    as (n & V & id & -> & -> & Hv & Hhead & Hid & Hord).
  destruct (IH (keys_from (part_key ino (name_hash_of n) (id + 1) 0) m))
    with (h := name_hash_of n) (c := id + 1) as [ents Hents]; [|done|].
  - eapply keys_from_lt; [exact Hhead| | |].
    + apply part_key_le. lia.
    + apply part_key_lt. lia.
    + apply part_key_le. lia.
  - exists ((id, n) :: ents). by econstructor.
Qed.

Section Listed.

Variable ino bound : Z.
Variable m : gmap scoutfs_key (list byte).
Hypothesis Hwf : wf_heads m ino bound.
Hypothesis Hbound : bound <= U64_MAX.

Lemma listed_sound h c ents :
  listed m ino h c ents →
  ∀ id n, (id, n) ∈ ents →
    ∃ V, valid_xattr n V ∧ xattr_head m ino id n V ∧
         (h < name_hash_of n ∨ (h = name_hash_of n ∧ c <= id)).
Proof.
  induction 1 as [h c Hnone|h c id n V ents Hv Hnext Hrest IH];
    intros id0 n0 Hin.
  - inversion Hin.
  - pose proof Hnext as Hn.
    apply next_in_range_Some in Hn as (Hk & Hlo & _ & _).
    apply part_key_le in Hlo.
    apply elem_of_cons in Hin as [Heq|Hin].
    + injection Heq as -> ->. exists V. split; [done|]. split; [done|lia].
    + destruct (IH _ _ Hin) as (V0 & Hv0 & Hh0 & Hord).
      exists V0. split; [done|]. split; [done|lia].
Qed.

Lemma listed_complete h c ents :
  listed m ino h c ents →
  ∀ id n V, valid_xattr n V → xattr_head m ino id n V →
    (h < name_hash_of n ∨ (h = name_hash_of n ∧ c <= id)) →
    (id, n) ∈ ents.
Proof.
  induction 1 as [h c Hnone|h c id n V ents Hv Hnext Hrest IH];
    intros id0 n0 V0 Hv0 Hh0 Hord.
  - exfalso. eapply (scan_none ino bound m Hwf Hbound); eauto.
  - pose proof (scan_head_min ino bound m Hwf Hbound _ _ _ _ _ _ _ _
                  Hnext Hh0 Hord) as Hmin.
    pose proof Hnext as Hn.
    apply next_in_range_Some in Hn as (Hk & _ & _ & _).
    destruct (decide (name_hash_of n = name_hash_of n0 ∧ id = id0))
      as [[Hhash ->]|Hne].
    + assert (n = n0) as ->
        by (eapply (head_name_unique ino m); eauto).
      apply elem_of_cons. by left.
    + apply elem_of_cons. right. eapply IH; [exact Hv0|exact Hh0|lia].
Qed.

Lemma listed_NoDup h c ents : listed m ino h c ents → NoDup ents.*2.
Proof.
  induction 1 as [h c Hnone|h c id n V ents Hv Hnext Hrest IH].
  - constructor.
  - rewrite fmap_cons. cbn [snd]. constructor; [|done].
    intros Hin. apply list_elem_of_fmap in Hin as ([id2 n2] & Heq & Hin).
    simpl in Heq. subst n2.
    destruct (listed_sound _ _ _ Hrest _ _ Hin) as (V2 & Hv2 & Hh2 & Hord).
    apply next_in_range_Some in Hnext as (Hk & _ & _ & _).
    pose proof (wf_unique _ _ _ Hwf id id2 n V V2 Hv Hv2 Hk Hh2). lia.
Qed.

Lemma listed_length h c ents :
  listed m ino h c ents →
  (length ents <= keys_from (part_key ino h c 0) m)%nat.
Proof.
  induction 1 as [h c Hnone|h c id n V ents Hv Hnext Hrest IH].
  - simpl. lia.
  - apply next_in_range_Some in Hnext as (Hk & Hlo & _ & _).
    assert (keys_from (part_key ino (name_hash_of n) (id + 1) 0) m
            < keys_from (part_key ino h c 0) m)%nat.
    { eapply keys_from_lt; [exact Hk|exact Hlo| |].
      - apply part_key_lt. lia.
      - apply part_key_le in Hlo. apply part_key_le. lia. }
    simpl. lia.
Qed.

End Listed.

Lemma listxattr_loop_listed E ino bound size :
  fault_free E → bound <= U64_MAX →
  ∀ ents fuel h c total out (xat : list byte) st,
    wf_heads (items st) ino bound →
    listed (items st) ino h c ents →
    0 <= h < U32_MOD →
    Z.of_nat (length xat)
      = sizeof_scoutfs_xattr + SCOUTFS_XATTR_MAX_NAME_LEN →
    (length ents < fuel)%nat →
    size = 0 ∨ total + listing_size ents.*2 <= size →
    ∃ st',
      listxattr_loop fuel E ino xat
        (sizeof_scoutfs_xattr + SCOUTFS_XATTR_MAX_NAME_LEN) size h c total
        out st
      = Some (total + listing_size ents.*2,
              if size =? 0 then out else out ++ listing ents.*2, st') ∧
      items st' = items st ∧ next_xattr_id st' = next_xattr_id st ∧
      trace st'
      = rev (map EvItemNext (list_cursors ino h c ents)) ++ trace st.
Proof.
  intros HE Hbound ents.
  induction ents as [|[id n] ents IH];
    intros fuel h c total out xat st Hwf Hl Hh Hxat Hfuel Hsize;
    (destruct fuel as [|fuel]; [simpl in Hfuel; lia|]);
    cbn [listxattr_loop]; unfold get_next_xattr;
    cbn [Z.ltb Z.compare andb Z.eqb negb];
    rewrite (init_xattr_key_part_key ino h c Hh);
    fold (last_key ino);
    replace (scan_fuel st) with (S (nr_items st + 256))
      by (unfold scan_fuel; lia).
  - inversion Hl as [? ? Hnone|]; subst.
    rewrite step_none by done. cbn [mbind option_bind Z.ltb Z.compare].
    change (- ENOENT <? 0) with true. cbn iota. rewrite Z.eqb_refl.
    exists (log (EvItemNext (set_part (part_key ino h c 0) 0)) st).
    split; [|done]. simpl. rewrite Z.add_0_r.
    destruct (size =? 0); [done|by rewrite app_nil_r].
  - inversion Hl as [|? ? ? ? V ? Hv Hnext Hrest]; subst.
    pose proof Hnext as Hn.
    apply next_in_range_Some in Hn as (Hk & _ & _ & _).
    destruct (head_in_range ino bound _ Hwf Hbound id n V Hk) as [Hid _].
    pose proof (step_head E (nr_items st + 256) ino
                  (sizeof_scoutfs_xattr + SCOUTFS_XATTR_MAX_NAME_LEN) [] h
                  (part_key ino h c 0) 0 xat st (name_hash_of n) id n V HE
                  Hv Hnext) as Hs.
    cbv zeta in Hs. cbn [length] in Hs. change (Z.of_nat 0) with 0 in Hs.
    rewrite Hs by (unfold sizeof_scoutfs_xattr, SCOUTFS_XATTR_MAX_NAME_LEN
                     in *; lia).
    clear Hs. rewrite decide_True by done.
    rewrite Z.eqb_refl, orb_true_r. cbn [mbind option_bind].
    set (bytes := sizeof_scoutfs_xattr + SCOUTFS_XATTR_MAX_NAME_LEN) in *.
    destruct (head_data_spec bytes n V xat Hv ltac:(unfold bytes,
                sizeof_scoutfs_xattr, SCOUTFS_XATTR_MAX_NAME_LEN in *; lia))
      as (Hret & Htake & Hlen).
    set (data := head_data bytes n V) in *.
    set (xat' := kvec_copy xat 0 data) in *.
    pose proof (length_xattr_encode n V) as HL.
    pose proof Hv as [Hv1 Hv2].
    unfold bytes, sizeof_scoutfs_xattr, SCOUTFS_XATTR_MAX_NAME_LEN,
      SCOUTFS_XATTR_MAX_VAL_LEN in Hret, HL, Hv1, Hv2.
    destruct (header_of_prefix xat' (length data) n V ltac:(lia) Htake Hv)
      as (Hnl & _).
    pose proof (name_of_prefix xat' (length data) n V ltac:(lia) Htake)
      as Hname.
    rewrite (proj2 (Z.ltb_ge (Z.of_nat (length data)) 0)) by lia.
    rewrite Hnl, Nat2Z.id, Hname.
    cbn [skx_name_hash skx_id part_key].
    pose proof (name_hash_of_range n) as Hhn.
    rewrite (Z.mod_small (name_hash_of n)) by done.
    rewrite (Z.mod_small (id + 1)) by (unfold U64_MOD, U64_MAX in *; lia).
    rewrite fmap_cons in Hsize. cbn [snd listing_size foldr] in Hsize.
    fold (listing_size ents.*2) in Hsize.
    pose proof (listing_size_nonneg ents.*2) as Hnn.
    assert (Hchk : negb (size =? 0)
                   && (size <? total + (Z.of_nat (length n) + 1)) = false).
    { destruct Hsize as [->|Hsize]; [done|].
      apply andb_false_iff. right. apply Z.ltb_ge. lia. }
    rewrite Hchk.
    edestruct (IH fuel (name_hash_of n) (id + 1)
                 (total + (Z.of_nat (length n) + 1))
                 (if negb (size =? 0) then out ++ n ++ [x00] else out)
                 xat' (log (EvItemNext (set_part (part_key ino h c 0) 0)) st))
      as (st' & Hloop & Hi & Hnx & Htr);
      [exact Hwf|exact Hrest|exact Hhn| | | |].
    + fold bytes. lia.
    + simpl in Hfuel. lia.
    + destruct Hsize as [->|Hsize]; [by left|right; lia].
    + fold bytes in Hloop. rewrite Hloop. exists st'.
      split; [|split; [done|split; [done|]]].
      * rewrite fmap_cons. cbn [snd listing_size listing foldr].
        fold (listing_size ents.*2). fold (listing ents.*2).
        replace (total + (Z.of_nat (length n) + 1) + listing_size ents.*2)
          with (total + (Z.of_nat (length n) + 1 + listing_size ents.*2))
          by lia.
        destruct (size =? 0); [done|].
        cbn [negb]. rewrite <- !app_assoc. done.
      * rewrite Htr. cbn [list_cursors map rev trace log].
        rewrite <- app_assoc. done.
Qed.

(** C6: list reports every stored name exactly once, whatever the hashes
    of the names and whatever the order of their creation: the names
    reported are pairwise distinct and are exactly the names stored; a size
    query returns the bytes needed, a large enough buffer receives each
    name followed by a NUL.  The walk asks the item store for the key at
    cursor (0, 0) and then, after each entry, for the key at
    (hash of the entry, id of the entry + 1). *)
Theorem listxattr_each_name_once E ino st :
  fault_free E → wf_fs st ino →
  ∃ ents : list (Z * list byte),
    NoDup ents.*2 ∧
    (∀ n, n ∈ ents.*2 ↔ ∃ V, stored st ino n V) ∧
    ∀ size, size = 0 ∨ listing_size ents.*2 <= size →
      ∃ st',
        scoutfs_listxattr E ino size st
        = Some (listing_size ents.*2,
                if size =? 0 then [] else listing ents.*2, st') ∧
        items st' = items st ∧
        trace st'
        = [EvUnlock DLM_LOCK_PR; EvUpRead]
          ++ rev (map EvItemNext (list_cursors ino 0 0 ents))
          ++ [EvDownRead; EvLockInode DLM_LOCK_PR;
              EvKmalloc (sizeof_scoutfs_xattr + SCOUTFS_XATTR_MAX_NAME_LEN)]
          ++ trace st.
Proof.
  intros HE [[Hwf Hcomplete] Hnext].
  destruct (listed_exists (items st) ino (next_xattr_id st) Hwf
              ltac:(lia) 0 0) as [ents Hl].
  assert (Hb : next_xattr_id st <= U64_MAX) by lia.
  exists ents. split; [by eapply listed_NoDup|]. split.
  - intros n. split.
    + intros Hin. apply list_elem_of_fmap in Hin as ([id n'] & -> & Hin).
      destruct (listed_sound _ _ _ _ _ Hl _ _ Hin)
        as (V & Hv & Hh & _).
      destruct (Hcomplete _ _ _ Hv Hh) as (V' & Hv' & Hat).
      exists V'. split; [done|]. by exists id.
    + intros (V & Hv & id & Hat).
      pose proof (xattr_at_head _ _ _ _ _ Hv Hat) as Hh.
      destruct (head_in_range ino _ _ Hwf Hb id n V Hh) as [Hid _].
      pose proof (name_hash_of_range n).
      apply list_elem_of_fmap. exists (id, n). split; [done|].
      eapply (listed_complete ino _ _ Hwf Hb); eauto. lia.
  - intros size Hsize. unfold scoutfs_listxattr.
    rewrite kmalloc_ff, call_ff by done. cbn [negb Z.eqb].
    set (bytes := sizeof_scoutfs_xattr + SCOUTFS_XATTR_MAX_NAME_LEN).
    set (st1 := log EvDownRead _).
    edestruct (listxattr_loop_listed E ino (next_xattr_id st) size HE Hb
                 ents (S (nr_items st1 + Z.to_nat size)) 0 0 0 []
                 (map (junk E) (seq 0 (Z.to_nat bytes))) st1)
      as (st' & Hloop & Hi & _ & Htr);
      [exact Hwf|exact Hl|unfold U32_MOD; lia| | | |].
    + rewrite length_map, length_seq. unfold bytes, sizeof_scoutfs_xattr,
        SCOUTFS_XATTR_MAX_NAME_LEN. lia.
    + pose proof (listed_length _ _ _ _ _ Hl).
      pose proof (keys_from_size (part_key ino 0 0 0) (items st)).
      unfold nr_items. cbn [items st1 log]. lia.
    + rewrite Z.add_0_l. exact Hsize.
    + fold bytes in Hloop. rewrite Hloop. cbn [mbind option_bind].
      rewrite Z.add_0_l. eexists. split; [done|]. split; [done|].
      cbn [trace log]. rewrite Htr. done.
Qed.

(** ** The helpers of set, in any environment *)

Lemma create_loop_total E (xat : list byte) bytes fuel :
  ∀ key total st,
  (Z.to_nat (bytes - total) < fuel)%nat →
  ∃ ret st', create_loop fuel E key xat bytes total st = Some (ret, st').
Proof.
  induction fuel as [|fuel IH]; intros key total st Hf; [lia|].
  cbn [create_loop]. cbv zeta.
  destruct (Z.ltb_spec total bytes) as [Hlt|Hge]; [|by eexists _, _].
  destruct (scoutfs_item_create E key _ st) as [ret st1].
  destruct (negb (ret =? 0)); [by eexists _, _|].
  apply IH. lia.
Qed.

Lemma delete_loop_total E nr fuel :
  ∀ key saved st,
  0 <= skx_part key < 255 → nr <= 255 →
  (Z.to_nat (nr - skx_part key) <= fuel)%nat → (1 <= fuel)%nat →
  ∃ ret saved' st',
    delete_loop fuel E key nr saved st = Some (ret, saved', st').
Proof.
  induction fuel as [|fuel IH]; intros key saved st Hp Hnr Hf Hf1; [lia|].
  cbn [delete_loop].
  destruct (scoutfs_item_delete_save E key saved st) as [[ret saved1] st1].
  cbn [skx_part set_part].
  rewrite (Z.mod_small (skx_part key + 1)) by (unfold U8_MOD; lia).
  destruct (ret =? 0); [|by eexists _, _, _].
  destruct (Z.ltb_spec (skx_part key + 1) nr) as [Hlt|Hge];
    [|by eexists _, _, _].
  cbn [andb]. apply IH; cbn [skx_part set_part]; lia.
Qed.

(** X1: create_xattr_items returns in any environment; when it returns an
    error the item map is the one it started from, whatever it had created
    before the error, and when it returns 0 the keys of the parts hold the
    consecutive chunks of the buffer and no other key has changed. *)
Theorem create_xattr_items_all_or_nothing E ino id (xat : list byte) bytes
    st :
  Z.of_nat (length xat) = bytes → 1 <= bytes <= 65793 →
  let h := xattr_name_hash (xat_name xat) (xat_name_len xat) mod U32_MOD in
  let N := (bytes + SCOUTFS_XATTR_MAX_PART_SIZE - 1)
             / SCOUTFS_XATTR_MAX_PART_SIZE in
  ∃ ret st',
    create_xattr_items E ino id xat bytes st = Some (ret, st') ∧
    ret <= 0 ∧ next_xattr_id st' = next_xattr_id st ∧
    (ret ≠ 0 → items st' = items st) ∧
    (ret = 0 →
     (∀ q, 0 <= q < N →
        items st !! part_key ino h id q = None ∧
        items st' !! part_key ino h id q = Some (xattr_part xat q)) ∧
     (∀ k, (∀ q, 0 <= q < N → k ≠ part_key ino h id q) →
        items st' !! k = items st !! k)).
Proof.
  intros Hlen Hb. cbv zeta.
  destruct (parts_count_bounds bytes Hb) as (HN & HN1).
  unfold create_xattr_items.
  destruct (create_loop_total E xat bytes (S (Z.to_nat bytes))
              (init_xattr_key ino
                 (xattr_name_hash (xat_name xat) (xat_name_len xat)) id)
              0 st ltac:(lia)) as (ret & st' & Hc).
  exists ret, st'. split; [exact Hc|].
  change (init_xattr_key ino ?hh id)
    with (part_key ino (hh mod U32_MOD) id 0) in Hc.
  destruct (create_loop_spec E ino _ id xat bytes _ _ Hlen HN ltac:(lia)
              _ _ _ _ _ Hc ltac:(lia) ltac:(lia)) as (H1 & H2 & H3 & H4).
  split; [done|]. split; [done|].
  split; [intros Hr; by rewrite (H3 Hr)|].
  intros Hr. destruct (H4 Hr) as [Hnone Hmap]. split.
  - intros q Hq. split; [by apply Hnone|].
    rewrite Hmap, decide_True; [done|].
    apply in_parts_part_key_iff. lia.
  - intros k Hk. rewrite Hmap, decide_False; [done|].
    intros [Hkeq Hkp]. eapply Hk; [exact Hkp|exact Hkeq].
Qed.

(** X2: delete_xattr_items returns in any environment; whatever it returns,
    restoring the list it saved gives back the item map it started from;
    when it returns 0 the parts 0 .. nr_parts-1 were all there and are gone,
    and no other key has changed. *)
Theorem delete_xattr_items_saves_what_it_deletes E ino name_hash id nr_parts
    st :
  0 <= nr_parts <= 255 → 0 <= name_hash < U32_MOD →
  ∃ ret saved st',
    delete_xattr_items E ino name_hash id nr_parts [] st
      = Some (ret, saved, st') ∧
    ret <= 0 ∧ next_xattr_id st' = next_xattr_id st ∧
    items (scoutfs_item_restore saved st') = items st ∧
    (ret = 0 → 1 <= nr_parts →
     (∀ q, 0 <= q < nr_parts →
        is_Some (items st !! part_key ino name_hash id q) ∧
        items st' !! part_key ino name_hash id q = None) ∧
     (∀ k, (∀ q, 0 <= q < nr_parts → k ≠ part_key ino name_hash id q) →
        items st' !! k = items st !! k)).
Proof.
  intros Hnr Hh. unfold delete_xattr_items.
  rewrite (init_xattr_key_part_key ino name_hash id Hh).
  destruct (delete_loop_total E nr_parts (S (Z.to_nat nr_parts))
              (part_key ino name_hash id 0) [] st)
    as (ret & saved & st' & Hd);
    [cbn [skx_part part_key]; lia|lia|cbn [skx_part part_key]; lia|lia|].
  exists ret, saved, st'. split; [exact Hd|].
  destruct (delete_loop_inv E _ _ _ _ _ _ _ _ Hd) as (Hres & Hnx & Hret).
  { intros kv Hkv. inversion Hkv. }
  split; [done|]. split; [done|]. split; [exact Hres|].
  intros -> Hnr1.
  destruct (delete_loop_ok E ino name_hash id nr_parts _ 0 _ _ _ _ Hd
              ltac:(lia) ltac:(lia)) as [Hthere Hmap].
  split.
  - intros q Hq. split; [by apply Hthere|].
    rewrite Hmap, decide_True; [done|].
    apply in_parts_part_key_iff. lia.
  - intros k Hk. rewrite Hmap, decide_False; [done|].
    intros [Hkeq Hkp]. eapply Hk; [exact Hkp|exact Hkeq].
Qed.

(** ** Set and remove that succeed *)

Lemma delete_loop_ff E ino h id nr fuel :
  fault_free E →
  ∀ p saved st,
  0 <= p < nr → nr <= 255 →
  (∀ q, p <= q < nr → is_Some (items st !! part_key ino h id q)) →
  (Z.to_nat (nr - p) <= fuel)%nat →
  ∃ saved' st',
    delete_loop fuel E (part_key ino h id p) nr saved st
    = Some (0, saved', st').
Proof.
  intros HE. induction fuel as [|fuel IH]; intros p saved st Hp Hnr Hin Hf;
    [lia|].
  cbn [delete_loop]. unfold scoutfs_item_delete_save. rewrite HE.
  destruct (Hin p ltac:(lia)) as [v Hv]. rewrite Hv.
  cbn [skx_part part_key Z.eqb andb]. rewrite set_part_part_key.
  rewrite (Z.mod_small (p + 1)) by (unfold U8_MOD; lia).
  cbn [skx_part part_key].
  destruct (Z.ltb_spec (p + 1) nr) as [Hlt|Hge]; [|by eexists _, _].
  apply IH; [lia|lia| |lia].
  intros q Hq. cbn [items with_items log].
  rewrite lookup_delete_ne; [apply Hin; lia|].
  intros Heq. injection Heq as Heq. lia.
Qed.

Lemma create_loop_ff E ino h id (xat : list byte) bytes N fuel :
  fault_free E →
  (N - 1) * SCOUTFS_XATTR_MAX_PART_SIZE < bytes
    <= N * SCOUTFS_XATTR_MAX_PART_SIZE →
  N <= 255 →
  ∀ p total st,
  0 <= p → total = Z.min (p * SCOUTFS_XATTR_MAX_PART_SIZE) bytes →
  (∀ q, p <= q < N → items st !! part_key ino h id q = None) →
  (Z.to_nat (N - p) < fuel)%nat →
  ∃ st', create_loop fuel E (part_key ino h id p) xat bytes total st
         = Some (0, st').
Proof.
  intros HE HN HN255.
  set (P := SCOUTFS_XATTR_MAX_PART_SIZE) in *.
  induction fuel as [|fuel IH]; intros p total st Hp Htot Hnone Hf; [lia|].
  cbn [create_loop]. cbv zeta.
  destruct (Z.ltb_spec total bytes) as [Hlt|Hge]; [|by eexists].
  assert (HpP : total = p * P) by lia.
  assert (HpN : p < N) by nia.
  unfold scoutfs_item_create. rewrite HE, (Hnone p) by lia.
  cbn [Z.eqb negb skx_part part_key]. rewrite set_part_part_key.
  rewrite (Z.mod_small (p + 1)) by (unfold U8_MOD; lia).
  apply IH; [lia| | |lia].
  - fold P. lia.
  - intros q Hq. cbn [items with_items log].
    rewrite lookup_insert_ne; [apply Hnone; lia|].
    intros Heq. injection Heq as Heq. lia.
Qed.

Lemma xattr_set_trans_ff E ino key fp value id (xat : list byte) bytes st :
  fault_free E →
  0 <= fp <= 255 →
  (fp ≠ 0 →
   0 <= skx_name_hash key < U32_MOD ∧
   ∀ q, 0 <= q < fp →
     is_Some (items st !! part_key ino (skx_name_hash key) (skx_id key) q)) →
  (is_Some value →
   Z.of_nat (length xat) = bytes ∧ 1 <= bytes <= 65793 ∧
   ∀ q, items st !! part_key ino
          (xattr_name_hash (xat_name xat) (xat_name_len xat) mod U32_MOD)
          id q = None) →
  ∃ st', xattr_set_trans E ino key fp value id xat bytes st = Some (0, st').
Proof.
  intros HE Hfp Hold Hnew. unfold xattr_set_trans.
  rewrite call_ff by done. cbn [Z.ltb Z.compare].
  set (st0 := log EvDirtyInode st).
  assert (Hdel : ∃ saved st1,
    (if negb (fp =? 0)
     then delete_xattr_items E ino (skx_name_hash key) (skx_id key) fp [] st0
     else Some (0, [], st0)) = Some (0, saved, st1) ∧
    ∀ k, items st !! k = None → items st1 !! k = None).
  { destruct (Z.eqb_spec fp 0) as [->|Hfp0]; [by exists [], st0|].
    cbn [negb]. destruct (Hold Hfp0) as [Hh Hparts].
    unfold delete_xattr_items.
    rewrite (init_xattr_key_part_key ino _ _ Hh).
    destruct (delete_loop_ff E ino (skx_name_hash key) (skx_id key) fp
                (S (Z.to_nat fp)) HE 0 [] st0 ltac:(lia) ltac:(lia) Hparts
                ltac:(lia)) as (saved & st1 & Hd).
    exists saved, st1. split; [exact Hd|].
    destruct (delete_loop_ok E ino _ _ fp _ 0 _ _ _ _ Hd ltac:(lia)
                ltac:(lia)) as [_ Hmap].
    intros k Hk. rewrite Hmap. by destruct (decide _). }
  destruct Hdel as (saved & st1 & -> & Hkeep). cbn [mbind option_bind].
  cbn [Z.eqb]. rewrite andb_true_r.
  destruct value as [v|].
  - rewrite bool_decide_eq_true_2 by eauto.
    destruct (Hnew ltac:(eauto)) as (Hlen & Hb & Hnone).
    destruct (parts_count_bounds bytes Hb) as (HN & HN1).
    unfold create_xattr_items.
    change (init_xattr_key ino ?hh id)
      with (part_key ino (hh mod U32_MOD) id 0).
    destruct (create_loop_ff E ino _ id xat bytes _ (S (Z.to_nat bytes)) HE
                HN ltac:(lia) 0 0 st1 ltac:(lia) ltac:(lia)
                ltac:(intros q _; apply Hkeep, Hnone)) as [st2 ->].
    { set (N := (bytes + SCOUTFS_XATTR_MAX_PART_SIZE - 1)
                  / SCOUTFS_XATTR_MAX_PART_SIZE) in *.
      assert (N <= bytes) by nia. lia. }
    cbn [mbind option_bind Z.ltb Z.compare]. by eexists.
  - rewrite bool_decide_eq_false_2 by (by intros [? ?]).
    cbn [mbind option_bind Z.ltb Z.compare]. by eexists.
Qed.

Lemma xattr_set_locked_succeeds E ino name V flags (xat : list byte) st :
  fault_free E →
  wf_fs st ino → next_xattr_id st < U64_MAX →
  name ≠ [] → valid_xattr name V →
  Z.of_nat (length xat)
  = sizeof_scoutfs_xattr + Z.of_nat (length name) + Z.of_nat (length V) →
  (Z.land flags XATTR_CREATE ≠ 0 → absent st ino name) →
  (Z.land flags XATTR_REPLACE ≠ 0 → ∃ V0, stored st ino name V0) →
  ∃ st' old,
    xattr_set_locked E ino name (Some V) (Z.of_nat (length V)) flags xat
      (sizeof_scoutfs_xattr + Z.of_nat (length name) + Z.of_nat (length V))
      st = Some (0, st') ∧
    replaced (items st) (items st') ino old (name_hash_of name)
      (next_xattr_id st) (xattr_encode name V) (nr_parts_of name V) ∧
    match old with
    | Some (h0, id0, np0) =>
        h0 = name_hash_of name ∧
        ∃ V0, valid_xattr name V0 ∧ xattr_at (items st) ino id0 name V0 ∧
              np0 = nr_parts_of name V0
    | None =>
        ∀ id V0, valid_xattr name V0 →
                 xattr_head (items st) ino id name V0 → False
    end.
Proof.
  intros HE [Hwf Hnext] Hnx Hne Hv Hlen Hcreate Hreplace.
  pose proof Hv as [Hv1 Hv2]. pose proof Hwf as [Hheads Hcomp].
  unfold xattr_set_locked.
  destruct (set_find E ino (next_xattr_id st) name xat st HE Hwf ltac:(lia)
              Hne Hv1 ltac:(lia))
    as (r & key & xat1 & st1 & Hget & Hcase).
  rewrite Hget. cbn [mbind option_bind].
  pose proof (get_next_xattr_reads _ _ _ _ _ _ _ _ _ _ _ _ _ Hget)
    as (Hi1 & Hn1 & _).
  pose proof (get_next_xattr_length _ _ _ _ _ _ _ _ _ _ _ _ _ Hget) as Hl1.
  specialize (Hl1 ltac:(unfold sizeof_scoutfs_xattr in *; lia)).
  rewrite bool_decide_eq_true_2 by eauto. cbn [negb].
  rewrite andb_false_r.
  unfold SCOUTFS_XATTR_MAX_NAME_LEN, SCOUTFS_XATTR_MAX_VAL_LEN,
    sizeof_scoutfs_xattr in *.
  set (bytes := 3 + Z.of_nat (length name) + Z.of_nat (length V)) in *.
  assert (Hprep : prepare_xattr xat1 name (Z.of_nat (length name)) V
                    (Z.of_nat (length V)) = xattr_encode name V).
  { apply prepare_xattr_encode; [|done].
    unfold sizeof_scoutfs_xattr. rewrite Hl1. exact Hlen. }
  rewrite Hprep.
  assert (Hmod : (next_xattr_id st1 + 1) mod U64_MOD = next_xattr_id st + 1).
  { rewrite Hn1. apply Z.mod_small. unfold U64_MOD, U64_MAX in *. lia. }
  rewrite Hmod, Hn1.
  set (st2 := mk_fs (items st1) (next_xattr_id st + 1) (trace st1)) in *.
  pose proof (index_retry_ff E (busy_rounds E) st2 HE) as Hr3.
  pose proof (index_retry_state E (busy_rounds E) st2) as [Hi3 Hn3].
  destruct (index_retry E (busy_rounds E) st2) as [r3 st3].
  simpl in Hr3, Hi3, Hn3. subst r3. cbn [Z.eqb negb].
  pose proof (length_xattr_encode name V) as HL.
  unfold sizeof_scoutfs_xattr in HL. fold bytes in HL.
  assert (Hfresh : ∀ q, items st3 !! part_key ino
            (xattr_name_hash (xat_name (xattr_encode name V))
               (xat_name_len (xattr_encode name V)) mod U32_MOD)
            (next_xattr_id st) q = None).
  { intros q. rewrite encode_name_hash by done.
    rewrite Hi3. cbn [items st2]. rewrite Hi1.
    destruct (items st !! _) as [v|] eqn:Hk; [|done]. exfalso.
    destruct (wf_part _ _ _ Hheads _ _ Hk (part_key_is_xattr_key _ _ _ _))
      as (? & ? & _ & _ & _ & _ & Hid).
    cbn [skx_id part_key] in Hid. lia. }
  destruct Hcase as [[-> Habs]|(-> & id0 & V0 & Hv0 & Hat0 & Hkh & Hkid & Hnp)].
  - (* no instance of the name yet *)
    assert (Hrep0 : Z.land flags XATTR_REPLACE = 0).
    { destruct (decide (Z.land flags XATTR_REPLACE = 0)) as [|Hf]; [done|].
      destruct (Hreplace Hf) as (V0 & Hv0 & id0 & Hat0). exfalso.
      eapply Habs; [exact Hv0|]. by apply xattr_at_head. }
    rewrite Hrep0.
    change (- ENOENT <? 0) with true. rewrite Z.eqb_refl.
    change (0 <=? - ENOENT) with false. cbn [negb andb Z.eqb].
    destruct (xattr_set_trans_ff E ino key 0 (Some V) (next_xattr_id st)
                (xattr_encode name V) bytes st3 HE ltac:(lia) ltac:(done))
      as [st4 Htr].
    { intros _. split; [done|]. split; [unfold bytes; lia|exact Hfresh]. }
    rewrite Htr. cbn [mbind option_bind].
    exists (log EvIndexUnlock (log EvReleaseTrans st4)), None.
    split; [done|]. split; [|exact Habs].
    destruct (xattr_set_trans_ok E ino key 0 V _ _ bytes st3 _ Htr HL
                ltac:(unfold bytes; lia) ltac:(lia) ltac:(done))
      as (Hrep & _).
    rewrite decide_True in Hrep by done.
    rewrite encode_name_hash in Hrep by done.
    change ((bytes + SCOUTFS_XATTR_MAX_PART_SIZE - 1)
              / SCOUTFS_XATTR_MAX_PART_SIZE)
      with (nr_parts_of name V) in Hrep.
    rewrite Hi3 in Hrep. cbn [items st2] in Hrep. rewrite Hi1 in Hrep.
    exact Hrep.
  - (* the name has an instance, which is replaced *)
    destruct (nr_parts_bounds name V0 Hv0) as (HN0 & _).
    assert (Hcr0 : Z.land flags XATTR_CREATE = 0).
    { destruct (decide (Z.land flags XATTR_CREATE = 0)) as [|Hf]; [done|].
      exfalso. apply (Hcreate Hf V0). split; [done|]. by exists id0. }
    rewrite Hcr0.
    rewrite (proj2 (Z.ltb_ge _ 0)) by lia.
    rewrite (proj2 (Z.eqb_neq _ (- ENOENT))) by (unfold ENOENT; lia).
    rewrite (proj2 (Z.leb_le 0 _)) by lia.
    cbn [negb andb Z.eqb].
    rewrite Hnp. rewrite (Z.mod_small (nr_parts_of name V0))
      by (unfold U8_MOD; lia).
    destruct (xattr_set_trans_ff E ino key (nr_parts_of name V0) (Some V)
                (next_xattr_id st) (xattr_encode name V) bytes st3 HE
                ltac:(lia)) as [st4 Htr].
    { intros _. rewrite Hkh, Hkid. split; [apply name_hash_of_range|].
      intros q Hq. rewrite Hi3. cbn [items st2]. rewrite Hi1.
      rewrite (Hat0 q Hq). eauto. }
    { intros _. split; [done|]. split; [unfold bytes; lia|exact Hfresh]. }
    rewrite Htr. cbn [mbind option_bind].
    exists (log EvIndexUnlock (log EvReleaseTrans st4)),
      (Some (name_hash_of name, id0, nr_parts_of name V0)).
    split; [done|]. split; [|split; [done|]; exists V0; done].
    destruct (xattr_set_trans_ok E ino key _ V _ _ bytes st3 _ Htr HL
                ltac:(unfold bytes; lia) ltac:(lia)
                ltac:(intros _; rewrite Hkh; apply name_hash_of_range))
      as (Hrep & _).
    rewrite decide_False in Hrep by lia.
    rewrite encode_name_hash in Hrep by done.
    change ((bytes + SCOUTFS_XATTR_MAX_PART_SIZE - 1)
              / SCOUTFS_XATTR_MAX_PART_SIZE)
      with (nr_parts_of name V) in Hrep.
    rewrite Hi3 in Hrep. cbn [items st2] in Hrep. rewrite Hi1 in Hrep.
    rewrite Hkh, Hkid in Hrep. exact Hrep.
Qed.

Lemma replaced_frame m m' ino b name V old :
  wf_xattrs m ino b → 0 <= b →
  valid_xattr name V →
  replaced m m' ino old (name_hash_of name) b (xattr_encode name V)
    (nr_parts_of name V) →
  match old with
  | Some (h0, id0, np0) =>
      h0 = name_hash_of name ∧
      ∃ V0, valid_xattr name V0 ∧ xattr_at m ino id0 name V0 ∧
            np0 = nr_parts_of name V0
  | None => ∀ id V0, valid_xattr name V0 → xattr_head m ino id name V0 → False
  end →
  ∀ n id V', n ≠ name → valid_xattr n V' →
    (xattr_at m' ino id n V' ↔ xattr_at m ino id n V').
Proof.
  intros [Hwf Hcomp] Hb Hv Hrep Hold n id V' Hn Hv'.
  destruct (nr_parts_bounds name V Hv) as (HN & _).
  destruct (nr_parts_bounds n V' Hv') as (HN' & _).
  split.
  - intros Hat'.
    assert (Hnn : ¬ (name_hash_of n = name_hash_of name ∧ id = b)).
    { intros [Hh ->]. specialize (Hat' 0 ltac:(lia)).
      rewrite Hrep, Hh in Hat'. rewrite decide_True in Hat'
        by (apply in_parts_part_key_iff; lia).
      injection Hat' as Hp.
      destruct (part0_name_inj _ _ _ _ Hv Hv' Hp) as [-> _]. done. }
    intros q Hq. specialize (Hat' q Hq). rewrite Hrep in Hat'.
    rewrite decide_False in Hat'
      by (rewrite in_parts_part_key_iff; tauto).
    destruct old as [[[h0 id0] np0]|]; [|done].
    by destruct (decide _).
  - intros Hat.
    pose proof (xattr_at_head _ _ _ _ _ Hv' Hat) as Hhead.
    assert (Hnn : ¬ (name_hash_of n = name_hash_of name ∧ id = b)).
    { intros [Hh ->].
      destruct (wf_part _ _ _ Hwf _ _ Hhead (part_key_is_xattr_key _ _ _ _))
        as (? & ? & _ & _ & _ & _ & Hid).
      cbn [skx_id part_key] in Hid. lia. }
    intros q Hq. rewrite Hrep.
    rewrite decide_False by (rewrite in_parts_part_key_iff; tauto).
    destruct old as [[[h0 id0] np0]|]; [|by apply Hat].
    rewrite decide_False; [by apply Hat|].
    intros Hin. pose proof Hin as Hin'.
    apply in_parts_part_key_iff in Hin' as (Hh & Hid & _).
    destruct Hold as (Hh0 & V0 & Hv0 & Hat0 & _).
    pose proof (xattr_at_head _ _ _ _ _ Hv0 Hat0) as Hhead0.
    unfold xattr_head in Hhead0, Hhead.
    rewrite <- Hh0, <- Hh, <- Hid in Hhead0.
    rewrite Hhead in Hhead0. injection Hhead0 as Hp0.
    destruct (part0_name_inj _ _ _ _ Hv' Hv0 Hp0) as [-> _]. done.
Qed.

Lemma stored_or_absent st ino name :
  wf_fs st ino → (∃ V, stored st ino name V) ∨ absent st ino name.
Proof.
  intros [[Hwf Hcomp] Hnext].
  destruct (head_decide (items st) ino (next_xattr_id st) name
              (size (items st)) Hwf ltac:(lia) 0 ltac:(lia)
              (keys_from_size _ _))
    as [(id & V & _ & Hv & Hh)|Hno].
  - left. destruct (Hcomp _ _ _ Hv Hh) as (V' & Hv' & Hat).
    exists V'. split; [done|]. by exists id.
  - right. intros V (Hv & id & Hat).
    pose proof (xattr_at_head _ _ _ _ _ Hv Hat) as Hh.
    destruct (head_in_range ino _ _ Hwf ltac:(lia) id name V Hh) as [Hid _].
    eapply Hno; [|exact Hv|exact Hh]. lia.
Qed.

Lemma xattr_set_succeeds E ino name V flags st :
  fault_free E →
  wf_fs st ino → next_xattr_id st < U64_MAX →
  unknown_prefix name = false → valid_xattr name V →
  flags_ok flags →
  (Z.land flags XATTR_CREATE ≠ 0 → absent st ino name) →
  (Z.land flags XATTR_REPLACE ≠ 0 → ∃ V0, stored st ino name V0) →
  ∃ st',
    scoutfs_xattr_set E ino name (Some V) (Z.of_nat (length V)) flags st
      = Some (0, st') ∧
    wf_fs st' ino ∧ stored st' ino name V ∧
    next_xattr_id st' = next_xattr_id st + 1 ∧
    ∀ n V', n ≠ name → (stored st' ino n V' ↔ stored st ino n V').
Proof.
  intros HE Hwf Hnx Hp Hv Hflags Hcreate Hreplace.
  pose proof Hv as [Hv1 Hv2]. pose proof Hwf as [Hwfx Hnext].
  pose proof (known_prefix_nonempty _ Hp) as Hne.
  rewrite (xattr_set_unfold_ff E ino name (Some V) (Z.of_nat (length V))
             flags st HE Hv1 ltac:(done) Hflags Hp
             ltac:(unfold XATTR_SIZE_MAX, SCOUTFS_XATTR_MAX_VAL_LEN in *;
                   lia)).
  cbv zeta.
  set (bytes := sizeof_scoutfs_xattr + Z.of_nat (length name)
                + Z.of_nat (length V)).
  destruct (xattr_set_locked_succeeds E ino name V flags
              (map (junk E) (seq 0 (Z.to_nat bytes))) (set_entry bytes st)
              HE Hwf Hnx Hne Hv) as (st1 & old & Hs & Hrep & Hold).
  { rewrite length_map, length_seq. unfold bytes, sizeof_scoutfs_xattr.
    lia. }
  { exact Hcreate. }
  { exact Hreplace. }
  fold bytes in Hs. rewrite Hs. cbn [mbind option_bind].
  exists (set_exit st1). split; [done|].
  change (items (set_entry bytes st)) with (items st) in Hrep, Hold.
  change (next_xattr_id (set_entry bytes st)) with (next_xattr_id st)
    in Hrep.
  assert (Hlen : Z.of_nat (length (map (junk E) (seq 0 (Z.to_nat bytes))))
                 = sizeof_scoutfs_xattr + Z.of_nat (length name)
                   + Z.of_nat (length V)).
  { rewrite length_map, length_seq. unfold bytes, sizeof_scoutfs_xattr.
    lia. }
  destruct (xattr_set_locked_post E ino name V flags _ (set_entry bytes st)
              _ HE Hwf Hnx Hne Hv Hlen Hs)
    as (Hwf' & Hn' & Hat').
  change (next_xattr_id (set_entry bytes st)) with (next_xattr_id st)
    in Hwf', Hn', Hat'.
  split; [|split; [|split]].
  - split; [cbn [items set_exit log next_xattr_id]; by rewrite Hn'|].
    cbn [set_exit log next_xattr_id]. rewrite Hn'.
    unfold U64_MAX in *. lia.
  - split; [done|]. by exists (next_xattr_id st).
  - exact Hn'.
  - intros n V' Hn. unfold stored. cbn [items set_exit log].
    split; intros (Hv' & id & Hat); (split; [done|]); exists id;
      eapply (replaced_frame _ _ _ _ _ _ _ Hwfx ltac:(lia) Hv Hrep Hold);
      eauto.
Qed.

Lemma xattr_set_trans_remove E ino key fp id (xat : list byte) bytes st :
  fault_free E →
  1 <= fp <= 255 → 0 <= skx_name_hash key < U32_MOD →
  (∀ q, 0 <= q < fp →
     is_Some (items st !! part_key ino (skx_name_hash key) (skx_id key) q)) →
  ∃ st',
    xattr_set_trans E ino key fp None id xat bytes st = Some (0, st') ∧
    next_xattr_id st' = next_xattr_id st ∧
    ∀ k, items st' !! k
         = if decide (in_parts ino (skx_name_hash key) (skx_id key) 0 fp k)
           then None else items st !! k.
Proof.
  intros HE Hfp Hh Hparts. unfold xattr_set_trans.
  rewrite call_ff by done. cbn [Z.ltb Z.compare].
  rewrite (proj2 (Z.eqb_neq fp 0)) by lia. cbn [negb].
  unfold delete_xattr_items.
  rewrite (init_xattr_key_part_key ino _ _ Hh).
  destruct (delete_loop_ff E ino (skx_name_hash key) (skx_id key) fp
              (S (Z.to_nat fp)) HE 0 [] (log EvDirtyInode st) ltac:(lia)
              ltac:(lia) Hparts ltac:(lia)) as (saved & st1 & Hd).
  rewrite Hd. cbn [mbind option_bind].
  rewrite bool_decide_eq_false_2 by (by intros [? ?]).
  cbn [andb mbind option_bind Z.ltb Z.compare].
  eexists. split; [done|].
  destruct (delete_loop_ok E ino _ _ fp _ 0 _ _ _ _ Hd ltac:(lia)
              ltac:(lia)) as [_ Hmap].
  destruct (delete_loop_inv E _ _ _ _ _ _ _ _ Hd) as (_ & Hnx & _).
  { intros kv Hkv. inversion Hkv. }
  split; [exact Hnx|exact Hmap].
Qed.

Lemma wf_removed m m' ino b name V id :
  wf_xattrs m ino b →
  valid_xattr name V → xattr_at m ino id name V →
  (∀ k, m' !! k
        = if decide (in_parts ino (name_hash_of name) id 0
                       (nr_parts_of name V) k)
          then None else m !! k) →
  wf_xattrs m' ino b ∧
  (∀ id' V', valid_xattr name V' → xattr_head m' ino id' name V' → False) ∧
  ∀ n id' V', n ≠ name → valid_xattr n V' →
    (xattr_at m' ino id' n V' ↔ xattr_at m ino id' n V').
Proof.
  intros [Hwf Hcomp] Hv Hat Hmap.
  destruct (nr_parts_bounds name V Hv) as (HN & _).
  set (h := name_hash_of name) in *.
  set (N := nr_parts_of name V) in *.
  pose proof (xattr_at_head _ _ _ _ _ Hv Hat) as Hhead.
  assert (Hsub : ∀ k v, m' !! k = Some v → m !! k = Some v).
  { intros k v Hk. rewrite Hmap in Hk. by destruct (decide _). }
  assert (Hgone : ∀ q v, 0 <= q < N →
            m' !! part_key ino h id q = Some v → False).
  { intros q v Hq Hk. rewrite Hmap, decide_True in Hk; [done|].
    apply in_parts_part_key_iff. lia. }
  assert (Hother : ∀ h1 id1 q, ¬ (h1 = h ∧ id1 = id) →
            m' !! part_key ino h1 id1 q = m !! part_key ino h1 id1 q).
  { intros h1 id1 q Hnn. rewrite Hmap, decide_False; [done|].
    rewrite in_parts_part_key_iff. tauto. }
  assert (Hsame_name : ∀ n v id1, valid_xattr n v →
            xattr_head m ino id1 n v →
            name_hash_of n = h → id1 = id →
            n = name ∧ nr_parts_of n v = N).
  { intros n v id1 Hvn Hh1 Hhn ->. unfold xattr_head in Hh1, Hhead.
    rewrite Hhn in Hh1. fold h in Hhead. rewrite Hhead in Hh1.
    injection Hh1 as Hp0.
    destruct (part0_name_inj _ _ _ _ Hv Hvn Hp0) as [<- Hl].
    split; [done|]. unfold N, nr_parts_of. by rewrite Hl. }
  split; [split; [split|]|split].
  - intros k v Hk Hx. pose proof (Hsub _ _ Hk) as Hkm.
    destruct (wf_part _ _ _ Hwf _ _ Hkm Hx)
      as (n1 & V1 & Hv1 & Hh1 & Hhd1 & Hp1 & Hid1).
    exists n1, V1. split; [done|]. split; [done|].
    split; [|done]. unfold xattr_head in *.
    rewrite Hother; [done|]. intros [Hhn Hidk].
    destruct (Hsame_name _ _ _ Hv1 Hhd1 Hhn Hidk) as [-> HN1].
    rewrite (is_xattr_key_eq _ _ Hx) in Hk.
    rewrite Hh1, Hidk in Hk. eapply Hgone; [|exact Hk]. lia.
  - intros id1 id2 n v1 v2 Hv1 Hv2 Hh1 Hh2.
    exact (wf_unique _ _ _ Hwf id1 id2 n v1 v2 Hv1 Hv2 (Hsub _ _ Hh1)
             (Hsub _ _ Hh2)).
  - intros id1 n v Hvn Hhd. pose proof (Hsub _ _ Hhd) as Hhdm.
    destruct (Hcomp _ _ _ Hvn Hhdm) as (v' & Hv' & Hat').
    exists v'. split; [done|]. intros q Hq.
    rewrite Hother; [by apply Hat'|]. intros [Hhn ->].
    eapply (Hgone 0); [lia|]. unfold xattr_head in Hhd.
    rewrite Hhn in Hhd. exact Hhd.
  - intros id' V' Hv' Hhd. pose proof (Hsub _ _ Hhd) as Hhdm.
    assert (id' = id) as ->
      by exact (wf_unique _ _ _ Hwf id' id name V' V Hv' Hv Hhdm Hhead).
    eapply (Hgone 0); [lia|exact Hhd].
  - intros n id' V' Hn Hv'.
    assert (Hnn : xattr_head m ino id' n V' →
                  ¬ (name_hash_of n = h ∧ id' = id)).
    { intros Hh1 [Hhn Hid].
      by destruct (Hsame_name _ _ _ Hv' Hh1 Hhn Hid) as [-> _]. }
    split; intros Hat1.
    + intros q Hq. by apply Hsub, Hat1.
    + pose proof (xattr_at_head _ _ _ _ _ Hv' Hat1) as Hh1.
      intros q Hq. rewrite Hother; [by apply Hat1|by apply Hnn].
Qed.

Lemma xattr_set_locked_removes E ino name size flags (xat : list byte) bytes
    st V0 :
  fault_free E →
  wf_fs st ino →
  name ≠ [] → Z.of_nat (length name) <= SCOUTFS_XATTR_MAX_NAME_LEN →
  sizeof_scoutfs_xattr + Z.of_nat (length name) <= Z.of_nat (length xat) →
  stored st ino name V0 →
  Z.land flags XATTR_CREATE = 0 →
  ∃ st' id V,
    xattr_set_locked E ino name None size flags xat bytes st
      = Some (0, st') ∧
    next_xattr_id st' = next_xattr_id st ∧
    valid_xattr name V ∧ xattr_at (items st) ino id name V ∧
    ∀ k, items st' !! k
         = if decide (in_parts ino (name_hash_of name) id 0
                        (nr_parts_of name V) k)
           then None else items st !! k.
Proof.
  intros HE [Hwf Hnext] Hne Hnl Hlen (Hv0 & id0 & Hat0) Hcr0.
  unfold xattr_set_locked.
  destruct (set_find E ino (next_xattr_id st) name xat st HE Hwf ltac:(lia)
              Hne Hnl Hlen)
    as (r & key & xat1 & st1 & Hget & Hcase).
  rewrite Hget. cbn [mbind option_bind].
  pose proof (get_next_xattr_reads _ _ _ _ _ _ _ _ _ _ _ _ _ Hget)
    as (Hi1 & Hn1 & _).
  destruct Hcase as [[-> Habs]|(-> & id & V & Hv & Hat & Hkh & Hkid & Hnp)].
  { exfalso. eapply Habs; [exact Hv0|]. by apply xattr_at_head. }
  destruct (nr_parts_bounds name V Hv) as (HN & _).
  unfold sizeof_scoutfs_xattr in *.
  rewrite Hcr0.
  rewrite (proj2 (Z.ltb_ge _ 0)) by lia.
  rewrite (proj2 (Z.eqb_neq _ (- ENOENT))) by (unfold ENOENT; lia).
  rewrite (proj2 (Z.leb_le 0 _)) by lia.
  cbn [negb andb Z.eqb].
  rewrite Hnp. rewrite (Z.mod_small (nr_parts_of name V))
    by (unfold U8_MOD; lia).
  pose proof (index_retry_ff E (busy_rounds E) st1 HE) as Hr3.
  pose proof (index_retry_state E (busy_rounds E) st1) as [Hi3 Hn3].
  destruct (index_retry E (busy_rounds E) st1) as [r3 st3].
  simpl in Hr3, Hi3, Hn3. subst r3. cbn [Z.eqb negb].
  destruct (xattr_set_trans_remove E ino key (nr_parts_of name V) 0 xat1
              bytes st3 HE ltac:(lia)) as (st4 & Htr & Hn4 & Hmap).
  { rewrite Hkh. apply name_hash_of_range. }
  { intros q Hq. rewrite Hkh, Hkid, Hi3, Hi1. rewrite (Hat q Hq). eauto. }
  rewrite Htr. cbn [mbind option_bind].
  exists (log EvIndexUnlock (log EvReleaseTrans st4)), id, V.
  split; [done|]. cbn [next_xattr_id items log].
  split; [by rewrite Hn4, Hn3|]. split; [done|]. split; [done|].
  intros k. rewrite Hmap, Hkh, Hkid, Hi3, Hi1. done.
Qed.

Lemma xattr_set_removes E ino name size flags st V0 :
  fault_free E →
  wf_fs st ino →
  unknown_prefix name = false →
  stored st ino name V0 →
  0 <= size <= XATTR_SIZE_MAX →
  flags_ok flags → Z.land flags XATTR_CREATE = 0 →
  ∃ st',
    scoutfs_xattr_set E ino name None size flags st = Some (0, st') ∧
    wf_fs st' ino ∧ absent st' ino name ∧
    next_xattr_id st' = next_xattr_id st ∧
    ∀ n V', n ≠ name → (stored st' ino n V' ↔ stored st ino n V').
Proof.
  intros HE Hwf Hp Hst Hsize Hflags Hcr0.
  pose proof Hst as ([Hnl _] & _). pose proof Hwf as [Hwfx Hnext].
  pose proof (known_prefix_nonempty _ Hp) as Hne.
  rewrite (xattr_set_unfold_ff E ino name None size flags st HE Hnl
             ltac:(by intros [? ?]) Hflags Hp Hsize).
  cbv zeta.
  set (bytes := sizeof_scoutfs_xattr + Z.of_nat (length name) + size).
  destruct (xattr_set_locked_removes E ino name size flags
              (map (junk E) (seq 0 (Z.to_nat bytes))) bytes
              (set_entry bytes st) V0 HE Hwf Hne Hnl)
    as (st1 & id & V & Hs & Hn1 & Hv & Hat & Hmap); [|exact Hst|exact Hcr0|].
  { rewrite length_map, length_seq. unfold bytes, sizeof_scoutfs_xattr.
    lia. }
  rewrite Hs. cbn [mbind option_bind].
  change (items (set_entry bytes st)) with (items st) in Hat, Hmap.
  change (next_xattr_id (set_entry bytes st)) with (next_xattr_id st) in Hn1.
  destruct (wf_removed _ _ _ _ _ _ _ Hwfx Hv Hat Hmap)
    as (Hwf' & Hgone & Hframe).
  exists (set_exit st1). split; [done|].
  split; [|split; [|split]].
  - split; cbn [items set_exit log next_xattr_id]; by rewrite Hn1.
  - intros V' (Hv' & id' & Hat'). cbn [items set_exit log] in Hat'.
    eapply Hgone; [exact Hv'|]. by apply xattr_at_head.
  - exact Hn1.
  - intros n V' Hn. unfold stored. cbn [items set_exit log].
    split; intros (Hv' & id' & Hat'); (split; [done|]); exists id';
      by eapply Hframe.
Qed.

Lemma flags_cases_ok st ino name flags :
  flags = 0 ∨ (flags = XATTR_CREATE ∧ absent st ino name) ∨
  (flags = XATTR_REPLACE ∧ ∃ V0, stored st ino name V0) →
  flags_ok flags ∧
  (Z.land flags XATTR_CREATE ≠ 0 → absent st ino name) ∧
  (Z.land flags XATTR_REPLACE ≠ 0 → ∃ V0, stored st ino name V0).
Proof.
  intros [->|[[-> Habs]|[-> Hst]]]; (split; [done|]); split; try done.
Qed.

Lemma getxattr_same E ino name size st st' :
  fault_free E →
  wf_fs st ino → wf_fs st' ino →
  (∀ V, stored st' ino name V ↔ stored st ino name V) →
  unknown_prefix name = false →
  Z.of_nat (length name) <= SCOUTFS_XATTR_MAX_NAME_LEN →
  0 <= size <= XATTR_SIZE_MAX →
  ∃ r s1 s2,
    scoutfs_getxattr E ino name size st = Some (r, s1) ∧
    scoutfs_getxattr E ino name size st' = Some (r, s2).
Proof.
  intros HE Hwf Hwf' Hiff Hp Hnl Hsize.
  pose proof Hwf as [[Hh Hc] Hn]. pose proof Hwf' as [[Hh' Hc'] Hn'].
  destruct (stored_or_absent st ino name Hwf) as [[V Hst]|Habs].
  - destruct (getxattr_stored E ino _ name V size st HE Hh (proj2 Hn) Hp
                Hst Hsize) as (s1 & H1 & _).
    destruct (getxattr_stored E ino _ name V size st' HE Hh' (proj2 Hn') Hp
                (proj2 (Hiff V) Hst) Hsize) as (s2 & H2 & _).
    by exists (getxattr_result size V), s1, s2.
  - assert (Habs' : absent st' ino name).
    { intros V Hst. apply (Habs V). by apply Hiff. }
    destruct (getxattr_absent E ino _ name size st HE (proj1 Hwf) (proj2 Hn)
                Hp Hnl Habs Hsize) as (s1 & H1).
    destruct (getxattr_absent E ino _ name size st' HE (proj1 Hwf')
                (proj2 Hn') Hp Hnl Habs' Hsize) as (s2 & H2).
    by exists (- ENODATA, []), s1, s2.
Qed.

Lemma setxattr_value (V : list byte) :
  (if Z.of_nat (length V) =? 0 then Some [] else Some V) = Some V.
Proof.
  destruct (Z.eqb_spec (Z.of_nat (length V)) 0) as [H0|H0]; [|done].
  destruct V; [done|simpl in H0; lia].
Qed.

(** X3: without faults, on a well-formed store, set of a name and
    value within the limits returns 0 when the flags allow it: no flag,
    CREATE for a name that is not stored, REPLACE for one that is.  The
    store is well-formed afterwards, the name is stored with the new value
    and the id counter has advanced by one. *)
Theorem setxattr_succeeds E ino name V flags st :
  fault_free E →
  wf_fs st ino → next_xattr_id st < U64_MAX →
  unknown_prefix name = false → valid_xattr name V →
  flags = 0 ∨ (flags = XATTR_CREATE ∧ absent st ino name) ∨
  (flags = XATTR_REPLACE ∧ ∃ V0, stored st ino name V0) →
  ∃ st',
    scoutfs_setxattr E ino name (Some V) (Z.of_nat (length V)) flags st
      = Some (0, st') ∧
    wf_fs st' ino ∧ stored st' ino name V ∧
    next_xattr_id st' = next_xattr_id st + 1.
Proof.
  intros HE Hwf Hnx Hp Hv Hflags.
  destruct (flags_cases_ok st ino name flags Hflags) as (Hok & Hcr & Hre).
  unfold scoutfs_setxattr. cbv zeta. rewrite setxattr_value.
  destruct (xattr_set_succeeds E ino name V flags st HE Hwf Hnx Hp Hv Hok
              Hcr Hre) as (st' & Hs & Hwf' & Hst & Hn & _).
  by exists st'.
Qed.

(** X4: a set that succeeds changes the answer of get for no other
    name: for every other name of a known namespace, get returns the same
    code and the same bytes before and after the set. *)
Theorem setxattr_keeps_other_names E ino name V flags st :
  fault_free E →
  wf_fs st ino → next_xattr_id st < U64_MAX →
  unknown_prefix name = false → valid_xattr name V →
  flags = 0 ∨ (flags = XATTR_CREATE ∧ absent st ino name) ∨
  (flags = XATTR_REPLACE ∧ ∃ V0, stored st ino name V0) →
  ∃ st',
    scoutfs_setxattr E ino name (Some V) (Z.of_nat (length V)) flags st
      = Some (0, st') ∧
    ∀ E' n size,
      fault_free E' → n ≠ name → unknown_prefix n = false →
      Z.of_nat (length n) <= SCOUTFS_XATTR_MAX_NAME_LEN →
      0 <= size <= XATTR_SIZE_MAX →
      ∃ r s1 s2,
        scoutfs_getxattr E' ino n size st = Some (r, s1) ∧
        scoutfs_getxattr E' ino n size st' = Some (r, s2).
Proof.
  intros HE Hwf Hnx Hp Hv Hflags.
  destruct (flags_cases_ok st ino name flags Hflags) as (Hok & Hcr & Hre).
  unfold scoutfs_setxattr. cbv zeta. rewrite setxattr_value.
  destruct (xattr_set_succeeds E ino name V flags st HE Hwf Hnx Hp Hv Hok
              Hcr Hre) as (st' & Hs & Hwf' & _ & _ & Hframe).
  exists st'. split; [done|].
  intros E' n size HE' Hn Hpn Hnl Hsize.
  apply getxattr_same; try done. intros V'. by apply Hframe.
Qed.

(** X5: without faults, on a well-formed store, remove of a stored
    name of a known namespace returns 0.  Afterwards the store is
    well-formed, get of that name returns -ENODATA, the id counter is
    unchanged, and get of every other name returns what it returned
    before. *)
Theorem removexattr_removes E ino name V0 st :
  fault_free E →
  wf_fs st ino →
  unknown_prefix name = false →
  stored st ino name V0 →
  ∃ st',
    scoutfs_removexattr E ino name st = Some (0, st') ∧
    wf_fs st' ino ∧ absent st' ino name ∧
    next_xattr_id st' = next_xattr_id st ∧
    (∀ E' size,
       fault_free E' → 0 <= size <= XATTR_SIZE_MAX →
       ∃ s, scoutfs_getxattr E' ino name size st'
            = Some (- ENODATA, [], s)) ∧
    (∀ E' n size,
       fault_free E' → n ≠ name → unknown_prefix n = false →
       Z.of_nat (length n) <= SCOUTFS_XATTR_MAX_NAME_LEN →
       0 <= size <= XATTR_SIZE_MAX →
       ∃ r s1 s2,
         scoutfs_getxattr E' ino n size st = Some (r, s1) ∧
         scoutfs_getxattr E' ino n size st' = Some (r, s2)).
Proof.
  intros HE Hwf Hp Hst. unfold scoutfs_removexattr.
  destruct (xattr_set_removes E ino name 0 XATTR_REPLACE st V0 HE Hwf Hp
              Hst ltac:(unfold XATTR_SIZE_MAX; lia) eq_refl eq_refl)
    as (st' & Hs & Hwf' & Habs & Hn & Hframe).
  exists st'. split; [done|]. split; [done|]. split; [done|].
  split; [done|]. pose proof Hst as ([Hnl _] & _).
  pose proof Hwf' as [Hwfx' Hn']. split.
  - intros E' size HE' Hsize.
    by apply (getxattr_absent E' ino (next_xattr_id st')); try done;
      try apply Hn'.
  - intros E' n size HE' Hnn Hpn Hnln Hsize.
    apply getxattr_same; try done. intros V'. by apply Hframe.
Qed.

Lemma xattr_set_locked_noop E ino bound name size flags (xat : list byte)
    bytes st :
  fault_free E →
  wf_xattrs (items st) ino bound → bound <= U64_MAX →
  name ≠ [] → Z.of_nat (length name) <= SCOUTFS_XATTR_MAX_NAME_LEN →
  sizeof_scoutfs_xattr + Z.of_nat (length name) <= Z.of_nat (length xat) →
  absent st ino name →
  Z.land flags XATTR_REPLACE = 0 →
  ∃ st', xattr_set_locked E ino name None size flags xat bytes st
         = Some (0, st') ∧ reads_only st st'.
Proof.
  intros HE Hwf Hb Hne Hnl Hxat Habs Hfl.
  destruct (set_find E ino bound name xat st HE Hwf Hb Hne Hnl Hxat)
    as (r & key & xat1 & st1 & Hget & Hcase).
  unfold xattr_set_locked. rewrite Hget. cbn [mbind option_bind].
  pose proof (get_next_xattr_reads _ _ _ _ _ _ _ _ _ _ _ _ _ Hget) as Hro.
  destruct Hcase as [[-> _]|(-> & id & V & Hv & Hat & _)].
  2: { exfalso. apply (Habs V). split; [done|]. by exists id. }
  change (- ENOENT <? 0) with true.
  rewrite Z.eqb_refl, Hfl. cbn [andb negb Z.eqb].
  change (0 <=? - ENOENT) with false. cbn [andb].
  rewrite bool_decide_eq_false_2 by (by intros [? ?]). cbn [negb].
  by exists st1.
Qed.

(** X6: setxattr with a null value pointer and a size that is not 0
    deletes.  Without faults, on a well-formed store: if the name is stored
    and the flags are 0 or REPLACE it returns 0 and the name is gone; if
    the name is not stored and the flags are 0 or CREATE it returns 0
    after taking the lock and scanning, with the items and the id counter
    unchanged and no transaction begun. *)
Theorem setxattr_null_value_deletes E ino name size st :
  fault_free E →
  wf_fs st ino →
  unknown_prefix name = false →
  Z.of_nat (length name) <= SCOUTFS_XATTR_MAX_NAME_LEN →
  0 < size <= XATTR_SIZE_MAX →
  (∀ V0 flags,
     stored st ino name V0 → flags = 0 ∨ flags = XATTR_REPLACE →
     ∃ st',
       scoutfs_setxattr E ino name None size flags st = Some (0, st') ∧
       wf_fs st' ino ∧ absent st' ino name ∧
       next_xattr_id st' = next_xattr_id st) ∧
  (∀ flags,
     absent st ino name → flags = 0 ∨ flags = XATTR_CREATE →
     ∃ st' reads,
       scoutfs_setxattr E ino name None size flags st = Some (0, st') ∧
       items st' = items st ∧ next_xattr_id st' = next_xattr_id st ∧
       Forall is_item_next reads ∧
       trace st'
       = [EvUnlock DLM_LOCK_EX; EvUpWrite] ++ reads
         ++ [EvDownWrite; EvLockInode DLM_LOCK_EX;
             EvKmalloc (sizeof_scoutfs_xattr + Z.of_nat (length name)
                        + size)]
         ++ trace st).
Proof.
  intros HE Hwf Hp Hnl Hsize.
  pose proof (known_prefix_nonempty _ Hp) as Hne.
  assert (Hval : (if size =? 0 then Some [] else None)
                 = (None : option (list byte))).
  { by rewrite (proj2 (Z.eqb_neq size 0)) by lia. }
  unfold scoutfs_setxattr. cbv zeta. rewrite Hval. split.
  - intros V0 flags Hst Hflags.
    destruct (xattr_set_removes E ino name size flags st V0 HE Hwf Hp Hst
                ltac:(lia)) as (st' & Hs & Hwf' & Habs & Hn & _).
    { by destruct Hflags as [->| ->]. }
    { by destruct Hflags as [->| ->]. }
    by exists st'.
  - intros flags Habs Hflags.
    rewrite (xattr_set_unfold_ff E ino name None size flags st HE Hnl
               ltac:(by intros [? ?])
               ltac:(by destruct Hflags as [->| ->]) Hp ltac:(lia)).
    cbv zeta.
    set (bytes := sizeof_scoutfs_xattr + Z.of_nat (length name) + size).
    destruct Hwf as [Hwf Hnext].
    edestruct (xattr_set_locked_noop E ino (next_xattr_id st) name size
                 flags (map (junk E) (seq 0 (Z.to_nat bytes))) bytes
                 (set_entry bytes st))
      as (st1 & -> & (Hi & Hn & reads & Htr & Hreads));
      [exact HE|exact Hwf|lia|exact Hne|exact Hnl| |exact Habs| |].
    { rewrite length_map, length_seq. unfold bytes, sizeof_scoutfs_xattr.
      lia. }
    { by destruct Hflags as [->| ->]. }
    exists (set_exit st1), reads.
    split; [done|]. split; [done|]. split; [done|]. split; [done|].
    cbn [trace set_exit log]. rewrite Htr. cbn [trace set_entry log].
    done.
Qed.

(** X7: setxattr with size 0 stores the empty value, whatever the
    value pointer is: without faults, on a well-formed store and with
    flags that allow it, it returns 0, and get of the name then returns 0
    and no bytes. *)
Theorem setxattr_size_zero_stores_empty E ino name value flags st :
  fault_free E →
  wf_fs st ino → next_xattr_id st < U64_MAX →
  unknown_prefix name = false →
  Z.of_nat (length name) <= SCOUTFS_XATTR_MAX_NAME_LEN →
  flags = 0 ∨ (flags = XATTR_CREATE ∧ absent st ino name) ∨
  (flags = XATTR_REPLACE ∧ ∃ V0, stored st ino name V0) →
  ∃ st',
    scoutfs_setxattr E ino name value 0 flags st = Some (0, st') ∧
    stored st' ino name [] ∧
    ∀ E' size,
      fault_free E' → 0 <= size <= XATTR_SIZE_MAX →
      ∃ s, scoutfs_getxattr E' ino name size st' = Some (0, [], s).
Proof.
  intros HE Hwf Hnx Hp Hnl Hflags.
  destruct (flags_cases_ok st ino name flags Hflags) as (Hok & Hcr & Hre).
  assert (Hv : valid_xattr name []).
  { split; [done|]. unfold SCOUTFS_XATTR_MAX_VAL_LEN. simpl. lia. }
  unfold scoutfs_setxattr. cbv zeta. cbn [Z.eqb].
  destruct (xattr_set_succeeds E ino name [] flags st HE Hwf Hnx Hp Hv Hok
              Hcr Hre) as (st' & Hs & Hwf' & Hst & _).
  exists st'. split; [exact Hs|]. split; [done|].
  intros E' size HE' Hsize. destruct Hwf' as [[Hh _] Hn'].
  destruct (getxattr_stored E' ino _ name [] size st' HE' Hh (proj2 Hn') Hp
              Hst Hsize) as (s & Hg & _).
  exists s. rewrite Hg. unfold getxattr_result.
  destruct (decide (size = 0)); [done|].
  by rewrite decide_False by (simpl; lia).
Qed.

(** ** What get and list never do *)

Lemma listxattr_loop_reads E ino bytes size fuel :
  ∀ (xat : list byte) name_hash id total out st ret out' st',
  listxattr_loop fuel E ino xat bytes size name_hash id total out st
    = Some (ret, out', st') →
  reads_only st st'.
Proof.
  induction fuel as [|fuel IH];
    intros xat name_hash id total out st ret out' st' Hl; [done|].
  cbn [listxattr_loop] in Hl.
  destruct (get_next_xattr E ino xat bytes [] 0 name_hash id st)
    as [[[[r key] xat1] st1]|] eqn:Hget; [|done].
  cbn [mbind option_bind] in Hl.
  pose proof (get_next_xattr_reads _ _ _ _ _ _ _ _ _ _ _ _ _ Hget) as Hro.
  destruct (r <? 0); [by injection Hl as <- <- <-|].
  destruct (_ && _); [by injection Hl as <- <- <-|].
  eapply reads_only_trans; [exact Hro|]. eapply IH. exact Hl.
Qed.

Lemma item_next_cases E key last n st r k data st1 :
  scoutfs_item_next E key last n st = (r, k, data, st1) →
  st1 = log (EvItemNext key) st ∧
  (r < 0 ∨
   (0 <= r ∧ ∃ v, next_in_range key last (items st) = Some (k, v))).
Proof.
  unfold scoutfs_item_next. intros H.
  destruct (fault E (length (trace st))) as [e|].
  { injection H as <- <- <- <-. split; [done|]. left. lia. }
  destruct (next_in_range key last (items st)) as [[k0 v0]|].
  - injection H as <- <- <- <-. split; [done|]. right.
    split; [lia|]. by exists v0.
  - injection H as <- <- <- <-. split; [done|]. left. unfold ENOENT. lia.
Qed.

(** The scan returns in every environment: an iteration that does not end
    it has found an item and moves the cursor behind that item, to its next
    part or to the next id, and over a well-formed store neither wraps. *)
Lemma get_next_loop_total E ino bound bytes name name_len name_hash fuel :
  bound <= U64_MAX →
  ∀ key part lp total (xat : list byte) st,
    wf_heads (items st) ino bound →
    is_xattr_key ino key →
    0 <= part <= lp → lp <= 255 →
    (keys_from (set_part key part) (items st) < fuel)%nat →
    ∃ res,
      get_next_loop fuel E (last_key ino) bytes name name_len name_hash key
        part lp total xat st = Some res.
Proof.
  intros Hbound.
  induction fuel as [|fuel IH];
    intros key part lp total xat st Hwf Hkey Hpart Hlp Hfuel; [lia|].
  cbn [get_next_loop].
  destruct (scoutfs_item_next E (set_part key part) (last_key ino)
              (Some (bytes - total)) st) as [[[r k] data] st1] eqn:Hin.
  apply item_next_cases in Hin as (-> & Hcase).
  cbv beta iota zeta.
  destruct (Z.ltb_spec r 0) as [Hr|Hr]; [by eexists|].
  destruct Hcase as [?|(_ & v & Hnext)]; [lia|].
  apply next_in_range_Some in Hnext as (Hk & Hlo & Hhi & _).
  assert (Hlo' := Hlo).
  rewrite (is_xattr_key_eq _ _ Hkey), set_part_part_key in Hlo'.
  assert (Hx : is_xattr_key ino k).
  { rewrite last_key_part_key in Hhi.
    eapply between_is_xattr_key; [exact Hlo'|exact Hhi]. }
  destruct (wf_part _ _ _ Hwf _ _ Hk Hx)
    as (n1 & V1 & _ & _ & _ & _ & Hid1).
  destruct (Z.eqb_spec (skx_part k) part) as [Hpk|Hpk]; cbn [negb];
    [|by eexists].
  set (xat1 := kvec_copy xat total data).
  set (st1 := log (EvItemNext (set_part key part)) st).
  match goal with
  | |- context [if ?b then Some (- EIO, k, xat1, st1) else _] => destruct b
  end; [by eexists|].
  assert (Hk_eq : k = part_key ino (skx_name_hash k) (skx_id k) part).
  { rewrite <- Hpk. by apply is_xattr_key_eq. }
  assert (Hfin : ∀ lp', part <= lp' <= 255 →
    ∃ res,
      (if (total + r =? bytes) || (part =? lp')
       then Some (total + r, k, xat1, st1)
       else get_next_loop fuel E (last_key ino) bytes name name_len
              name_hash k ((part + 1) mod U8_MOD) lp' (total + r) xat1 st1)
      = Some res).
  { intros lp' Hlp'.
    destruct ((total + r =? bytes) || (part =? lp')) eqn:Hstop;
      [by eexists|].
    apply orb_false_iff in Hstop as [_ Hne]. apply Z.eqb_neq in Hne.
    rewrite Z.mod_small by (unfold U8_MOD; lia).
    apply IH; [done|done|lia|lia|].
    cbn [items log st1].
    eapply Nat.lt_le_trans; [|apply Nat.lt_succ_r; exact Hfuel].
    assert (Hlt : key_lt k (set_part k (part + 1))).
    { rewrite Hk_eq, set_part_part_key. apply part_key_lt. lia. }
    eapply keys_from_lt; [exact Hk|exact Hlo|exact Hlt|].
    apply key_lt_le. eapply key_le_lt_trans; [exact Hlo|exact Hlt]. }
  destruct ((part =? 0) && negb (name_len =? 0)) eqn:Hmode;
    [|apply Hfin; lia].
  apply andb_true_iff in Hmode as [Hp0 _]. apply Z.eqb_eq in Hp0.
  destruct (negb (skx_name_hash k =? name_hash)); [by eexists|].
  destruct (negb (xattr_names_equal name name_len (xat_name xat1)
                    (xat_name_len xat1))).
  - assert (Hid : (skx_id k + 1) mod U64_MOD = skx_id k + 1).
    { apply Z.mod_small. unfold U64_MOD, U64_MAX in *. lia. }
    rewrite Hid. apply IH; [done| |lia|lia|].
    + destruct Hx as (? & ? & ?). by repeat split.
    + cbn [items log st1].
      eapply Nat.lt_le_trans; [|apply Nat.lt_succ_r; exact Hfuel].
      assert (Hnew : set_part (set_id k (skx_id k + 1)) 0
                     = part_key ino (skx_name_hash k) (skx_id k + 1) 0).
      { destruct Hx as (Hz & Hi & Ht). unfold set_part, set_id, part_key.
        cbn. by rewrite Hz, Hi, Ht. }
      assert (Hlt : key_lt k (set_part (set_id k (skx_id k + 1)) 0)).
      { rewrite Hnew, Hk_eq. apply part_key_lt.
        cbn [skx_name_hash skx_id part_key]. lia. }
      eapply keys_from_lt; [exact Hk|exact Hlo|exact Hlt|].
      apply key_lt_le. eapply key_le_lt_trans; [exact Hlo|exact Hlt].
  - apply Hfin.
    pose proof (Z.mod_pos_bound (xattr_nr_parts xat1 - 1) U8_MOD).
    unfold U8_MOD in *. lia.
Qed.

Lemma get_next_xattr_total E ino bound (xat : list byte) bytes name name_len
    name_hash id st :
  wf_heads (items st) ino bound → bound <= U64_MAX →
  ∃ res,
    get_next_xattr E ino xat bytes name name_len name_hash id st = Some res.
Proof.
  intros Hwf Hb. unfold get_next_xattr.
  destruct (_ && _); [by eexists|].
  apply (get_next_loop_total E ino bound); try done; try lia.
  pose proof (keys_from_size
                (set_part
                   (init_xattr_key ino
                      (if negb (name_len =? 0)
                       then xattr_name_hash name name_len else name_hash)
                      id) 0) (items st)).
  unfold scan_fuel, nr_items. lia.
Qed.

(** The key that the scan without a name returns with a count of bytes is
    the first item at or after the cursor, and it is a part 0. *)
Lemma get_next_xattr_enum E ino (xat : list byte) bytes h c st r k xat' st' :
  get_next_xattr E ino xat bytes [] 0 h c st = Some (r, k, xat', st') →
  0 <= r →
  ∃ v,
    next_in_range (init_xattr_key ino h c) (last_key ino) (items st)
      = Some (k, v) ∧
    skx_part k = 0.
Proof.
  unfold get_next_xattr, scan_fuel.
  replace (nr_items st + 257)%nat with (S (nr_items st + 256)) by lia.
  cbn [Z.ltb Z.compare andb Z.eqb negb get_next_loop].
  change (set_part (init_xattr_key ino h c) 0)
    with (init_xattr_key ino h c).
  destruct (scoutfs_item_next E (init_xattr_key ino h c)
              (init_xattr_key ino U32_MAX U64_MAX) (Some (bytes - 0)) st)
    as [[[r0 k0] data] st1] eqn:Hin.
  apply item_next_cases in Hin as (-> & Hcase).
  cbv beta iota zeta. intros Hres Hr.
  destruct (Z.ltb_spec r0 0) as [Hr0|Hr0].
  { rewrite andb_false_r in Hres. injection Hres as <- _ _ _. lia. }
  destruct Hcase as [?|(_ & v & Hnext)]; [lia|].
  destruct (Z.eqb_spec (skx_part k0) 0) as [Hp|Hp]; cbn [negb] in Hres.
  2: { injection Hres as <- _ _ _. unfold EIO in Hr. lia. }
  match type of Hres with
  | (if ?b then _ else _) = _ => destruct b
  end.
  { injection Hres as <- _ _ _. unfold EIO in Hr. lia. }
  rewrite orb_true_r in Hres. injection Hres as _ <- _ _.
  by exists v.
Qed.

(** The loop of list returns in every environment over a well-formed
    store: each name it has listed moves the cursor behind an item. *)
Lemma listxattr_loop_total E ino bound bytes size fuel :
  bound <= U64_MAX →
  ∀ (xat : list byte) h c total out st,
    wf_heads (items st) ino bound →
    (keys_from (init_xattr_key ino h c) (items st) < fuel)%nat →
    ∃ res,
      listxattr_loop fuel E ino xat bytes size h c total out st = Some res.
Proof.
  intros Hb.
  induction fuel as [|fuel IH]; intros xat h c total out st Hwf Hfuel;
    [lia|].
  cbn [listxattr_loop].
  destruct (get_next_xattr_total E ino bound xat bytes [] 0 h c st Hwf Hb)
    as [[[[r k] xat1] st1] Hget].
  rewrite Hget. cbn [mbind option_bind].
  destruct (Z.ltb_spec r 0) as [Hr|Hr]; [by eexists|].
  destruct (_ && _); [by eexists|].
  destruct (get_next_xattr_reads _ _ _ _ _ _ _ _ _ _ _ _ _ Hget)
    as (Hi & _).
  destruct (get_next_xattr_enum _ _ _ _ _ _ _ _ _ _ _ Hget Hr)
    as (v & Hnext & Hp0).
  apply next_in_range_Some in Hnext as (Hk & Hlo & Hhi & _).
  assert (Hx : is_xattr_key ino k).
  { change (init_xattr_key ino h c)
      with (part_key ino (h mod U32_MOD) c 0) in Hlo.
    rewrite last_key_part_key in Hhi.
    eapply between_is_xattr_key; [exact Hlo|exact Hhi]. }
  destruct (wf_part _ _ _ Hwf _ _ Hk Hx)
    as (n1 & V1 & _ & Hh1 & _ & _ & Hid1).
  pose proof (name_hash_of_range n1) as Hhr. rewrite <- Hh1 in Hhr.
  apply IH; [by rewrite Hi|]. rewrite Hi.
  eapply Nat.lt_le_trans; [|apply Nat.lt_succ_r; exact Hfuel].
  assert (Hlt : key_lt k
                  (init_xattr_key ino (skx_name_hash k mod U32_MOD)
                     ((skx_id k + 1) mod U64_MOD))).
  { rewrite (is_xattr_key_eq _ _ Hx) at 1. rewrite Hp0.
    change (init_xattr_key ino ?hh ?ii)
      with (part_key ino (hh mod U32_MOD) ii 0).
    rewrite !(Z.mod_small (skx_name_hash k)) by done.
    rewrite (Z.mod_small (skx_id k + 1))
      by (unfold U64_MOD, U64_MAX in *; lia).
    apply part_key_lt. lia. }
  eapply keys_from_lt; [exact Hk|exact Hlo|exact Hlt|].
  apply key_lt_le. eapply key_le_lt_trans; [exact Hlo|exact Hlt].
Qed.

(** X8: over a well-formed store, in every environment of injected
    faults, get and list return and leave the items and the id counter as
    they were.  The calls they have made follow from the faults: none when
    get refuses the name; kmalloc alone when it gave no memory; kmalloc and
    lock_inode when the lock was not given; and when the lock was given,
    down_read, reads of the item store and nothing else, up_read and
    unlock, so that the rwsem and the lock are released whatever the scan
    has returned. *)
Theorem get_and_list_are_read_only E ino st :
  wf_fs st ino →
  (∀ name size,
     ∃ ret out st',
       scoutfs_getxattr E ino name size st = Some (ret, out, st') ∧
       items st' = items st ∧ next_xattr_id st' = next_xattr_id st ∧
       if unknown_prefix name
          || (SCOUTFS_XATTR_MAX_NAME_LEN <? Z.of_nat (length name))
       then st' = st
       else
         let bytes :=
           (sizeof_scoutfs_xattr + Z.of_nat (length name) + size)
             mod U32_MOD in
         match fault E (length (trace st)) with
         | Some _ =>
             ret = - ENOMEM ∧ trace st' = EvKmalloc bytes :: trace st
         | None =>
             match fault E (S (length (trace st))) with
             | Some e =>
                 ret = Z.neg e ∧
                 trace st'
                 = [EvLockInode DLM_LOCK_PR; EvKmalloc bytes] ++ trace st
             | None =>
                 ∃ reads,
                   Forall is_item_next reads ∧
                   trace st'
                   = [EvUnlock DLM_LOCK_PR; EvUpRead] ++ reads
                     ++ [EvDownRead; EvLockInode DLM_LOCK_PR;
                         EvKmalloc bytes]
                     ++ trace st
             end
         end) ∧
  (∀ size,
     ∃ ret out st',
       scoutfs_listxattr E ino size st = Some (ret, out, st') ∧
       items st' = items st ∧ next_xattr_id st' = next_xattr_id st ∧
       let bytes := sizeof_scoutfs_xattr + SCOUTFS_XATTR_MAX_NAME_LEN in
       match fault E (length (trace st)) with
       | Some _ => ret = - ENOMEM ∧ trace st' = EvKmalloc bytes :: trace st
       | None =>
           match fault E (S (length (trace st))) with
           | Some e =>
               ret = Z.neg e ∧
               trace st'
               = [EvLockInode DLM_LOCK_PR; EvKmalloc bytes] ++ trace st
           | None =>
               ∃ reads,
                 Forall is_item_next reads ∧
                 trace st'
                 = [EvUnlock DLM_LOCK_PR; EvUpRead] ++ reads
                   ++ [EvDownRead; EvLockInode DLM_LOCK_PR;
                       EvKmalloc bytes]
                   ++ trace st
           end
       end).
Proof.
  intros [[Hwf _] Hb]. split.
  - intros name size. unfold scoutfs_getxattr.
    destruct (unknown_prefix name); cbn [orb]; [by eexists _, _, _|].
    destruct (_ <? _); [by eexists _, _, _|].
    cbv zeta.
    set (bytes := (_ + _ + size) mod U32_MOD).
    unfold kmalloc, call. cbn [trace log length].
    destruct (fault E (length (trace st))); [by eexists _, _, _|].
    destruct (fault E (S (length (trace st)))) as [e|]; cbn [Z.eqb negb];
      [by eexists _, _, _|].
    destruct (get_next_xattr_total E ino (next_xattr_id st)
                (map (junk E) (seq 0 (Z.to_nat bytes))) bytes name
                (Z.of_nat (length name)) 0 0
                (log EvDownRead (log (EvLockInode DLM_LOCK_PR)
                   (log (EvKmalloc bytes) st))) Hwf ltac:(lia))
      as [[[[r key] xat1] st1] Hget].
    rewrite Hget. cbn [mbind option_bind].
    pose proof (get_next_xattr_reads _ _ _ _ _ _ _ _ _ _ _ _ _ Hget)
      as (Hi & Hn & reads & Htr & Hreads).
    set (st2 := log (EvUnlock DLM_LOCK_PR) (log EvUpRead st1)).
    assert (Hres : ∃ ret out,
      (if r <? 0
       then Some (if r =? - ENOENT then - ENODATA else r, [], st2)
       else if size =? 0 then Some (xat_val_len xat1, [], st2)
       else if size <? xat_val_len xat1 then Some (- ERANGE, [], st2)
       else if r <? xattr_full_bytes xat1 then Some (- EIO, [], st2)
       else Some (xat_val_len xat1,
                  take (Z.to_nat (xat_val_len xat1))
                    (drop (Z.to_nat (xat_name_len xat1)) (xat_name xat1)),
                  st2))
      = Some (ret, out, st2)).
    { repeat (destruct (_ <? _) || destruct (_ =? _)); by eexists _, _. }
    destruct Hres as (ret & out & ->).
    exists ret, out, st2. split; [done|]. split; [done|]. split; [done|].
    exists reads. split; [done|]. cbn [trace log st2]. by rewrite Htr.
  - intros size. unfold scoutfs_listxattr. cbv zeta.
    set (bytes := sizeof_scoutfs_xattr + SCOUTFS_XATTR_MAX_NAME_LEN).
    unfold kmalloc, call. cbn [trace log length].
    destruct (fault E (length (trace st))); [by eexists _, _, _|].
    destruct (fault E (S (length (trace st)))) as [e|]; cbn [Z.eqb negb];
      [by eexists _, _, _|].
    set (st0 := log EvDownRead _).
    destruct (listxattr_loop_total E ino (next_xattr_id st) bytes size
                (S (nr_items st0 + Z.to_nat size)) ltac:(lia)
                (map (junk E) (seq 0 (Z.to_nat bytes))) 0 0 0 [] st0 Hwf)
      as [[[r out] st1] Hloop].
    { pose proof (keys_from_size (init_xattr_key ino 0 0) (items st)).
      unfold nr_items. cbn [items st0 log]. lia. }
    rewrite Hloop. cbn [mbind option_bind].
    pose proof (listxattr_loop_reads _ _ _ _ _ _ _ _ _ _ _ _ _ _ Hloop)
      as (Hi & Hn & reads & Htr & Hreads).
    eexists _, _, _. split; [done|]. split; [done|]. split; [done|].
    exists reads. split; [done|]. cbn [trace log]. by rewrite Htr.
Qed.

Lemma listxattr_loop_erange E ino bound size :
  fault_free E → bound <= U64_MAX → size ≠ 0 →
  ∀ ents fuel h c total out (xat : list byte) st,
    wf_heads (items st) ino bound →
    listed (items st) ino h c ents →
    0 <= h < U32_MOD →
    Z.of_nat (length xat)
      = sizeof_scoutfs_xattr + SCOUTFS_XATTR_MAX_NAME_LEN →
    (length ents < fuel)%nat →
    total <= size < total + listing_size ents.*2 →
    ∃ k st',
      listxattr_loop fuel E ino xat
        (sizeof_scoutfs_xattr + SCOUTFS_XATTR_MAX_NAME_LEN) size h c total
        out st
      = Some (- ERANGE, out ++ listing (take k ents.*2), st') ∧
      total + listing_size (take k ents.*2) <= size ∧
      items st' = items st.
Proof.
  intros HE Hbound Hs0 ents.
  induction ents as [|[id n] ents IH];
    intros fuel h c total out xat st Hwf Hl Hh Hxat Hfuel Hsize.
  { simpl in Hsize. lia. }
  destruct fuel as [|fuel]; [simpl in Hfuel; lia|].
  cbn [listxattr_loop]. unfold get_next_xattr.
  cbn [Z.ltb Z.compare andb Z.eqb negb].
  rewrite (init_xattr_key_part_key ino h c Hh).
  fold (last_key ino).
  replace (scan_fuel st) with (S (nr_items st + 256))
    by (unfold scan_fuel; lia).
  inversion Hl as [|? ? ? ? V ? Hv Hnext Hrest]; subst.
  pose proof Hnext as Hn.
  apply next_in_range_Some in Hn as (Hk & _ & _ & _).
  destruct (head_in_range ino bound _ Hwf Hbound id n V Hk) as [Hid _].
  pose proof (step_head E (nr_items st + 256) ino
                (sizeof_scoutfs_xattr + SCOUTFS_XATTR_MAX_NAME_LEN) [] h
                (part_key ino h c 0) 0 xat st (name_hash_of n) id n V HE
                Hv Hnext) as Hs.
  cbv zeta in Hs. cbn [length] in Hs. change (Z.of_nat 0) with 0 in Hs.
  rewrite Hs by (unfold sizeof_scoutfs_xattr, SCOUTFS_XATTR_MAX_NAME_LEN
                   in *; lia).
  clear Hs. rewrite decide_True by done.
  rewrite Z.eqb_refl, orb_true_r. cbn [mbind option_bind].
  set (bytes := sizeof_scoutfs_xattr + SCOUTFS_XATTR_MAX_NAME_LEN) in *.
  destruct (head_data_spec bytes n V xat Hv ltac:(unfold bytes,
              sizeof_scoutfs_xattr, SCOUTFS_XATTR_MAX_NAME_LEN in *; lia))
    as (Hret & Htake & Hlen).
  set (data := head_data bytes n V) in *.
  set (xat' := kvec_copy xat 0 data) in *.
  pose proof (length_xattr_encode n V) as HL.
  pose proof Hv as [Hv1 Hv2].
  unfold bytes, sizeof_scoutfs_xattr, SCOUTFS_XATTR_MAX_NAME_LEN,
    SCOUTFS_XATTR_MAX_VAL_LEN in Hret, HL, Hv1, Hv2.
  destruct (header_of_prefix xat' (length data) n V ltac:(lia) Htake Hv)
    as (Hnl & _).
  pose proof (name_of_prefix xat' (length data) n V ltac:(lia) Htake)
    as Hname.
  rewrite (proj2 (Z.ltb_ge (Z.of_nat (length data)) 0)) by lia.
  rewrite Hnl, Nat2Z.id, Hname.
  cbn [skx_name_hash skx_id part_key].
  pose proof (name_hash_of_range n) as Hhn.
  rewrite (Z.mod_small (name_hash_of n)) by done.
  rewrite (Z.mod_small (id + 1)) by (unfold U64_MOD, U64_MAX in *; lia).
  rewrite fmap_cons in Hsize. cbn [snd listing_size foldr] in Hsize.
  fold (listing_size ents.*2) in Hsize.
  rewrite (proj2 (Z.eqb_neq size 0)) by done. cbn [negb andb].
  destruct (Z.ltb_spec size (total + (Z.of_nat (length n) + 1)))
    as [Hlt|Hge].
  - exists 0%nat. eexists. rewrite take_0. cbn [listing foldr].
    rewrite app_nil_r. split; [done|]. split; [simpl; lia|done].
  - edestruct (IH fuel (name_hash_of n) (id + 1)
                 (total + (Z.of_nat (length n) + 1))
                 (out ++ n ++ [x00]) xat'
                 (log (EvItemNext (set_part (part_key ino h c 0) 0)) st))
      as (k & st' & Hloop & Hfit & Hi);
      [exact Hwf|exact Hrest|exact Hhn| | | |].
    + fold bytes. lia.
    + simpl in Hfuel. lia.
    + lia.
    + fold bytes in Hloop. rewrite Hloop. exists (S k), st'.
      rewrite fmap_cons. cbn [snd take listing listing_size foldr].
      fold (listing (take k ents.*2)).
      fold (listing_size (take k ents.*2)).
      split; [by rewrite <- !app_assoc|]. split; [lia|done].
Qed.

(** X9: without faults, on a well-formed store, list with size 0
    returns the number of bytes that the names need, and list with a
    buffer that is not empty but smaller than that returns -ERANGE; what it
    has written then are whole names, each followed by a NUL, that fit the
    buffer. *)
Theorem listxattr_buffer_too_small E ino st :
  fault_free E → wf_fs st ino →
  ∃ total s0 names,
    scoutfs_listxattr E ino 0 st = Some (total, [], s0) ∧
    total = listing_size names ∧
    (∀ n, n ∈ names ↔ ∃ V, stored st ino n V) ∧
    ∀ size, 0 < size < total →
      ∃ k st',
        scoutfs_listxattr E ino size st
        = Some (- ERANGE, listing (take k names), st') ∧
        listing_size (take k names) <= size ∧
        items st' = items st.
Proof.
  intros HE [[Hwf Hcomplete] Hnext].
  destruct (listed_exists (items st) ino (next_xattr_id st) Hwf
              ltac:(lia) 0 0) as [ents Hl].
  assert (Hb : next_xattr_id st <= U64_MAX) by lia.
  set (bytes := sizeof_scoutfs_xattr + SCOUTFS_XATTR_MAX_NAME_LEN).
  set (st1 := log EvDownRead
                (log (EvLockInode DLM_LOCK_PR) (log (EvKmalloc bytes) st))).
  assert (Hxat : Z.of_nat (length (map (junk E) (seq 0 (Z.to_nat bytes))))
                 = bytes).
  { rewrite length_map, length_seq. unfold bytes, sizeof_scoutfs_xattr,
      SCOUTFS_XATTR_MAX_NAME_LEN. lia. }
  assert (Hfuel : ∀ size,
            (length ents < S (nr_items st1 + Z.to_nat size))%nat).
  { intros size. pose proof (listed_length _ _ _ _ _ Hl).
    pose proof (keys_from_size (part_key ino 0 0 0) (items st)).
    unfold nr_items. cbn [items st1 log]. lia. }
  assert (Hunfold : ∀ size,
    scoutfs_listxattr E ino size st
    = listxattr_loop (S (nr_items st1 + Z.to_nat size)) E ino
        (map (junk E) (seq 0 (Z.to_nat bytes))) bytes size 0 0 0 [] st1
      ≫= λ '(ret, out, st),
           Some (ret, out, log (EvUnlock DLM_LOCK_PR) (log EvUpRead st))).
  { intros size. unfold scoutfs_listxattr.
    rewrite kmalloc_ff, call_ff by done. done. }
  destruct (listxattr_loop_listed E ino (next_xattr_id st) 0 HE Hb ents
              (S (nr_items st1 + Z.to_nat 0)) 0 0 0 []
              (map (junk E) (seq 0 (Z.to_nat bytes))) st1 Hwf Hl
              ltac:(unfold U32_MOD; lia) Hxat (Hfuel 0) ltac:(by left))
    as (s0 & Hloop0 & _).
  exists (listing_size ents.*2), (log (EvUnlock DLM_LOCK_PR)
                                    (log EvUpRead s0)), ents.*2.
  split; [|split; [done|split]].
  - rewrite Hunfold. fold bytes in Hloop0. rewrite Hloop0. done.
  - intros n. split.
    + intros Hin. apply list_elem_of_fmap in Hin as ([id n'] & -> & Hin).
      destruct (listed_sound _ _ _ _ _ Hl _ _ Hin) as (V & Hv & Hh & _).
      destruct (Hcomplete _ _ _ Hv Hh) as (V' & Hv' & Hat).
      exists V'. split; [done|]. by exists id.
    + intros (V & Hv & id & Hat).
      pose proof (xattr_at_head _ _ _ _ _ Hv Hat) as Hh.
      destruct (head_in_range ino _ _ Hwf Hb id n V Hh) as [Hid _].
      pose proof (name_hash_of_range n).
      apply list_elem_of_fmap. exists (id, n). split; [done|].
      eapply (listed_complete ino _ _ Hwf Hb); eauto. lia.
  - intros size Hsize.
    destruct (listxattr_loop_erange E ino (next_xattr_id st) size HE Hb
                ltac:(lia) ents (S (nr_items st1 + Z.to_nat size)) 0 0 0 []
                (map (junk E) (seq 0 (Z.to_nat bytes))) st1 Hwf Hl
                ltac:(unfold U32_MOD; lia) Hxat (Hfuel size) ltac:(lia))
      as (k & st' & Hloop & Hfit & Hi).
    exists k, (log (EvUnlock DLM_LOCK_PR) (log EvUpRead st')).
    rewrite Hunfold. fold bytes in Hloop. rewrite Hloop.
    split; [done|]. split; [lia|done].
Qed.

(** ** What drop never does *)

Lemma item_next_frame E key last val_len st r k d st' :
  scoutfs_item_next E key last val_len st = (r, k, d, st') →
  items st' = items st ∧ next_xattr_id st' = next_xattr_id st ∧
  (0 <= r → key_le key k ∧ key_le k last).
Proof.
  unfold scoutfs_item_next. intros Hn.
  destruct (fault E (length (trace st))) as [e|].
  { injection Hn as <- <- <- <-. repeat split; try done; lia. }
  destruct (next_in_range key last (items st)) as [[k1 v1]|] eqn:Hnext.
  - injection Hn as <- <- <- <-.
    apply next_in_range_Some in Hnext as (_ & Hlo & Hhi & _). done.
  - injection Hn as <- <- <- <-. repeat split; try done;
      unfold ENOENT in *; lia.
Qed.

Lemma item_delete_frame E k st r st' :
  scoutfs_item_delete E k st = (r, st') →
  next_xattr_id st' = next_xattr_id st ∧
  (items st' = items st ∨ items st' = delete k (items st)).
Proof.
  unfold scoutfs_item_delete. intros Hd.
  destruct (fault E (length (trace st))) as [e|].
  { injection Hd as <- <-. split; [done|by left]. }
  destruct (items st !! k).
  - injection Hd as <- <-. split; [done|by right].
  - injection Hd as <- <-. split; [done|by left].
Qed.

Lemma drop_loop_frame E ino fuel :
  ∀ key nitems holding st r h' st',
  xattr_drop_loop fuel E key (last_key ino) nitems holding st
    = Some (r, h', st') →
  key_le (first_key ino) key →
  next_xattr_id st' = next_xattr_id st ∧
  (∀ k v, items st' !! k = Some v → items st !! k = Some v) ∧
  (∀ k, ¬ (key_le (first_key ino) k ∧ key_le k (last_key ino)) →
        items st' !! k = items st !! k).
Proof.
  induction fuel as [|fuel IH];
    intros key nitems holding st r h' st' Hl Hkey; [done|].
  cbn [xattr_drop_loop] in Hl.
  destruct (scoutfs_item_next E key (last_key ino) None st)
    as [[[r1 k1] d1] st1] eqn:Hn.
  apply item_next_frame in Hn as (Hi1 & Hn1 & Hrange).
  destruct (Z.ltb_spec r1 0) as [Hneg|Hpos].
  { injection Hl as <- <- <-. rewrite Hi1. done. }
  destruct (Hrange Hpos) as [Hlo Hhi].
  assert (Hk1 : key_le (first_key ino) k1) by (eapply key_le_trans; eauto).
  destruct (if negb holding
            then let '(ret, st) := call E (EvHoldTrans nitems) st1 in
                 (ret, bool_decide (ret = 0), st)
            else (0, holding, st1)) as [[r2 h2] st2] eqn:Hh.
  assert (Hst2 : items st2 = items st ∧ next_xattr_id st2 = next_xattr_id st).
  { destruct (negb holding); unfold call in Hh; injection Hh as <- <- <-;
      cbn [items next_xattr_id log]; by rewrite ?Hi1, ?Hn1. }
  destruct Hst2 as [Hi2 Hn2].
  destruct (negb (r2 =? 0)).
  { injection Hl as <- <- <-. rewrite Hi2. done. }
  destruct (scoutfs_item_delete E k1 st2) as [r3 st3] eqn:Hd.
  apply item_delete_frame in Hd as (Hn3 & Hi3).
  assert (Hstep : (∀ k v, items st3 !! k = Some v → items st !! k = Some v) ∧
                  (∀ k, ¬ (key_le (first_key ino) k ∧
                           key_le k (last_key ino)) →
                        items st3 !! k = items st !! k)).
  { destruct Hi3 as [-> | ->]; rewrite Hi2; [done|]. split.
    - intros k v Hk. by apply lookup_delete_Some in Hk as [_ Hk].
    - intros k Hk. rewrite lookup_delete_ne; [done|].
      intros Heq. apply Hk. by rewrite <- Heq. }
  destruct Hstep as [Hsub Hout].
  destruct (negb (r3 =? 0)).
  { injection Hl as <- <- <-. split; [by rewrite Hn3|done]. }
  destruct (_ =? 0).
  - destruct (IH _ _ _ _ _ _ _ Hl Hk1) as (Hn4 & Hsub4 & Hout4).
    cbn [items next_xattr_id log] in Hn4, Hsub4, Hout4.
    split; [by rewrite Hn4, Hn3|]. split.
    + intros k v Hk. by apply Hsub, Hsub4.
    + intros k Hk. rewrite Hout4 by done. by apply Hout.
  - destruct (IH _ _ _ _ _ _ _ Hl Hk1) as (Hn4 & Hsub4 & Hout4).
    split; [by rewrite Hn4, Hn3|]. split.
    + intros k v Hk. by apply Hsub, Hsub4.
    + intros k Hk. rewrite Hout4 by done. by apply Hout.
Qed.

(** X10: in any environment drop returns, and whatever it returns
    it has created no item, has left every item outside the key range of
    the xattrs of its inode as it was, and has not touched the id
    counter. *)
Theorem drop_touches_only_its_inode E ino st :
  ∃ ret st',
    scoutfs_xattr_drop E ino st = Some (ret, st') ∧
    next_xattr_id st' = next_xattr_id st ∧
    (∀ k v, items st' !! k = Some v → items st !! k = Some v) ∧
    (∀ k, ¬ (key_le (init_xattr_key ino 0 0) k ∧
             key_le k (init_xattr_key ino U32_MAX U64_MAX)) →
          items st' !! k = items st !! k).
Proof.
  destruct (drop_total E ino st) as (ret & st' & _ & _ & _ & Hd & _).
  exists ret, st'. split; [exact Hd|].
  unfold scoutfs_xattr_drop in Hd.
  destruct (xattr_drop_loop _ _ _ _ _ _ _) as [[[r h'] st1]|] eqn:Hl;
    [|done].
  cbn [mbind option_bind] in Hd. injection Hd as <- <-.
  destruct (drop_loop_frame E ino _ _ _ _ _ _ _ _ Hl (key_le_refl _))
    as (Hn & Hsub & Hout).
  destruct h'; cbn [items next_xattr_id log]; done.
Qed.

(** ** Arguments that are refused *)

Lemma strncmp_ne_prefix name pfx :
  strncmp_ne name pfx = false ↔ pfx `prefix_of` name.
Proof.
  unfold strncmp_ne. rewrite negb_false_iff, bool_decide_eq_true. split.
  - intros Ht. exists (drop (length pfx) name).
    rewrite <- Ht at 1. by rewrite take_drop.
  - intros [k ->]. by rewrite take_app_length.
Qed.

Lemma unknown_prefix_spec name :
  unknown_prefix name = true ↔
  ¬ XATTR_USER_PREFIX `prefix_of` name ∧
  ¬ XATTR_TRUSTED_PREFIX `prefix_of` name ∧
  ¬ XATTR_SYSTEM_PREFIX `prefix_of` name ∧
  ¬ XATTR_SECURITY_PREFIX `prefix_of` name.
Proof.
  unfold unknown_prefix. rewrite !andb_true_iff.
  rewrite <- !strncmp_ne_prefix.
  destruct (strncmp_ne name XATTR_USER_PREFIX),
    (strncmp_ne name XATTR_TRUSTED_PREFIX),
    (strncmp_ne name XATTR_SYSTEM_PREFIX),
    (strncmp_ne name XATTR_SECURITY_PREFIX); intuition congruence.
Qed.

Lemma flags_ok_cases flags :
  flags_ok flags →
  flags = 0 ∨ flags = XATTR_CREATE ∨ flags = XATTR_REPLACE.
Proof.
  unfold flags_ok, XATTR_CREATE, XATTR_REPLACE. intros Hf.
  apply orb_false_iff in Hf as [Hboth Hother].
  apply negb_false_iff, Z.eqb_eq in Hother.
  change (Z.lnot (Z.lor 1 2)) with (Z.lnot 3) in Hother.
  rewrite <- Z.ldiff_land in Hother.
  pose proof (Z.lor_ldiff_and flags 3) as Hsplit.
  rewrite Hother, Z.lor_0_l in Hsplit.
  change 3 with (Z.ones 2) in Hsplit.
  rewrite Z.land_ones in Hsplit by lia.
  pose proof (Z.mod_pos_bound flags (2 ^ 2) ltac:(lia)) as Hr.
  rewrite Hsplit in Hr. change (2 ^ 2) with 4 in Hr.
  assert (Hc : flags = 0 ∨ flags = 1 ∨ flags = 2 ∨ flags = 3) by lia.
  destruct Hc as [-> | [-> | [-> | ->]]]; auto. discriminate Hboth.
Qed.

(** X11: set with flags other than none, CREATE alone or REPLACE alone
    returns -EINVAL before anything is allocated, locked or read, for a
    name and a size within the limits; it does so whether or not the
    namespace of the name is known. *)
Theorem setxattr_rejects_bad_flags E ino name value size flags st :
  Z.of_nat (length name) <= SCOUTFS_XATTR_MAX_NAME_LEN →
  size <= SCOUTFS_XATTR_MAX_VAL_LEN →
  flags ≠ 0 → flags ≠ XATTR_CREATE → flags ≠ XATTR_REPLACE →
  scoutfs_setxattr E ino name value size flags st = Some (- EINVAL, st).
Proof.
  intros Hnl Hsz H0 H1 H2. unfold scoutfs_setxattr, scoutfs_xattr_set.
  cbv zeta.
  rewrite (proj2 (Z.ltb_ge _ _)) by lia.
  rewrite (proj2 (Z.ltb_ge SCOUTFS_XATTR_MAX_VAL_LEN size)) by lia.
  rewrite andb_false_r.
  destruct (_ || _) eqn:Hf; [done|].
  destruct (flags_ok_cases flags Hf) as [?|[?|?]]; done.
Qed.

(** X12: a name that starts with none of "user.", "trusted.",
    "system." and "security." is refused with -EOPNOTSUPP before anything
    is allocated, locked or read: by get whatever the length of the name,
    by set and remove when name, size and flags have passed their
    checks. *)
Theorem unknown_namespace_is_unsupported E ino name st :
  ¬ XATTR_USER_PREFIX `prefix_of` name →
  ¬ XATTR_TRUSTED_PREFIX `prefix_of` name →
  ¬ XATTR_SYSTEM_PREFIX `prefix_of` name →
  ¬ XATTR_SECURITY_PREFIX `prefix_of` name →
  (∀ size, scoutfs_getxattr E ino name size st
           = Some (- EOPNOTSUPP, [], st)) ∧
  (Z.of_nat (length name) <= SCOUTFS_XATTR_MAX_NAME_LEN →
   scoutfs_removexattr E ino name st = Some (- EOPNOTSUPP, st) ∧
   ∀ value size flags,
     size <= SCOUTFS_XATTR_MAX_VAL_LEN →
     flags = 0 ∨ flags = XATTR_CREATE ∨ flags = XATTR_REPLACE →
     scoutfs_setxattr E ino name value size flags st
     = Some (- EOPNOTSUPP, st)).
Proof.
  intros Hu Ht Hs Hsec.
  assert (Hp : unknown_prefix name = true) by (by apply unknown_prefix_spec).
  split.
  - intros size. unfold scoutfs_getxattr. by rewrite Hp.
  - intros Hnl. split.
    + unfold scoutfs_removexattr, scoutfs_xattr_set. cbv zeta.
      rewrite (proj2 (Z.ltb_ge _ _)) by lia.
      cbn [bool_decide andb]. rewrite bool_decide_eq_false_2
        by (by intros [? ?]).
      cbn [andb]. change (_ || _) with false. cbn iota. by rewrite Hp.
    + intros value size flags Hsz Hflags.
      unfold scoutfs_setxattr, scoutfs_xattr_set. cbv zeta.
      rewrite (proj2 (Z.ltb_ge _ _)) by lia.
      rewrite (proj2 (Z.ltb_ge SCOUTFS_XATTR_MAX_VAL_LEN size)) by lia.
      rewrite andb_false_r.
      assert (Hok : flags_ok flags)
        by (by destruct Hflags as [-> | [-> | ->]]).
      unfold flags_ok in Hok. rewrite Hok. by rewrite Hp.
Qed.

(** ** The header written by set and read by get *)

(** X13: what set writes into its buffer, get reads back: after the
    header, name and value have been copied into a buffer of exactly their
    size, the header fields give the lengths of the name and of the value,
    the name and the value lie behind the header, xattr_full_bytes is the
    size of the buffer, and xattr_nr_parts is between 1 and 255, so that
    it fits the u8 that counts parts. *)
Theorem prepare_xattr_round_trip (xat name V : list byte) :
  valid_xattr name V →
  Z.of_nat (length xat)
  = sizeof_scoutfs_xattr + Z.of_nat (length name) + Z.of_nat (length V) →
  let x := prepare_xattr xat name (Z.of_nat (length name)) V
             (Z.of_nat (length V)) in
  xat_name_len x = Z.of_nat (length name) ∧
  xat_val_len x = Z.of_nat (length V) ∧
  take (length name) (xat_name x) = name ∧
  take (length V) (drop (length name) (xat_name x)) = V ∧
  xattr_full_bytes x = Z.of_nat (length xat) ∧
  1 <= xattr_nr_parts x <= 255 ∧
  (xattr_nr_parts x - 1) * SCOUTFS_XATTR_MAX_PART_SIZE
    < Z.of_nat (length xat)
    <= xattr_nr_parts x * SCOUTFS_XATTR_MAX_PART_SIZE.
Proof.
  intros Hv Hlen. cbv zeta. pose proof Hv as [Hv1 Hv2].
  rewrite (prepare_xattr_encode xat name V Hlen Hv1).
  set (enc := xattr_encode name V).
  pose proof (length_xattr_encode name V) as HL. fold enc in HL.
  unfold sizeof_scoutfs_xattr in *.
  destruct (header_of_prefix enc (length enc) name V ltac:(lia) eq_refl Hv)
    as [Hnl Hvl].
  split; [done|]. split; [done|].
  split; [apply (name_of_prefix enc (length enc) name V); [lia|done]|].
  split; [apply (value_of_prefix enc (length enc) name V); [lia|done]|].
  unfold xattr_full_bytes, xattr_nr_parts, sizeof_scoutfs_xattr.
  rewrite Hnl, Hvl. split; [lia|].
  fold (nr_parts_of name V).
  destruct (nr_parts_bounds name V Hv) as [HN HNL]. fold enc in HNL.
  split; [done|]. lia.
Qed.

(** ** The scan by name, damaged items and the id counter *)

(** X14: get_next_xattr called with a name, from the cursor (0, 0), on a
    well-formed store without faults.  A buffer that cannot hold the header
    and the name is refused with -EINVAL and nothing is read.  Otherwise,
    for a stored name it returns the number of bytes it copied, the smaller
    of the size of the buffer and the size of header, name and value, and
    the buffer starts with that many bytes of them; for a name that is not
    stored it returns -ENOENT.  The items and the id counter stay as they
    were. *)
Theorem get_next_xattr_finds_the_name E ino name bytes (xat : list byte)
    st :
  fault_free E → wf_fs st ino → name ≠ [] →
  Z.of_nat (length name) <= SCOUTFS_XATTR_MAX_NAME_LEN →
  bytes <= Z.of_nat (length xat) →
  (bytes < sizeof_scoutfs_xattr + Z.of_nat (length name) →
   ∃ k, get_next_xattr E ino xat bytes name (Z.of_nat (length name)) 0 0 st
        = Some (- EINVAL, k, xat, st)) ∧
  (sizeof_scoutfs_xattr + Z.of_nat (length name) <= bytes →
   (∀ V, stored st ino name V →
      let n := Z.min bytes (Z.of_nat (length (xattr_encode name V))) in
      ∃ k xat' st',
        get_next_xattr E ino xat bytes name (Z.of_nat (length name)) 0 0 st
        = Some (n, k, xat', st') ∧
        take (Z.to_nat n) xat' = take (Z.to_nat n) (xattr_encode name V) ∧
        length xat' = length xat ∧
        items st' = items st ∧ next_xattr_id st' = next_xattr_id st) ∧
   (absent st ino name →
      ∃ k xat' st',
        get_next_xattr E ino xat bytes name (Z.of_nat (length name)) 0 0 st
        = Some (- ENOENT, k, xat', st') ∧
        items st' = items st ∧ next_xattr_id st' = next_xattr_id st)).
Proof.
  intros HE [Hwf Hnext] Hne Hnl Hxat. split.
  { intros Hsmall. unfold get_next_xattr.
    assert (Hpos : 0 < Z.of_nat (length name))
      by (destruct name; [done|simpl; lia]).
    rewrite (proj2 (Z.ltb_lt 0 _)) by done.
    rewrite (proj2 (Z.ltb_lt bytes _)) by done. by eexists. }
  intros Hbytes. split.
  - intros V (Hv & id & Hat). cbv zeta.
    destruct (lookup_hit E HE ino (next_xattr_id st) ltac:(lia) bytes name
                Hne Hnl Hbytes xat st V id (proj1 Hwf) Hxat Hv
                (xattr_at_head _ _ _ _ _ Hv Hat))
      as (pf & xat' & st' & Hget & Htake & Hlen & Hitems & Hid).
    { intros q Hq _. apply Hat. lia. }
    by exists (part_key ino (name_hash_of name) id pf), xat', st'.
  - intros Habs.
    destruct (lookup_miss E HE ino (next_xattr_id st) ltac:(lia) bytes name
                Hne Hnl Hbytes xat st (proj1 Hwf) Hxat
                (absent_no_head st ino _ name Hwf Habs))
      as (k & xat' & st' & Hget).
    exists k, xat', st'. split; [exact Hget|].
    destruct (get_next_xattr_reads _ _ _ _ _ _ _ _ _ _ _ _ _ Hget)
      as (Hi & Hn & _).
    done.
Qed.

Lemma step_damaged E fuel last bytes name name_len name_hash key lp
    (xat : list byte) st k v :
  fault_free E →
  next_in_range (set_part key 0) last (items st) = Some (k, v) →
  skx_part k ≠ 0 ∨ Z.of_nat (length v) < sizeof_scoutfs_xattr →
  get_next_loop (S fuel) E last bytes name name_len name_hash key 0 lp 0
    xat st
  = Some (- EIO, k, kvec_copy xat 0 (take (Z.to_nat bytes) v),
          log (EvItemNext (set_part key 0)) st).
Proof.
  intros HE Hnext Hbad. cbn [get_next_loop].
  rewrite item_next_ff by done. rewrite Hnext, Z.sub_0_r.
  rewrite (proj2 (Z.ltb_ge _ 0)) by lia.
  destruct (Z.eqb_spec (skx_part k) 0) as [Hp|Hp]; cbn [negb]; [|done].
  destruct Hbad as [Hbad|Hbad]; [done|].
  rewrite Z.eqb_refl. cbn [andb].
  rewrite (proj2 (Z.ltb_lt (Z.of_nat (length (take (Z.to_nat bytes) v)))
                    sizeof_scoutfs_xattr)).
  - done.
  - rewrite length_take. lia.
Qed.

(** X15: a lookup meets a damaged item.  If the first item of the inode at
    or after the cursor of the name, which is (hash of the name, id 0,
    part 0), is a continuation part, as when the first part of an xattr
    was lost and others remain, or is shorter than a header, get returns
    -EIO without faults, whatever the hash and the id of that item are;
    the items stay as they were. *)
Theorem damaged_first_item_is_corruption E ino name size st k v :
  fault_free E → unknown_prefix name = false →
  Z.of_nat (length name) <= SCOUTFS_XATTR_MAX_NAME_LEN →
  0 <= size <= XATTR_SIZE_MAX →
  items st !! k = Some v →
  key_le (part_key ino (name_hash_of name) 0 0) k →
  key_le k (last_key ino) →
  (∀ k' v', items st !! k' = Some v' →
            key_le (part_key ino (name_hash_of name) 0 0) k' →
            key_le k' (last_key ino) → key_le k k') →
  skx_part k ≠ 0 ∨ Z.of_nat (length v) < sizeof_scoutfs_xattr →
  ∃ st',
    scoutfs_getxattr E ino name size st = Some (- EIO, [], st') ∧
    items st' = items st ∧ next_xattr_id st' = next_xattr_id st.
Proof.
  intros HE Hp Hnl Hsize Hk Hlo Hhi Hleast Hbad.
  pose proof (known_prefix_nonempty _ Hp) as Hne.
  pose proof (next_in_range_least _ _ _ _ _ Hk Hlo Hhi Hleast) as Hnext.
  unfold scoutfs_getxattr. rewrite Hp.
  unfold SCOUTFS_XATTR_MAX_NAME_LEN, XATTR_SIZE_MAX, sizeof_scoutfs_xattr
    in *.
  rewrite (proj2 (Z.ltb_ge 255 _)) by lia.
  rewrite Z.mod_small by (unfold U32_MOD; lia).
  rewrite kmalloc_ff, call_ff by done. cbn [negb Z.eqb].
  set (bytes := 3 + Z.of_nat (length name) + size).
  unfold get_next_xattr, sizeof_scoutfs_xattr.
  rewrite (proj2 (Z.ltb_ge bytes _)) by (unfold bytes; lia).
  rewrite andb_false_r.
  assert (Hnl0 : (Z.of_nat (length name) =? 0) = false).
  { apply Z.eqb_neq. destruct name; [done|simpl; lia]. }
  rewrite Hnl0. cbn [negb]. rewrite xattr_name_hash_eq.
  rewrite (init_xattr_key_part_key ino (name_hash_of name) 0)
    by apply name_hash_of_range.
  replace (scan_fuel _) with (S (nr_items st + 256))
    by (unfold scan_fuel, nr_items; cbn [items log]; lia).
  rewrite (step_damaged E _ _ bytes name _ _ _ 0 _ _ k v HE); [|done|done].
  cbn [mbind option_bind]. by eexists.
Qed.

(** ** Lost parts *)








Lemma xattr_set_locked_id E ino name value size flags (xat : list byte)
    bytes st ret st' :
  xattr_set_locked E ino name value size flags xat bytes st
    = Some (ret, st') →
  Z.of_nat (length name) <= SCOUTFS_XATTR_MAX_NAME_LEN →
  0 <= size <= XATTR_SIZE_MAX →
  (∀ v, value = Some v →
        Z.of_nat (length v) = size ∧ size <= SCOUTFS_XATTR_MAX_VAL_LEN) →
  bytes = sizeof_scoutfs_xattr + Z.of_nat (length name) + size →
  Z.of_nat (length xat) = bytes →
  (next_xattr_id st' = next_xattr_id st ∨
   (is_Some value ∧
    next_xattr_id st' = (next_xattr_id st + 1) mod U64_MOD)) ∧
  (ret = 0 → is_Some value →
   next_xattr_id st' = (next_xattr_id st + 1) mod U64_MOD).
Proof.
  unfold xattr_set_locked, SCOUTFS_XATTR_MAX_NAME_LEN, XATTR_SIZE_MAX,
    SCOUTFS_XATTR_MAX_VAL_LEN, sizeof_scoutfs_xattr.
  intros Hs Hname Hsize Hval Hbytes Hlen.
  destruct (get_next_xattr E ino xat (3 + Z.of_nat (length name)) name
              (Z.of_nat (length name)) 0 0 st)
    as [[[[r key] xat1] st1]|] eqn:Hget; [|done].
  cbn [mbind option_bind] in Hs.
  pose proof (get_next_xattr_reads _ _ _ _ _ _ _ _ _ _ _ _ _ Hget)
    as (Hi1 & Hn1 & _).
  pose proof (get_next_xattr_length _ _ _ _ _ _ _ _ _ _ _ _ _ Hget) as Hl1.
  specialize (Hl1 ltac:(lia)).
  destruct ((r <? 0) && negb (r =? - ENOENT)) eqn:Hb1.
  { injection Hs as <- <-. split; [by left|]. intros ->.
    apply andb_true_iff in Hb1 as [Hb1 _]. apply Z.ltb_lt in Hb1. lia. }
  destruct ((r =? - ENOENT) && negb (Z.land flags XATTR_REPLACE =? 0)).
  { injection Hs as <- <-. split; [by left|done]. }
  destruct ((0 <=? r) && negb (Z.land flags XATTR_CREATE =? 0)).
  { injection Hs as <- <-. split; [by left|done]. }
  destruct ((r =? - ENOENT) && negb (bool_decide (is_Some value))) eqn:Hb4.
  { injection Hs as <- <-. split; [by left|]. intros _ Hv.
    apply andb_true_iff in Hb4 as [_ Hb4].
    rewrite bool_decide_eq_true_2 in Hb4 by done. done. }
  set (fp := if 0 <=? r then xattr_nr_parts xat1 mod U8_MOD else 0) in *.
  destruct (match value with
            | Some v =>
                (next_xattr_id st1,
                 prepare_xattr xat1 name (Z.of_nat (length name)) v size,
                 mk_fs (items st1) ((next_xattr_id st1 + 1) mod U64_MOD)
                   (trace st1))
            | None => (0, xat1, st1)
            end) as [[id xat2] st2] eqn:Hprep.
  assert (Hst2 : (next_xattr_id st2 = next_xattr_id st ∨
                  (is_Some value ∧
                   next_xattr_id st2
                   = (next_xattr_id st + 1) mod U64_MOD)) ∧
                 (is_Some value →
                  next_xattr_id st2
                  = (next_xattr_id st + 1) mod U64_MOD) ∧
                 (is_Some value →
                  Z.of_nat (length xat2) = bytes ∧ 1 <= bytes <= 65793)).
  { destruct value as [v|].
    - injection Hprep as <- <- <-. cbn [next_xattr_id]. rewrite Hn1.
      split; [right; eauto|]. split; [done|]. intros _.
      destruct (Hval v eq_refl) as [Hv1 Hv2]. subst size.
      rewrite prepare_xattr_encode.
      + rewrite length_xattr_encode. unfold sizeof_scoutfs_xattr. lia.
      + unfold sizeof_scoutfs_xattr. lia.
      + done.
    - injection Hprep as <- <- <-.
      split; [by left|]. split; by intros [? ?]. }
  destruct Hst2 as (Hid2 & Hadv2 & Hx2).
  pose proof (index_retry_state E (busy_rounds E) st2) as [_ Hn3].
  destruct (index_retry E (busy_rounds E) st2) as [r3 st3].
  simpl in Hn3.
  destruct (Z.eqb_spec r3 0) as [Hr3|Hr3]; cbn [negb] in Hs.
  2: { injection Hs as <- <-. rewrite Hn3. split; [exact Hid2|done]. }
  destruct (xattr_set_trans E ino key fp value id xat2 bytes st3)
    as [[r4 st4]|] eqn:Htr; [|done].
  cbn [mbind option_bind] in Hs. injection Hs as <- <-.
  destruct (xattr_set_trans_fail _ _ _ _ _ _ _ _ _ _ _ Htr Hx2)
    as (Hn4 & _ & _).
  cbn [next_xattr_id log]. rewrite Hn4, Hn3.
  split; [exact Hid2|]. intros _ Hv. by apply Hadv2.
Qed.

(** X16: the id counter under set, in any environment.  Whatever setxattr
    returns, it has drawn at most one id: the counter is as it was or has
    advanced by one, wrapping at 2^64.  A set that deletes (a null value
    with a size that is not 0) never draws an id; a set with a value that
    returns 0 has drawn exactly one.  A set that fails can have drawn one
    too: the counter is not rolled back with the items. *)
Theorem setxattr_draws_at_most_one_id E ino name value size flags st ret
    st' :
  0 <= size <= XATTR_SIZE_MAX →
  (∀ v, value = Some v → Z.of_nat (length v) = size) →
  scoutfs_setxattr E ino name value size flags st = Some (ret, st') →
  (next_xattr_id st' = next_xattr_id st ∨
   next_xattr_id st' = (next_xattr_id st + 1) mod U64_MOD) ∧
  (value = None → size ≠ 0 → next_xattr_id st' = next_xattr_id st) ∧
  (ret = 0 → is_Some value ∨ size = 0 →
   next_xattr_id st' = (next_xattr_id st + 1) mod U64_MOD).
Proof.
  intros Hsize Hval0 Hs. unfold scoutfs_setxattr in Hs.
  set (value' := if size =? 0 then Some [] else value) in *.
  assert (Hval : ∀ v, value' = Some v → Z.of_nat (length v) = size).
  { intros v Hv. unfold value' in Hv.
    destruct (Z.eqb_spec size 0) as [->|Hs0].
    - by injection Hv as <-.
    - by apply Hval0. }
  assert (Hnone : value = None → size ≠ 0 → ¬ is_Some value').
  { intros -> Hs0. unfold value'.
    rewrite (proj2 (Z.eqb_neq size 0)) by done. by intros [? ?]. }
  assert (Hsome : is_Some value ∨ size = 0 → is_Some value').
  { unfold value'. intros [Hv| ->]; [|by eexists].
    by destruct (size =? 0); [eexists|]. }
  assert (Hcore :
    (next_xattr_id st' = next_xattr_id st ∨
     (is_Some value' ∧
      next_xattr_id st' = (next_xattr_id st + 1) mod U64_MOD)) ∧
    (ret = 0 → is_Some value' →
     next_xattr_id st' = (next_xattr_id st + 1) mod U64_MOD)).
  { clearbody value'. clear Hval0 Hnone Hsome.
    unfold scoutfs_xattr_set in Hs.
    destruct (Z.ltb_spec SCOUTFS_XATTR_MAX_NAME_LEN
                (Z.of_nat (length name))) as [Hn|Hn].
    { injection Hs as <- <-. split; [by left|done]. }
    destruct (bool_decide (is_Some value') &&
              (SCOUTFS_XATTR_MAX_VAL_LEN <? size)) eqn:Hbig.
    { injection Hs as <- <-. split; [by left|done]. }
    destruct (_ || _).
    { injection Hs as <- <-. split; [by left|done]. }
    destruct (unknown_prefix name).
    { injection Hs as <- <-. split; [by left|done]. }
    unfold XATTR_SIZE_MAX, SCOUTFS_XATTR_MAX_NAME_LEN, sizeof_scoutfs_xattr
      in *.
    rewrite Z.mod_small in Hs by (unfold U32_MOD; lia).
    set (bytes := 3 + Z.of_nat (length name) + size) in *.
    destruct (kmalloc E bytes st) as [xat st1] eqn:Hk.
    apply kmalloc_spec in Hk as [-> Hx].
    destruct xat as [xat|].
    2: { injection Hs as <- <-. split; [by left|done]. }
    specialize (Hx xat eq_refl).
    destruct (call E (EvLockInode DLM_LOCK_EX) (log (EvKmalloc bytes) st))
      as [r1 st1] eqn:Hcall.
    assert (st1 = log (EvLockInode DLM_LOCK_EX) (log (EvKmalloc bytes) st))
      as -> by (unfold call in Hcall; congruence).
    destruct (Z.eqb_spec r1 0) as [Hr1|Hr1]; cbn [negb] in Hs.
    2: { injection Hs as <- <-. split; [by left|done]. }
    destruct (xattr_set_locked E ino name value' size flags xat bytes _)
      as [[r2 st2]|] eqn:Hl; [|done].
    cbn [mbind option_bind] in Hs. injection Hs as <- <-.
    cbn [next_xattr_id log].
    apply (xattr_set_locked_id _ _ _ _ _ _ _ _ _ _ _ Hl); try done.
    - intros v ->. split; [by apply Hval|].
      rewrite bool_decide_eq_true_2 in Hbig by eauto. simpl in Hbig.
      apply Z.ltb_ge in Hbig. done.
    - lia. }
  destruct Hcore as [Hid Hadv].
  split; [destruct Hid as [Hid|[_ Hid]]; [by left|by right]|].
  split.
  - intros Hv Hs0. destruct Hid as [Hid|[Hv' _]]; [done|].
    by destruct (Hnone Hv Hs0).
  - intros Hret Hv. apply Hadv; [done|by apply Hsome].
Qed.

(** ** Listing after a change *)

Lemma listing_size_perm (l k : list (list byte)) :
  l ≡ₚ k → listing_size l = listing_size k.
Proof. induction 1; simpl; lia. Qed.

Lemma listxattr_size_query E ino st :
  fault_free E → wf_fs st ino →
  ∃ names st',
    NoDup names ∧ (∀ n, n ∈ names ↔ ∃ V, stored st ino n V) ∧
    scoutfs_listxattr E ino 0 st = Some (listing_size names, [], st').
Proof.
  intros HE [[Hwf Hcomplete] Hnext].
  destruct (listed_exists (items st) ino (next_xattr_id st) Hwf
              ltac:(lia) 0 0) as [ents Hl].
  assert (Hb : next_xattr_id st <= U64_MAX) by lia.
  unfold scoutfs_listxattr.
  rewrite kmalloc_ff, call_ff by done. cbn [negb Z.eqb].
  set (bytes := sizeof_scoutfs_xattr + SCOUTFS_XATTR_MAX_NAME_LEN).
  set (st1 := log EvDownRead _).
  edestruct (listxattr_loop_listed E ino (next_xattr_id st) 0 HE Hb
               ents (S (nr_items st1 + Z.to_nat 0)) 0 0 0 []
               (map (junk E) (seq 0 (Z.to_nat bytes))) st1)
    as (st' & Hloop & _);
    [exact Hwf|exact Hl|unfold U32_MOD; lia| | |by left|].
  { rewrite length_map, length_seq. unfold bytes, sizeof_scoutfs_xattr,
      SCOUTFS_XATTR_MAX_NAME_LEN. lia. }
  { pose proof (listed_length _ _ _ _ _ Hl).
    pose proof (keys_from_size (part_key ino 0 0 0) (items st)).
    unfold nr_items. cbn [items st1 log]. lia. }
  fold bytes in Hloop. rewrite Hloop. cbn [mbind option_bind].
  rewrite Z.add_0_l. cbn [Z.eqb].
  exists ents.*2. eexists. split; [by eapply listed_NoDup|].
  split; [|done].
  intros n. split.
  - intros Hin. apply list_elem_of_fmap in Hin as ([id n'] & -> & Hin).
    destruct (listed_sound _ _ _ _ _ Hl _ _ Hin) as (V & Hv & Hh & _).
    destruct (Hcomplete _ _ _ Hv Hh) as (V' & Hv' & Hat).
    exists V'. split; [done|]. by exists id.
  - intros (V & Hv & id & Hat).
    pose proof (xattr_at_head _ _ _ _ _ Hv Hat) as Hh.
    destruct (head_in_range ino _ _ Hwf Hb id n V Hh) as [Hid _].
    pose proof (name_hash_of_range n).
    apply list_elem_of_fmap. exists (id, n). split; [done|].
    eapply (listed_complete ino _ _ Hwf Hb); eauto. lia.
Qed.

(** X17: set and list compose.  After a set that succeeds, the size that
    list reports has grown by the length of the name and its NUL if the
    name was not stored before, and is the same if the name was stored:
    replacing a value leaves one entry for the name. *)
Theorem listxattr_after_setxattr E ino name V flags st :
  fault_free E →
  wf_fs st ino → next_xattr_id st < U64_MAX →
  unknown_prefix name = false → valid_xattr name V →
  flags = 0 ∨ (flags = XATTR_CREATE ∧ absent st ino name) ∨
  (flags = XATTR_REPLACE ∧ ∃ V0, stored st ino name V0) →
  ∃ st' total total' s s',
    scoutfs_setxattr E ino name (Some V) (Z.of_nat (length V)) flags st
      = Some (0, st') ∧
    scoutfs_listxattr E ino 0 st = Some (total, [], s) ∧
    scoutfs_listxattr E ino 0 st' = Some (total', [], s') ∧
    (absent st ino name →
     total' = total + (Z.of_nat (length name) + 1)) ∧
    ((∃ V0, stored st ino name V0) → total' = total).
Proof.
  intros HE Hwf Hnx Hp Hv Hflags.
  destruct (flags_cases_ok st ino name flags Hflags) as (Hok & Hcr & Hre).
  unfold scoutfs_setxattr. cbv zeta. rewrite setxattr_value.
  destruct (xattr_set_succeeds E ino name V flags st HE Hwf Hnx Hp Hv Hok
              Hcr Hre) as (st' & Hs & Hwf' & Hst & _ & Hframe).
  destruct (listxattr_size_query E ino st HE Hwf)
    as (names & s & Hnd & Hin & Hl).
  destruct (listxattr_size_query E ino st' HE Hwf')
    as (names' & s' & Hnd' & Hin' & Hl').
  exists st', (listing_size names), (listing_size names'), s, s'.
  split; [done|]. split; [done|]. split; [done|]. split.
  - intros Habs.
    assert (Hperm : names' ≡ₚ name :: names).
    { apply NoDup_Permutation; [done| |].
      - constructor; [|done]. intros Hx. apply Hin in Hx as [V0 HV0].
        by apply (Habs V0).
      - intros n. rewrite Hin', elem_of_cons, Hin. split.
        + intros [V' HV'].
          destruct (decide (n = name)) as [->|Hne]; [by left|right].
          exists V'. by apply Hframe.
        + intros [->|[V' HV']]; [by exists V|].
          destruct (decide (n = name)) as [->|Hne]; [by exists V|].
          exists V'. by apply Hframe. }
    rewrite (listing_size_perm _ _ Hperm). simpl. lia.
  - intros [V0 HV0].
    assert (Hperm : names' ≡ₚ names).
    { apply NoDup_Permutation; [done|done|].
      intros n. rewrite Hin', Hin. split; intros [V' HV'].
      + destruct (decide (n = name)) as [->|Hne]; [by exists V0|].
        exists V'. by apply Hframe.
      + destruct (decide (n = name)) as [->|Hne]; [by exists V|].
        exists V'. by apply Hframe. }
    by rewrite (listing_size_perm _ _ Hperm).
Qed.

(** X18: remove and list compose.  After the remove of a stored name the
    size that list reports has shrunk by the length of the name and its
    NUL. *)
Theorem listxattr_after_removexattr E ino name V0 st :
  fault_free E →
  wf_fs st ino →
  unknown_prefix name = false →
  stored st ino name V0 →
  ∃ st' total total' s s',
    scoutfs_removexattr E ino name st = Some (0, st') ∧
    scoutfs_listxattr E ino 0 st = Some (total, [], s) ∧
    scoutfs_listxattr E ino 0 st' = Some (total', [], s') ∧
    total' = total - (Z.of_nat (length name) + 1).
Proof.
  intros HE Hwf Hp Hst. unfold scoutfs_removexattr.
  destruct (xattr_set_removes E ino name 0 XATTR_REPLACE st V0 HE Hwf Hp
              Hst ltac:(unfold XATTR_SIZE_MAX; lia) eq_refl eq_refl)
    as (st' & Hs & Hwf' & Habs & _ & Hframe).
  destruct (listxattr_size_query E ino st HE Hwf)
    as (names & s & Hnd & Hin & Hl).
  destruct (listxattr_size_query E ino st' HE Hwf')
    as (names' & s' & Hnd' & Hin' & Hl').
  exists st', (listing_size names), (listing_size names'), s, s'.
  split; [done|]. split; [done|]. split; [done|].
  assert (Hperm : names ≡ₚ name :: names').
  { apply NoDup_Permutation; [done| |].
    - constructor; [|done]. intros Hx. apply Hin' in Hx as [V1 HV1].
      by apply (Habs V1).
    - intros n. rewrite Hin, elem_of_cons, Hin'. split.
      + intros [V' HV'].
        destruct (decide (n = name)) as [->|Hne]; [by left|right].
        exists V'. by apply Hframe.
      + intros [->|[V' HV']]; [by exists V0|].
        destruct (decide (n = name)) as [->|Hne]; [by exists V0|].
        exists V'. by apply Hframe. }
  rewrite (listing_size_perm _ _ Hperm). simpl. lia.
Qed.

(** ** The keys that set touches *)

Lemma in_parts_is_xattr_key ino h id lo hi k :
  in_parts ino h id lo hi k → is_xattr_key ino k.
Proof. intros [-> _]. apply part_key_is_xattr_key. Qed.

Lemma xattr_set_trans_frame E ino key fp value id (xat : list byte) bytes st
    ret st' :
  xattr_set_trans E ino key fp value id xat bytes st = Some (ret, st') →
  0 <= fp <= 255 →
  (is_Some value → Z.of_nat (length xat) = bytes ∧ 1 <= bytes <= 65793) →
  ∀ k, ¬ is_xattr_key ino k → items st' !! k = items st !! k.
Proof.
  intros Hs Hfp Hval k Hk.
  destruct (xattr_set_trans_fail _ _ _ _ _ _ _ _ _ _ _ Hs Hval)
    as (_ & Hle & Hfail).
  destruct (decide (ret = 0)) as [->|Hret]; [|by rewrite Hfail].
  clear Hfail Hle. unfold xattr_set_trans in Hs.
  destruct (call E EvDirtyInode st) as [r0 st0] eqn:Hcall.
  assert (Hst0 : st0 = log EvDirtyInode st)
    by (unfold call in Hcall; congruence).
  subst st0.
  destruct (Z.ltb_spec r0 0) as [Hr0|Hr0].
  { injection Hs as Hr _. lia. }
  destruct (if negb (fp =? 0)
            then delete_xattr_items E ino (skx_name_hash key) (skx_id key)
                   fp [] (log EvDirtyInode st)
            else Some (0, [], log EvDirtyInode st))
    as [[[rd saved] std]|] eqn:Hd; [|done].
  cbn [mbind option_bind] in Hs.
  destruct (if bool_decide (is_Some value) && (rd =? 0)
            then create_xattr_items E ino id xat bytes std
            else Some (rd, std)) as [[rc stc]|] eqn:Hc; [|done].
  cbn [mbind option_bind] in Hs.
  destruct (Z.ltb_spec rc 0) as [Hlt|Hge].
  { injection Hs as Hrc _. lia. }
  injection Hs as <-. cbn [items scoutfs_item_free_batch log].
  assert (Hdel : rd <= 0 ∧
                 (rd = 0 → items std !! k = items st !! k)).
  { destruct (Z.eqb_spec fp 0) as [Hfp0|Hfp0]; cbn [negb] in Hd.
    - injection Hd as <- <- <-. done.
    - unfold delete_xattr_items in Hd.
      change (init_xattr_key ino ?hh ?i)
        with (part_key ino (hh mod U32_MOD) i 0) in Hd.
      split.
      + apply delete_loop_inv in Hd; [lia|].
        intros kv Hkv. inversion Hkv.
      + intros ->.
        destruct (delete_loop_ok E ino _ _ fp _ 0 _ _ _ _ Hd ltac:(lia)
                    ltac:(lia)) as [_ Hmap].
        rewrite Hmap, decide_False; [done|].
        intros Hin. apply Hk. by eapply in_parts_is_xattr_key. }
  destruct Hdel as [Hrd Hdel].
  destruct (bool_decide (is_Some value) && (rd =? 0)) eqn:Hb.
  - apply andb_true_iff in Hb as [Hb Hrd0].
    apply bool_decide_eq_true in Hb. apply Z.eqb_eq in Hrd0.
    destruct (Hval Hb) as [Hl Hbb].
    destruct (parts_count_bounds bytes Hbb) as (HN & HN1).
    unfold create_xattr_items in Hc.
    change (init_xattr_key ino ?hh id)
      with (part_key ino (hh mod U32_MOD) id 0) in Hc.
    destruct (create_loop_spec E ino _ id xat bytes _ _ Hl HN ltac:(lia)
                _ _ _ _ _ Hc ltac:(lia) ltac:(lia)) as (_ & Hrc & _ & Hok).
    destruct (Hok ltac:(lia)) as [_ Hmap].
    rewrite Hmap, decide_False; [by apply Hdel|].
    intros Hin. apply Hk. by eapply in_parts_is_xattr_key.
  - injection Hc as <- <-. apply Hdel. lia.
Qed.

Lemma xattr_set_locked_frame E ino name value size flags (xat : list byte)
    bytes st ret st' :
  xattr_set_locked E ino name value size flags xat bytes st
    = Some (ret, st') →
  Z.of_nat (length name) <= SCOUTFS_XATTR_MAX_NAME_LEN →
  0 <= size <= XATTR_SIZE_MAX →
  (∀ v, value = Some v →
        Z.of_nat (length v) = size ∧ size <= SCOUTFS_XATTR_MAX_VAL_LEN) →
  bytes = sizeof_scoutfs_xattr + Z.of_nat (length name) + size →
  Z.of_nat (length xat) = bytes →
  ∀ k, ¬ is_xattr_key ino k → items st' !! k = items st !! k.
Proof.
  unfold xattr_set_locked, SCOUTFS_XATTR_MAX_NAME_LEN, XATTR_SIZE_MAX,
    SCOUTFS_XATTR_MAX_VAL_LEN, sizeof_scoutfs_xattr.
  intros Hs Hname Hsize Hval Hbytes Hlen k Hk.
  destruct (get_next_xattr E ino xat (3 + Z.of_nat (length name)) name
              (Z.of_nat (length name)) 0 0 st)
    as [[[[r key] xat1] st1]|] eqn:Hget; [|done].
  cbn [mbind option_bind] in Hs.
  pose proof (get_next_xattr_reads _ _ _ _ _ _ _ _ _ _ _ _ _ Hget)
    as (Hi1 & Hn1 & _).
  pose proof (get_next_xattr_length _ _ _ _ _ _ _ _ _ _ _ _ _ Hget) as Hl1.
  specialize (Hl1 ltac:(lia)).
  destruct ((r <? 0) && negb (r =? - ENOENT)).
  { injection Hs as <- <-. by rewrite Hi1. }
  destruct ((r =? - ENOENT) && negb (Z.land flags XATTR_REPLACE =? 0)).
  { injection Hs as <- <-. by rewrite Hi1. }
  destruct ((0 <=? r) && negb (Z.land flags XATTR_CREATE =? 0)).
  { injection Hs as <- <-. by rewrite Hi1. }
  destruct ((r =? - ENOENT) && negb (bool_decide (is_Some value))).
  { injection Hs as <- <-. by rewrite Hi1. }
  set (fp := if 0 <=? r then xattr_nr_parts xat1 mod U8_MOD else 0) in *.
  assert (Hfp : 0 <= fp <= 255).
  { unfold fp. destruct (0 <=? r); [|lia].
    pose proof (Z.mod_pos_bound (xattr_nr_parts xat1) U8_MOD).
    unfold U8_MOD in *. lia. }
  destruct (match value with
            | Some v =>
                (next_xattr_id st1,
                 prepare_xattr xat1 name (Z.of_nat (length name)) v size,
                 mk_fs (items st1) ((next_xattr_id st1 + 1) mod U64_MOD)
                   (trace st1))
            | None => (0, xat1, st1)
            end) as [[id xat2] st2] eqn:Hprep.
  assert (Hst2 : items st2 = items st1 ∧
                 (is_Some value →
                  Z.of_nat (length xat2) = bytes ∧ 1 <= bytes <= 65793)).
  { destruct value as [v|].
    - injection Hprep as <- <- <-. split; [done|]. intros _.
      destruct (Hval v eq_refl) as [Hv1 Hv2]. subst size.
      rewrite prepare_xattr_encode.
      + rewrite length_xattr_encode. unfold sizeof_scoutfs_xattr. lia.
      + unfold sizeof_scoutfs_xattr. lia.
      + done.
    - injection Hprep as <- <- <-. split; [done|]. by intros [? ?]. }
  destruct Hst2 as [Hi2 Hx2].
  pose proof (index_retry_state E (busy_rounds E) st2) as [Hi3 _].
  destruct (index_retry E (busy_rounds E) st2) as [r3 st3].
  simpl in Hi3.
  destruct (negb (r3 =? 0)).
  { injection Hs as <- <-. congruence. }
  destruct (xattr_set_trans E ino key fp value id xat2 bytes st3)
    as [[r4 st4]|] eqn:Htr; [|done].
  cbn [mbind option_bind] in Hs. injection Hs as <- <-.
  cbn [items log].
  rewrite (xattr_set_trans_frame _ _ _ _ _ _ _ _ _ _ _ Htr Hfp Hx2 k Hk).
  congruence.
Qed.

(** X19: the keys that set touches, in any environment.  Whatever
    setxattr returns, and so removexattr too, every item whose key is not
    an xattr key of the inode (the zone, the inode number and the type of
    init_xattr_key) is as it was: the xattrs of other inodes and the items
    of other types are never created, changed or deleted. *)
Theorem setxattr_touches_only_its_inode E ino name value size flags st ret
    st' :
  0 <= size <= XATTR_SIZE_MAX →
  (∀ v, value = Some v → Z.of_nat (length v) = size) →
  scoutfs_setxattr E ino name value size flags st = Some (ret, st') →
  ∀ k, ¬ is_xattr_key ino k → items st' !! k = items st !! k.
Proof.
  intros Hsize Hval0 Hs k Hk. unfold scoutfs_setxattr in Hs.
  set (value' := if size =? 0 then Some [] else value) in *.
  assert (Hval : ∀ v, value' = Some v → Z.of_nat (length v) = size).
  { intros v Hv. unfold value' in Hv.
    destruct (Z.eqb_spec size 0) as [->|Hs0].
    - by injection Hv as <-.
    - by apply Hval0. }
  clearbody value'. clear Hval0.
  unfold scoutfs_xattr_set in Hs.
  destruct (Z.ltb_spec SCOUTFS_XATTR_MAX_NAME_LEN
              (Z.of_nat (length name))) as [Hn|Hn].
  { by injection Hs as <- <-. }
  destruct (bool_decide (is_Some value') &&
            (SCOUTFS_XATTR_MAX_VAL_LEN <? size)) eqn:Hbig.
  { by injection Hs as <- <-. }
  destruct (_ || _).
  { by injection Hs as <- <-. }
  destruct (unknown_prefix name).
  { by injection Hs as <- <-. }
  unfold XATTR_SIZE_MAX, SCOUTFS_XATTR_MAX_NAME_LEN, sizeof_scoutfs_xattr
    in *.
  rewrite Z.mod_small in Hs by (unfold U32_MOD; lia).
  set (bytes := 3 + Z.of_nat (length name) + size) in *.
  destruct (kmalloc E bytes st) as [xat st1] eqn:Hkm.
  apply kmalloc_spec in Hkm as [-> Hx].
  destruct xat as [xat|].
  2: { by injection Hs as <- <-. }
  specialize (Hx xat eq_refl).
  destruct (call E (EvLockInode DLM_LOCK_EX) (log (EvKmalloc bytes) st))
    as [r1 st1] eqn:Hcall.
  assert (st1 = log (EvLockInode DLM_LOCK_EX) (log (EvKmalloc bytes) st))
    as -> by (unfold call in Hcall; congruence).
  destruct (negb (r1 =? 0)).
  { by injection Hs as <- <-. }
  destruct (xattr_set_locked E ino name value' size flags xat bytes _)
    as [[r2 st2]|] eqn:Hl; [|done].
  cbn [mbind option_bind] in Hs. injection Hs as <- <-.
  cbn [items log].
  rewrite (xattr_set_locked_frame _ _ _ _ _ _ _ _ _ _ _ Hl); try done.
  - intros v ->. split; [by apply Hval|].
    rewrite bool_decide_eq_true_2 in Hbig by eauto. simpl in Hbig.
    apply Z.ltb_ge in Hbig. done.
  - lia.
Qed.

End Xattr.

(** * A store with colliding names

    The model at zone 2, type 4 and parts of 259 bytes, for inode 7.  The
    hash is the length of the name, so that names of equal length
    collide. *)

Definition len_hash (seed : Z) (data : list byte) : Z :=
  Z.of_nat (length data) mod U32_MOD.

Definition quiet : env := mk_env (λ _, None) 0 (λ _, xff).

(** The call made when the log holds 45 entries fails with ENOMEM. *)
Definition failing_at_45 : env :=
  mk_env (λ i, if (i =? 45)%nat then Some 12%positive else None) 0
    (λ _, xff).

Definition empty_fs : fs := mk_fs ∅ 0 [].

Definition user_a : list byte := XATTR_USER_PREFIX ++ [x61].
Definition user_b : list byte := XATTR_USER_PREFIX ++ [x62].
Definition user_cc : list byte := XATTR_USER_PREFIX ++ [x63; x63].
Definition user_long : list byte := XATTR_USER_PREFIX ++ repeat x6e 251.
Definition hello : list byte := [x68; x65; x6c; x6c; x6f].
Definition value_600 : list byte := repeat x41 600.
Definition value_700 : list byte := repeat x42 700.
Definition value_5000 : list byte := repeat x43 5000.

Definition after_set (E : env) (st : fs) (name V : list byte) : fs :=
  match scoutfs_setxattr 2 4 259 len_hash E 7 name (Some V)
          (Z.of_nat (length V)) 0 st with
  | Some (_, st') => st'
  | None => st
  end.

(** user.cc is created first, then user.b with a value of three parts,
    then user.a, whose hash collides with that of user.b. *)
Definition fs_cc : fs := after_set quiet empty_fs user_cc hello.
Definition fs_cc_b : fs := after_set quiet fs_cc user_b value_600.
Definition fs_cc_b_a : fs := after_set quiet fs_cc_b user_a hello.

(** [fs_cc_b_a] with user.cc replaced by a value of twenty parts. *)
Definition fs_many : fs := after_set quiet fs_cc_b_a user_cc value_5000.


(** [fs_cc_b] where part 0 of user.b was lost and parts 1 and 2 remain. *)
Definition fs_headless : fs :=
  with_items
    (delete (part_key 2 4 7 (name_hash_of len_hash user_b) 1 0)
       (items fs_cc_b)) fs_cc_b.

(** A store whose one xattr, user.b, has the id U64_MAX. *)
Definition fs_wrap : fs :=
  mk_fs {[ part_key 2 4 7 (name_hash_of len_hash user_b) U64_MAX 0
           := xattr_encode user_b hello ]} 0 [].

Definition fs_failed : fs :=
  after_set failing_at_45 fs_cc_b user_b value_700.

(** The second call made from [fs_cc_b] fails with ENOMEM. *)
Definition failing_second : env :=
  mk_env
    (λ i, if (i =? S (length (trace fs_cc_b)))%nat then Some 12%positive
          else None) 0 (λ _, xff).

(** The second read of the item store made from [fs_cc_b] fails with
    ENOMEM: kmalloc, lock_inode and down_read come first, then the reads. *)
Definition failing_read : env :=
  mk_env
    (λ i, if (i =? 4 + length (trace fs_cc_b))%nat then Some 12%positive
          else None) 0 (λ _, xff).

(** A name of no known namespace: "other". *)
Definition other_name : list byte := [x6f; x74; x68; x65; x72].

(** A number for each kind of call on items and transactions, to read a
    log by. *)
Definition event_kind (e : event) : nat :=
  match e with
  | EvItemNext _ => 1
  | EvItemCreate _ => 2
  | EvItemDelete _ => 3
  | EvItemDeleteSave _ => 4
  | EvItemDeleteDirty _ => 5
  | EvItemRestore => 6
  | EvHoldTrans _ => 7
  | EvReleaseTrans => 8
  | _ => 0
  end%nat.

Lemma len_hash_range seed data : 0 <= len_hash seed data < U32_MOD.
Proof. apply Z.mod_pos_bound. unfold U32_MOD. lia. Qed.

Lemma part_size_259 : 259 <= 259.
Proof. lia. Qed.

Lemma quiet_fault_free : fault_free quiet.
Proof. by intros i. Qed.

Ltac by_computation := vm_compute; first [reflexivity | discriminate].

Lemma valid_hello name :
  Z.of_nat (length name) <= SCOUTFS_XATTR_MAX_NAME_LEN →
  valid_xattr name hello.
Proof. intros Hn. split; [done|by_computation]. Qed.

Lemma fs_cc_stored :
  wf_fs 2 4 259 len_hash fs_cc 7 ∧
  stored 2 4 259 len_hash fs_cc 7 user_cc hello ∧
  xattr_at 2 4 259 len_hash (items fs_cc) 7 0 user_cc hello.
Proof.
  apply (setxattr_stored 2 4 259 len_hash part_size_259 len_hash_range quiet
           7 user_cc hello 0 empty_fs fs_cc quiet_fault_free).
  - apply wf_fs_empty.
  - by_computation.
  - split; by_computation.
  - by_computation.
Qed.

Lemma fs_cc_b_stored :
  wf_fs 2 4 259 len_hash fs_cc_b 7 ∧
  stored 2 4 259 len_hash fs_cc_b 7 user_b value_600 ∧
  xattr_at 2 4 259 len_hash (items fs_cc_b) 7 1 user_b value_600.
Proof.
  apply (setxattr_stored 2 4 259 len_hash part_size_259 len_hash_range quiet
           7 user_b value_600 0 fs_cc fs_cc_b quiet_fault_free).
  - apply fs_cc_stored.
  - by_computation.
  - split; by_computation.
  - by_computation.
Qed.

Lemma fs_cc_b_a_stored :
  wf_fs 2 4 259 len_hash fs_cc_b_a 7 ∧
  stored 2 4 259 len_hash fs_cc_b_a 7 user_a hello ∧
  xattr_at 2 4 259 len_hash (items fs_cc_b_a) 7 2 user_a hello.
Proof.
  apply (setxattr_stored 2 4 259 len_hash part_size_259 len_hash_range quiet
           7 user_a hello 0 fs_cc_b fs_cc_b_a quiet_fault_free).
  - apply fs_cc_b_stored.
  - by_computation.
  - split; by_computation.
  - by_computation.
Qed.

(** user.a is not stored in [fs_cc_b]: the only item at part 0 with its
    hash is the head of user.b. *)
Lemma user_a_absent : absent 2 4 259 len_hash fs_cc_b 7 user_a.
Proof.
  intros V (Hv & id & Hat).
  apply (xattr_at_head 2 4 259 len_hash part_size_259 _ _ _ _ _ Hv) in Hat.
  unfold xattr_head in Hat.
  remember (xattr_part 259 (xattr_encode user_a V) 0) as v eqn:Hveq.
  apply elem_of_map_to_list, list_elem_of_In in Hat.
  assert (Hall : forallb
            (λ kv : scoutfs_key * list byte,
               negb ((skx_name_hash kv.1 =? 6) && (skx_part kv.1 =? 0))
               || bool_decide
                    (kv.2 = xattr_part 259 (xattr_encode user_b value_600) 0))
            (map_to_list (items fs_cc_b)) = true) by by_computation.
  rewrite forallb_forall in Hall. specialize (Hall _ Hat).
  cbn in Hall. apply bool_decide_eq_true in Hall. subst v.
  destruct (part0_name_inj 259 part_size_259 user_a V user_b value_600 Hv
              ltac:(split; by_computation) Hall) as [Hn _].
  discriminate Hn.
Qed.

(** ** The theorems at this store *)

(** user.b is set to a value of three parts in [fs_cc]; get with a buffer
    of 600 bytes returns it. *)
Lemma set_get_round_trip_witness :
  ∃ st'',
    scoutfs_getxattr 2 4 259 len_hash quiet 7 user_b 600 fs_cc_b
    = Some (Z.of_nat (length value_600), value_600, st'').
Proof.
  apply (set_get_round_trip 2 4 259 len_hash part_size_259 len_hash_range
           quiet quiet 7 user_b value_600 0 600 fs_cc fs_cc_b).
  - exact quiet_fault_free.
  - exact quiet_fault_free.
  - exact (proj1 fs_cc_stored).
  - by_computation.
  - reflexivity.
  - split; by_computation.
  - by_computation.
  - split; by_computation.
Defined.


(** The calls of that failing set on items, from its transaction: the
    three old parts are staged-deleted, the third creation fails, the two
    new parts already written are deleted again, the old parts are
    restored and the transaction is released. *)
Lemma failed_set_log :
  take 10 (drop 40 (rev (trace fs_failed)))
  = [EvItemDeleteSave (part_key 2 4 7 6 1 0);
     EvItemDeleteSave (part_key 2 4 7 6 1 1);
     EvItemDeleteSave (part_key 2 4 7 6 1 2);
     EvItemCreate (part_key 2 4 7 6 2 0);
     EvItemCreate (part_key 2 4 7 6 2 1);
     EvItemCreate (part_key 2 4 7 6 2 2);
     EvItemDeleteDirty (part_key 2 4 7 6 2 1);
     EvItemDeleteDirty (part_key 2 4 7 6 2 0);
     EvItemRestore; EvReleaseTrans].
Proof. by_computation. Qed.



(** remove of user.a, which is not stored in [fs_cc_b]. *)
Lemma remove_absent_is_nodata_witness :
  ∃ st' reads,
    scoutfs_removexattr 2 4 259 len_hash quiet 7 user_a fs_cc_b
    = Some (- ENODATA, st') ∧
    items st' = items fs_cc_b ∧
    next_xattr_id st' = next_xattr_id fs_cc_b ∧
    Forall is_item_next reads ∧
    trace st'
    = [EvUnlock DLM_LOCK_EX; EvUpWrite] ++ reads
      ++ [EvDownWrite; EvLockInode DLM_LOCK_EX;
          EvKmalloc (sizeof_scoutfs_xattr + Z.of_nat (length user_a))]
      ++ trace fs_cc_b.
Proof.
  apply (remove_absent_is_nodata 2 4 259 len_hash part_size_259
           len_hash_range quiet 7 user_a fs_cc_b).
  - exact quiet_fault_free.
  - exact (proj1 fs_cc_b_stored).
  - reflexivity.
  - by_computation.
  - exact user_a_absent.
Defined.

(** remove of a name that is not stored does not return success. *)
Lemma remove_absent_fails :
  fst <$> scoutfs_removexattr 2 4 259 len_hash quiet 7 user_a fs_cc_b
  = Some (- ENODATA).
Proof. by_computation. Qed.

(** CREATE of user.b, which is stored in [fs_cc_b], and REPLACE of user.a,
    which is not. *)
Lemma set_flags_checked_witness :
  (∃ st',
     scoutfs_setxattr 2 4 259 len_hash quiet 7 user_b (Some hello)
       (Z.of_nat (length hello)) XATTR_CREATE fs_cc_b
     = Some (- EEXIST, st') ∧ items st' = items fs_cc_b) ∧
  (∃ st',
     scoutfs_setxattr 2 4 259 len_hash quiet 7 user_a (Some hello)
       (Z.of_nat (length hello)) XATTR_REPLACE fs_cc_b
     = Some (- ENODATA, st') ∧ items st' = items fs_cc_b).
Proof.
  split.
  - apply (proj1 (set_flags_checked 2 4 259 len_hash part_size_259
                    len_hash_range quiet 7 user_b hello fs_cc_b
                    quiet_fault_free (proj1 fs_cc_b_stored) eq_refl
                    ltac:(split; by_computation)) value_600).
    exact (proj1 (proj2 fs_cc_b_stored)).
  - apply (proj2 (set_flags_checked 2 4 259 len_hash part_size_259
                    len_hash_range quiet 7 user_a hello fs_cc_b
                    quiet_fault_free (proj1 fs_cc_b_stored) eq_refl
                    ltac:(split; by_computation))).
    exact user_a_absent.
Defined.

(** The listing of [fs_cc_b_a]. *)
Lemma listxattr_each_name_once_witness :
  ∃ ents : list (Z * list byte),
    NoDup ents.*2 ∧
    (∀ n, n ∈ ents.*2 ↔ ∃ V, stored 2 4 259 len_hash fs_cc_b_a 7 n V) ∧
    ∀ size, size = 0 ∨ listing_size ents.*2 <= size →
      ∃ st',
        scoutfs_listxattr 2 4 259 len_hash quiet 7 size fs_cc_b_a
        = Some (listing_size ents.*2,
                if size =? 0 then [] else listing ents.*2, st') ∧
        items st' = items fs_cc_b_a ∧
        trace st'
        = [EvUnlock DLM_LOCK_PR; EvUpRead]
          ++ rev (map EvItemNext (list_cursors 2 4 len_hash 7 0 0 ents))
          ++ [EvDownRead; EvLockInode DLM_LOCK_PR;
              EvKmalloc (sizeof_scoutfs_xattr + SCOUTFS_XATTR_MAX_NAME_LEN)]
          ++ trace fs_cc_b_a.
Proof.
  apply (listxattr_each_name_once 2 4 259 len_hash part_size_259
           len_hash_range quiet 7 fs_cc_b_a).
  - exact quiet_fault_free.
  - exact (proj1 fs_cc_b_a_stored).
Defined.

(** user.cc was created first, user.b second and user.a last; user.b and
    user.a have the same hash.  The listing is in the order of (hash, id),
    each name once. *)
Lemma listxattr_three_names :
  (λ r, (r.1.1, r.1.2))
    <$> scoutfs_listxattr 2 4 259 len_hash quiet 7 64 fs_cc_b_a
  = Some (22, listing [user_b; user_a; user_cc]).
Proof. by_computation. Qed.

(** get of user.b, whose value has 600 bytes, with a buffer of 599 bytes
    and with a size of 0. *)
Lemma getxattr_buffer_too_small_witness :
  (∃ st',
     scoutfs_getxattr 2 4 259 len_hash quiet 7 user_b 599 fs_cc_b
     = Some (- ERANGE, [], st')) ∧
  (∃ st',
     scoutfs_getxattr 2 4 259 len_hash quiet 7 user_b 0 fs_cc_b
     = Some (Z.of_nat (length value_600), [], st')).
Proof.
  destruct (getxattr_buffer_too_small 2 4 259 len_hash part_size_259
              len_hash_range quiet 7 user_b value_600 fs_cc_b
              quiet_fault_free (proj1 fs_cc_b_stored) eq_refl
              (proj1 (proj2 fs_cc_b_stored))) as [Hsmall Hzero].
  split; [|exact Hzero].
  apply Hsmall. split; by_computation.
Defined.

(** A name of 256 bytes and a value size of 65536. *)
Lemma length_checks_before_locking_witness :
  scoutfs_setxattr 2 4 259 len_hash quiet 7 user_long (Some hello) 5 0
    fs_cc_b = Some (- ERANGE, fs_cc_b) ∧
  scoutfs_removexattr 2 4 259 len_hash quiet 7 user_long fs_cc_b
    = Some (- ERANGE, fs_cc_b) ∧
  scoutfs_getxattr 2 4 259 len_hash quiet 7 user_long 5 fs_cc_b
    = Some (- ENODATA, [], fs_cc_b) ∧
  scoutfs_setxattr 2 4 259 len_hash quiet 7 user_a (Some hello) 65536 0
    fs_cc_b = Some (- E2BIG, fs_cc_b).
Proof.
  destruct (length_checks_before_locking 2 4 259 len_hash quiet 7 user_long
              fs_cc_b) as [Hlong _].
  destruct (Hlong ltac:(by_computation)) as (Hset & Hrm & Hget).
  destruct (length_checks_before_locking 2 4 259 len_hash quiet 7 user_a
              fs_cc_b) as [_ Hval].
  split; [apply Hset|]. split; [exact Hrm|]. split; [by apply Hget|].
  apply Hval; by_computation.
Defined.

(** get of a name longer than MAX_NAME_LEN answers -ENODATA, not
    -ERANGE. *)
Lemma getxattr_long_name_nodata :
  Z.of_nat (length user_long) = 256 ∧
  (λ r, (r.1.1, r.1.2))
    <$> scoutfs_getxattr 2 4 259 len_hash quiet 7 user_long 5 fs_cc_b
  = Some (- ENODATA, []).
Proof. split; by_computation. Qed.

(** Dropping the 24 items of [fs_many]. *)
Lemma drop_removes_everything_witness :
  ∃ st' evs,
    scoutfs_xattr_drop 2 4 quiet 7 fs_many = Some (0, st') ∧
    trace st' = evs ++ trace fs_many ∧
    batches 16 evs = Some (false, 0%nat) ∧
    (∀ E' name size,
       fault_free E' → unknown_prefix name = false →
       Z.of_nat (length name) <= SCOUTFS_XATTR_MAX_NAME_LEN →
       0 <= size <= XATTR_SIZE_MAX →
       ∃ st'', scoutfs_getxattr 2 4 259 len_hash E' 7 name size st'
               = Some (- ENODATA, [], st'')) ∧
    (∀ E' size,
       fault_free E' →
       ∃ st'', scoutfs_listxattr 2 4 259 len_hash E' 7 size st'
               = Some (0, [], st'')).
Proof.
  destruct (drop_removes_everything 2 4 259 len_hash quiet 7 fs_many)
    as (ret & st' & evs & Hdrop & Htrace & _ & Hret & Hgone).
  rewrite (Hret quiet_fault_free) in Hdrop.
  destruct (Hgone (fault_free_honest quiet quiet_fault_free)
              (Hret quiet_fault_free)) as (Hb & Hget & Hlist).
  exists st', evs. repeat split; assumption.
Defined.

(** The 24 items of [fs_many] are deleted in a transaction of 16 and one
    of 8: hold, 16 times next and delete, release, hold, 8 times next and
    delete, the next that finds nothing, release. *)
Lemma drop_in_two_batches :
  (λ r, (r.1, size (items r.2),
         filter (λ e, e ≠ 1%nat)
           (map event_kind (take 53 (rev (trace r.2))))))
    <$> scoutfs_xattr_drop 2 4 quiet 7 (mk_fs (items fs_many) 4 [])
  = Some (0, 0%nat,
          [7%nat] ++ repeat 3%nat 16 ++ [8%nat; 7%nat] ++ repeat 3%nat 8
          ++ [8%nat]).
Proof. by_computation. Qed.

(** * The further properties at the store with colliding names *)

(** Creating the three parts of user.a with a value of 600 bytes in
    [fs_cc_b], where the creation of the second part fails. *)
Lemma create_xattr_items_all_or_nothing_witness :
  ∃ ret st',
    create_xattr_items 2 4 259 len_hash failing_second 7 9
      (xattr_encode user_a value_600) 609 fs_cc_b = Some (ret, st') ∧
    ret = - ENOMEM ∧ items st' = items fs_cc_b.
Proof.
  destruct (create_xattr_items_all_or_nothing 2 4 259 len_hash part_size_259
              failing_second 7 9 (xattr_encode user_a value_600) 609 fs_cc_b
              ltac:(by_computation) ltac:(lia))
    as (ret & st' & Hc & _ & _ & Hfail & _).
  exists ret, st'.
  assert (Hret : ret = - ENOMEM).
  { vm_compute in Hc. by injection Hc as <- _. }
  split; [exact Hc|]. split; [exact Hret|].
  apply Hfail. by rewrite Hret.
Defined.

(** Deleting the three parts of user.b in [fs_cc_b], where the deletion of
    the second part fails: the one item that was saved is restored. *)
Lemma delete_xattr_items_saves_what_it_deletes_witness :
  ∃ ret saved st',
    delete_xattr_items 2 4 failing_second 7 (name_hash_of len_hash user_b) 1
      3 [] fs_cc_b = Some (ret, saved, st') ∧
    ret = - ENOMEM ∧ length saved = 1%nat ∧
    items (scoutfs_item_restore saved st') = items fs_cc_b.
Proof.
  destruct (delete_xattr_items_saves_what_it_deletes 2 4 failing_second 7
              (name_hash_of len_hash user_b) 1 3 fs_cc_b ltac:(lia)
              ltac:(split; by_computation))
    as (ret & saved & st' & Hd & _ & _ & Hrestore & _).
  exists ret, saved, st'.
  split; [exact Hd|].
  vm_compute in Hd. injection Hd as <- <- _.
  split; [reflexivity|]. split; [reflexivity|]. exact Hrestore.
Defined.

(** user.a is created in [fs_cc_b] with XATTR_CREATE. *)
Lemma setxattr_succeeds_witness :
  ∃ st',
    scoutfs_setxattr 2 4 259 len_hash quiet 7 user_a (Some hello)
      (Z.of_nat (length hello)) XATTR_CREATE fs_cc_b = Some (0, st') ∧
    wf_fs 2 4 259 len_hash st' 7 ∧
    stored 2 4 259 len_hash st' 7 user_a hello ∧
    next_xattr_id st' = next_xattr_id fs_cc_b + 1.
Proof.
  apply (setxattr_succeeds 2 4 259 len_hash part_size_259 len_hash_range
           quiet 7 user_a hello XATTR_CREATE fs_cc_b quiet_fault_free
           (proj1 fs_cc_b_stored)).
  - by_computation.
  - by_computation.
  - apply valid_hello. by_computation.
  - right. left. split; [reflexivity|exact user_a_absent].
Defined.

(** user.a is replaced in [fs_cc_b_a] by a value of three parts; get of
    user.b, whose hash is that of user.a, answers as before. *)
Lemma setxattr_keeps_other_names_witness :
  ∃ st' r s1 s2,
    scoutfs_setxattr 2 4 259 len_hash quiet 7 user_a (Some value_600)
      (Z.of_nat (length value_600)) XATTR_REPLACE fs_cc_b_a
    = Some (0, st') ∧
    scoutfs_getxattr 2 4 259 len_hash quiet 7 user_b 600 fs_cc_b_a
    = Some (r, s1) ∧
    scoutfs_getxattr 2 4 259 len_hash quiet 7 user_b 600 st'
    = Some (r, s2).
Proof.
  destruct (setxattr_keeps_other_names 2 4 259 len_hash part_size_259
              len_hash_range quiet 7 user_a value_600 XATTR_REPLACE fs_cc_b_a
              quiet_fault_free (proj1 fs_cc_b_a_stored)
              ltac:(by_computation) ltac:(by_computation)
              ltac:(split; by_computation)
              (or_intror (or_intror
                 (conj eq_refl
                    (ex_intro _ hello (proj1 (proj2 fs_cc_b_a_stored)))))))
    as (st' & Hset & Hframe).
  destruct (Hframe quiet user_b 600 quiet_fault_free ltac:(by_computation)
              ltac:(by_computation) ltac:(by_computation)
              ltac:(split; by_computation)) as (r & s1 & s2 & H1 & H2).
  exists st', r, s1, s2. split; [exact Hset|]. split; [exact H1|exact H2].
Defined.

(** user.a is removed from [fs_cc_b_a]. *)
Lemma removexattr_removes_witness :
  ∃ st',
    scoutfs_removexattr 2 4 259 len_hash quiet 7 user_a fs_cc_b_a
    = Some (0, st') ∧
    wf_fs 2 4 259 len_hash st' 7 ∧ absent 2 4 259 len_hash st' 7 user_a ∧
    next_xattr_id st' = next_xattr_id fs_cc_b_a ∧
    (∃ s, scoutfs_getxattr 2 4 259 len_hash quiet 7 user_a 5 st'
          = Some (- ENODATA, [], s)).
Proof.
  destruct (removexattr_removes 2 4 259 len_hash part_size_259
              len_hash_range quiet 7 user_a hello fs_cc_b_a quiet_fault_free
              (proj1 fs_cc_b_a_stored) ltac:(by_computation)
              (proj1 (proj2 fs_cc_b_a_stored)))
    as (st' & Hrm & Hwf & Habs & Hid & Hget & _).
  exists st'. repeat (split; [assumption|]).
  apply Hget; [exact quiet_fault_free|split; by_computation].
Defined.

(** A null value with size 5: user.a is deleted from [fs_cc_b_a], and
    nothing happens in [fs_cc_b], where it is not stored. *)
Lemma setxattr_null_value_deletes_witness :
  (∃ st',
     scoutfs_setxattr 2 4 259 len_hash quiet 7 user_a None 5 0 fs_cc_b_a
     = Some (0, st') ∧
     wf_fs 2 4 259 len_hash st' 7 ∧ absent 2 4 259 len_hash st' 7 user_a ∧
     next_xattr_id st' = next_xattr_id fs_cc_b_a) ∧
  (∃ st',
     scoutfs_setxattr 2 4 259 len_hash quiet 7 user_a None 5 0 fs_cc_b
     = Some (0, st') ∧
     items st' = items fs_cc_b).
Proof.
  split.
  - apply (proj1 (setxattr_null_value_deletes 2 4 259 len_hash part_size_259
                    len_hash_range quiet 7 user_a 5 fs_cc_b_a
                    quiet_fault_free (proj1 fs_cc_b_a_stored)
                    ltac:(by_computation) ltac:(by_computation)
                    ltac:(split; by_computation)) hello 0).
    + exact (proj1 (proj2 fs_cc_b_a_stored)).
    + by left.
  - destruct (proj2 (setxattr_null_value_deletes 2 4 259 len_hash
                       part_size_259 len_hash_range quiet 7 user_a 5 fs_cc_b
                       quiet_fault_free (proj1 fs_cc_b_stored)
                       ltac:(by_computation) ltac:(by_computation)
                       ltac:(split; by_computation)) 0 user_a_absent
                (or_introl eq_refl))
      as (st' & reads & Hset & Hitems & _).
    exists st'. split; [exact Hset|exact Hitems].
Defined.

(** A value pointer that is not null with size 0: user.a is created in
    [fs_cc_b] with the empty value. *)
Lemma setxattr_size_zero_stores_empty_witness :
  ∃ st',
    scoutfs_setxattr 2 4 259 len_hash quiet 7 user_a (Some hello) 0 0
      fs_cc_b = Some (0, st') ∧
    stored 2 4 259 len_hash st' 7 user_a [] ∧
    ∃ s, scoutfs_getxattr 2 4 259 len_hash quiet 7 user_a 16 st'
         = Some (0, [], s).
Proof.
  destruct (setxattr_size_zero_stores_empty 2 4 259 len_hash part_size_259
              len_hash_range quiet 7 user_a (Some hello) 0 fs_cc_b
              quiet_fault_free (proj1 fs_cc_b_stored) ltac:(by_computation)
              ltac:(by_computation) ltac:(by_computation)
              (or_introl eq_refl))
    as (st' & Hset & Hst & Hget).
  exists st'. split; [exact Hset|]. split; [exact Hst|].
  apply Hget; [exact quiet_fault_free|split; by_computation].
Defined.

(** get of user.b in [fs_cc_b] where the read of part 1 fails, and list
    without faults: both have released the rwsem and the lock. *)
Lemma get_and_list_are_read_only_witness :
  (∃ out st' reads,
     scoutfs_getxattr 2 4 259 len_hash failing_read 7 user_b 600 fs_cc_b
     = Some (- ENOMEM, out, st') ∧
     items st' = items fs_cc_b ∧
     Forall is_item_next reads ∧
     trace st'
     = [EvUnlock DLM_LOCK_PR; EvUpRead] ++ reads
       ++ [EvDownRead; EvLockInode DLM_LOCK_PR; EvKmalloc 609]
       ++ trace fs_cc_b) ∧
  (∃ ret out st' reads,
     scoutfs_listxattr 2 4 259 len_hash quiet 7 64 fs_cc_b
     = Some (ret, out, st') ∧
     items st' = items fs_cc_b ∧
     Forall is_item_next reads ∧
     trace st'
     = [EvUnlock DLM_LOCK_PR; EvUpRead] ++ reads
       ++ [EvDownRead; EvLockInode DLM_LOCK_PR; EvKmalloc 258]
       ++ trace fs_cc_b).
Proof.
  split.
  - destruct (proj1 (get_and_list_are_read_only 2 4 259 len_hash
                       len_hash_range failing_read 7 fs_cc_b
                       (proj1 fs_cc_b_stored))
                user_b 600) as (ret & out & st' & Hg & Hi & _ & Htr).
    assert (Hb : unknown_prefix user_b
                 || (SCOUTFS_XATTR_MAX_NAME_LEN <? Z.of_nat (length user_b))
                 = false) by by_computation.
    assert (H0 : fault failing_read (length (trace fs_cc_b)) = None)
      by by_computation.
    assert (H1 : fault failing_read (S (length (trace fs_cc_b))) = None)
      by by_computation.
    rewrite Hb in Htr. cbv zeta in Htr. rewrite H0, H1 in Htr.
    destruct Htr as (reads & Hreads & Htr).
    assert (Hret : ret = - ENOMEM).
    { apply (f_equal (fmap (λ r : Z * list byte * fs, r.1.1))) in Hg.
      vm_compute in Hg. by injection Hg as <-. }
    rewrite Hret in Hg. exists out, st', reads.
    split; [exact Hg|]. split; [exact Hi|]. split; [exact Hreads|].
    exact Htr.
  - destruct (proj2 (get_and_list_are_read_only 2 4 259 len_hash
                       len_hash_range quiet 7 fs_cc_b
                       (proj1 fs_cc_b_stored)) 64)
      as (ret & out & st' & Hl & Hi & _ & Htr).
    cbv zeta in Htr.
    change (fault quiet (length (trace fs_cc_b))) with (@None positive)
      in Htr.
    change (fault quiet (S (length (trace fs_cc_b)))) with (@None positive)
      in Htr.
    destruct Htr as (reads & Hreads & Htr).
    exists ret, out, st', reads.
    split; [exact Hl|]. split; [exact Hi|]. split; [exact Hreads|].
    exact Htr.
Defined.

(** Listing [fs_cc_b_a] into buffers that are too small. *)
Lemma listxattr_buffer_too_small_witness :
  ∃ total s0 names,
    scoutfs_listxattr 2 4 259 len_hash quiet 7 0 fs_cc_b_a
    = Some (total, [], s0) ∧
    total = listing_size names ∧
    (∀ n, n ∈ names ↔ ∃ V, stored 2 4 259 len_hash fs_cc_b_a 7 n V) ∧
    ∀ size, 0 < size < total →
      ∃ k st',
        scoutfs_listxattr 2 4 259 len_hash quiet 7 size fs_cc_b_a
        = Some (- ERANGE, listing (take k names), st') ∧
        listing_size (take k names) <= size ∧
        items st' = items fs_cc_b_a.
Proof.
  apply (listxattr_buffer_too_small 2 4 259 len_hash part_size_259
           len_hash_range quiet 7 fs_cc_b_a quiet_fault_free
           (proj1 fs_cc_b_a_stored)).
Defined.

(** With a buffer of 10 bytes the listing of [fs_cc_b_a], which needs 22,
    stops after user.b. *)
Lemma listxattr_ten_bytes :
  (λ r, (r.1.1, r.1.2))
    <$> scoutfs_listxattr 2 4 259 len_hash quiet 7 10 fs_cc_b_a
  = Some (- ERANGE, listing [user_b]).
Proof. by_computation. Qed.

(** In [fs_wrap] the cursor of list wraps behind the item of id U64_MAX
    to id 0, and the same name is listed again until the buffer of 64
    bytes is full, after 9 names. *)
Lemma listxattr_wrapping_cursor :
  (λ r, (r.1.1, r.1.2))
    <$> scoutfs_listxattr 2 4 259 len_hash quiet 7 64 fs_wrap
  = Some (- ERANGE, listing (repeat user_b 9)).
Proof. by_computation. Qed.

(** Both flags at once. *)
Lemma setxattr_rejects_bad_flags_witness :
  scoutfs_setxattr 2 4 259 len_hash quiet 7 user_a (Some hello) 5 3 fs_cc
  = Some (- EINVAL, fs_cc).
Proof.
  apply (setxattr_rejects_bad_flags 2 4 259 len_hash quiet 7 user_a
           (Some hello) 5 3 fs_cc); by_computation.
Defined.

(** The name "other". *)
Lemma unknown_namespace_is_unsupported_witness :
  scoutfs_getxattr 2 4 259 len_hash quiet 7 other_name 16 fs_cc
  = Some (- EOPNOTSUPP, [], fs_cc) ∧
  scoutfs_removexattr 2 4 259 len_hash quiet 7 other_name fs_cc
  = Some (- EOPNOTSUPP, fs_cc) ∧
  scoutfs_setxattr 2 4 259 len_hash quiet 7 other_name (Some hello) 5 0
    fs_cc = Some (- EOPNOTSUPP, fs_cc).
Proof.
  assert (Hno : ∀ p b, b ≠ x6f → ¬ (b :: p) `prefix_of` other_name).
  { intros p b Hb [k Hk]. apply Hb. by injection Hk as <- _. }
  destruct (unknown_namespace_is_unsupported 2 4 259 len_hash quiet 7
              other_name fs_cc (Hno _ x75 ltac:(done))
              (Hno _ x74 ltac:(done)) (Hno _ x73 ltac:(done))
              (Hno _ x73 ltac:(done))) as [Hget Hset].
  destruct (Hset ltac:(by_computation)) as [Hrm Hset'].
  split; [apply Hget|]. split; [exact Hrm|].
  apply Hset'; [by_computation|by left].
Defined.

(** The buffer of user.a and "hello". *)
Lemma prepare_xattr_round_trip_witness :
  let x := prepare_xattr (repeat x00 14) user_a 6 hello 5 in
  xat_name_len x = 6 ∧ xat_val_len x = 5 ∧
  take 6 (xat_name x) = user_a ∧
  take 5 (drop 6 (xat_name x)) = hello ∧
  xattr_full_bytes x = 14 ∧ xattr_nr_parts 259 x = 1.
Proof.
  destruct (prepare_xattr_round_trip 259 part_size_259 (repeat x00 14)
              user_a hello (valid_hello user_a ltac:(by_computation))
              ltac:(by_computation))
    as (H1 & H2 & H3 & H4 & H5 & H6 & H7 & H8).
  repeat (split; [assumption|]).
  by_computation.
Defined.

(** The lookup of user.b in [fs_cc_b] with a buffer of 100 bytes. *)
Lemma get_next_xattr_finds_the_name_witness :
  ∃ k xat' st',
    get_next_xattr 2 4 259 len_hash quiet 7 (repeat x00 100) 100 user_b 6
      0 0 fs_cc_b = Some (100, k, xat', st') ∧
    take 100 xat' = take 100 (xattr_encode user_b value_600).
Proof.
  destruct (proj1 (proj2 (get_next_xattr_finds_the_name 2 4 259 len_hash
                            part_size_259 len_hash_range quiet 7 user_b 100
                            (repeat x00 100) fs_cc_b quiet_fault_free
                            (proj1 fs_cc_b_stored) ltac:(by_computation)
                            ltac:(by_computation) ltac:(by_computation))
                     ltac:(by_computation))
              value_600 (proj1 (proj2 fs_cc_b_stored)))
    as (k & xat' & st' & Hget & Htake & _).
  exists k, xat', st'. split; [exact Hget|exact Htake].
Defined.

(** In [fs_headless] the first item at or after the cursor of user.b is
    part 1 of the xattr that lost its part 0. *)
Lemma damaged_first_item_is_corruption_witness :
  ∃ st',
    scoutfs_getxattr 2 4 259 len_hash quiet 7 user_b 600 fs_headless
    = Some (- EIO, [], st') ∧
    items st' = items fs_headless ∧
    next_xattr_id st' = next_xattr_id fs_headless.
Proof.
  assert (Hnext :
    next_in_range (part_key 2 4 7 (name_hash_of len_hash user_b) 0 0)
      (last_key 2 4 7) (items fs_headless)
    = Some (part_key 2 4 7 (name_hash_of len_hash user_b) 1 1,
            xattr_part 259 (xattr_encode user_b value_600) 1))
    by by_computation.
  apply (next_in_range_Some 259 len_hash) in Hnext
    as (Hk & Hlo & Hhi & Hleast).
  apply (damaged_first_item_is_corruption 2 4 259 len_hash len_hash_range
           quiet 7 user_b 600 fs_headless _ _ quiet_fault_free
           ltac:(by_computation) ltac:(by_computation)
           ltac:(split; by_computation) Hk Hlo Hhi Hleast).
  left. by_computation.
Defined.

(** user.a, which was never stored in [fs_headless] and has the hash of
    user.b, is answered with -EIO too, and so is the listing. *)
Lemma headless_get_and_list :
  (λ r, r.1.1)
    <$> scoutfs_getxattr 2 4 259 len_hash quiet 7 user_a 16 fs_headless
  = Some (- EIO) ∧
  (λ r, r.1.1) <$> scoutfs_listxattr 2 4 259 len_hash quiet 7 64 fs_headless
  = Some (- EIO).
Proof. split; by_computation. Qed.

(** The set that gives [fs_failed] fails with -ENOMEM while it creates the
    parts of the new value: the id 2 was drawn and is not given back. *)
Lemma setxattr_draws_at_most_one_id_witness :
  ∃ ret st',
    scoutfs_setxattr 2 4 259 len_hash failing_at_45 7 user_b
      (Some value_700) 700 0 fs_cc_b = Some (ret, st') ∧
    ret = - ENOMEM ∧
    (next_xattr_id st' = next_xattr_id fs_cc_b ∨
     next_xattr_id st' = (next_xattr_id fs_cc_b + 1) mod U64_MOD) ∧
    next_xattr_id fs_cc_b = 2 ∧ next_xattr_id st' = 3.
Proof.
  destruct (scoutfs_setxattr 2 4 259 len_hash failing_at_45 7 user_b
              (Some value_700) 700 0 fs_cc_b) as [[ret st']|] eqn:Hset.
  2: { vm_compute in Hset. discriminate Hset. }
  exists ret, st'. split; [reflexivity|].
  destruct (setxattr_draws_at_most_one_id 2 4 259 len_hash part_size_259
              failing_at_45 7 user_b (Some value_700) 700 0 fs_cc_b ret st'
              ltac:(split; by_computation)
              ltac:(intros v Hv; injection Hv as <-; by_computation) Hset)
    as (Hid & _ & _).
  vm_compute in Hset. injection Hset as <- <-.
  split; [reflexivity|]. split; [exact Hid|]. split; by_computation.
Defined.

(** Creating user.a in [fs_cc_b]: the listing grows from 15 to 22
    bytes. *)
Lemma listxattr_after_setxattr_witness :
  ∃ st' s s',
    scoutfs_setxattr 2 4 259 len_hash quiet 7 user_a (Some hello)
      (Z.of_nat (length hello)) XATTR_CREATE fs_cc_b = Some (0, st') ∧
    scoutfs_listxattr 2 4 259 len_hash quiet 7 0 fs_cc_b
    = Some (15, [], s) ∧
    scoutfs_listxattr 2 4 259 len_hash quiet 7 0 st' = Some (22, [], s').
Proof.
  destruct (listxattr_after_setxattr 2 4 259 len_hash part_size_259
              len_hash_range quiet 7 user_a hello XATTR_CREATE fs_cc_b
              quiet_fault_free (proj1 fs_cc_b_stored) ltac:(by_computation)
              ltac:(by_computation) (valid_hello user_a ltac:(by_computation))
              (or_intror (or_introl (conj eq_refl user_a_absent))))
    as (st' & total & total' & s & s' & Hset & Hl & Hl' & Hgrow & _).
  assert (Ht : total = 15).
  { apply (f_equal (fmap (λ r : Z * list byte * fs, r.1.1))) in Hl.
    vm_compute in Hl. by injection Hl as <-. }
  rewrite (Hgrow user_a_absent) in Hl'. rewrite Ht in Hl, Hl'.
  exists st', s, s'. split; [exact Hset|]. split; [exact Hl|exact Hl'].
Defined.

(** Removing user.a from [fs_cc_b_a]: the listing shrinks from 22 to 15
    bytes. *)
Lemma listxattr_after_removexattr_witness :
  ∃ st' s s',
    scoutfs_removexattr 2 4 259 len_hash quiet 7 user_a fs_cc_b_a
    = Some (0, st') ∧
    scoutfs_listxattr 2 4 259 len_hash quiet 7 0 fs_cc_b_a
    = Some (22, [], s) ∧
    scoutfs_listxattr 2 4 259 len_hash quiet 7 0 st' = Some (15, [], s').
Proof.
  destruct (listxattr_after_removexattr 2 4 259 len_hash part_size_259
              len_hash_range quiet 7 user_a hello fs_cc_b_a quiet_fault_free
              (proj1 fs_cc_b_a_stored) ltac:(by_computation)
              (proj1 (proj2 fs_cc_b_a_stored)))
    as (st' & total & total' & s & s' & Hrm & Hl & Hl' & Hshrink).
  assert (Ht : total = 22).
  { apply (f_equal (fmap (λ r : Z * list byte * fs, r.1.1))) in Hl.
    vm_compute in Hl. by injection Hl as <-. }
  rewrite Hshrink in Hl'. rewrite Ht in Hl, Hl'.
  exists st', s, s'. split; [exact Hrm|]. split; [exact Hl|exact Hl'].
Defined.

(** A set on inode 8 in [fs_cc_b], which holds the xattrs of inode 7:
    part 0 of user.b of inode 7 is as it was. *)
Lemma setxattr_touches_only_its_inode_witness :
  ∃ st',
    scoutfs_setxattr 2 4 259 len_hash quiet 8 user_b (Some hello) 5 0
      fs_cc_b = Some (0, st') ∧
    items st' !! part_key 2 4 7 (name_hash_of len_hash user_b) 1 0
    = Some (xattr_part 259 (xattr_encode user_b value_600) 0).
Proof.
  destruct (scoutfs_setxattr 2 4 259 len_hash quiet 8 user_b (Some hello) 5
              0 fs_cc_b) as [[ret st']|] eqn:Hset.
  2: { vm_compute in Hset. discriminate Hset. }
  assert (Hret : ret = 0).
  { apply (f_equal (fmap fst)) in Hset. vm_compute in Hset.
    by injection Hset as <-. }
  rewrite Hret in *. exists st'. split; [reflexivity|].
  rewrite (setxattr_touches_only_its_inode 2 4 259 len_hash part_size_259
             quiet 8 user_b (Some hello) 5 0 fs_cc_b 0 st'
             ltac:(split; by_computation)
             ltac:(intros v Hv; injection Hv as <-; by_computation) Hset).
  - by_computation.
  - intros (_ & Hino & _). vm_compute in Hino. discriminate Hino.
Defined.
